(** * Camera recorder component: WAV synthesis, audio fallback and recorder
      orchestration

    A shallow embedding of [src/components/Video-recorder.tsx].

    The definitions come first.  The pure WAV writer ([createWavBuffer]) is
    embedded over a byte-level model of [ArrayBuffer] and [DataView].  For
    the React component ([CameraRecorder]) the state variables and refs
    become one record, every browser facility the component calls
    (MediaRecorder, decodeAudioData, the libflac.js global, object URLs)
    becomes a field of an explicit [Browser] record, and every function of
    the component becomes a state transformer in a small state-and-exception
    monad.  The encoder bootstrap ([loadFlacEncoder]) and the effect with
    its cleanup are embedded over the events that drive them.  The
    properties follow: first those of the writer and of the 16-bit
    quantization, then those of the component. *)

From Stdlib Require Import ZArith QArith Qminmax Qround Lqa String Lia.
From stdpp Require Import base list.

Local Open Scope Z_scope.
Local Open Scope list_scope.

(** ** Exceptions and stateful code

    JavaScript code mutates state and may throw at any call.  A computation
    is a function from the state to an outcome and the state reached; the
    state reached by a throwing computation is kept, since mutations made
    before a [throw] stay visible in the [catch] block. *)

(** A thrown value: the [name] and [message] of an [Error] object. *)
Record Error : Type := { name : string; message : string }.

Inductive result (A : Type) : Type :=
| Ok (a : A)
| Throw (err : Error).
Arguments Ok {A} a.
Arguments Throw {A} err.

Definition M (S A : Type) : Type := S -> result A * S.

Definition ret {S A : Type} (a : A) : M S A := fun s => (Ok a, s).

Definition throw {S A : Type} (err : Error) : M S A := fun s => (Throw err, s).

(** [new Error(message)] *)
Definition new_Error (message : string) : Error := {| name := "Error"; message := message |}.

(** Run a call whose outcome the environment decides. *)
Definition lift {S A : Type} (r : result A) : M S A := fun s => (r, s).

Definition bind {S A B : Type} (m : M S A) (k : A -> M S B) : M S B :=
  fun s =>
    match m s with
    | (Ok a, s') => k a s'
    | (Throw e, s') => (Throw e, s')
    end.

(** [try { m } catch (err) { h err }] *)
Definition try_catch {S A : Type} (m : M S A) (h : Error -> M S A) : M S A :=
  fun s =>
    match m s with
    | (Ok a, s') => (Ok a, s')
    | (Throw e, s') => h e s'
    end.

(** [try { m } finally { f }] *)
Definition try_finally {S A : Type} (m : M S A) (f : M S unit) : M S A :=
  fun s =>
    match m s with
    | (r, s') =>
        match f s' with
        | (Ok _, s'') => (r, s'')
        | (Throw e, s'') => (Throw e, s'')
        end
    end.

Definition modify {S : Type} (f : S -> S) : M S unit := fun s => (Ok tt, f s).

Definition gets {S A : Type} (f : S -> A) : M S A := fun s => (Ok (f s), s).

Declare Scope js_scope.
Delimit Scope js_scope with js.
Notation "x <- m ;; k" := (bind m (fun x => k))
  (at level 100, m at next level, right associativity) : js_scope.
Notation "m ;; k" := (bind m (fun _ => k))
  (at level 100, right associativity) : js_scope.

(** ** JavaScript numbers as the writer uses them

    Channel data are [Float32] values.  Every finite one is a dyadic
    rational with a 24-bit significand, so the two products the writer forms,
    by [0x8000] and by [0x7FFF], need at most 39 significant bits and are
    exact in the binary64 arithmetic of JavaScript.  Rational arithmetic is
    therefore an exact model of the computation on finite samples; [NaN] is
    kept as a separate value because [Math.min], [Math.max], [<] and the
    integer conversions treat it specially. *)

Inductive number : Type :=
| Num (q : Q)
| NaN.

Definition Math_min (a b : number) : number :=
  match a, b with
  | Num x, Num y => Num (Qmin x y)
  | _, _ => NaN
  end.

Definition Math_max (a b : number) : number :=
  match a, b with
  | Num x, Num y => Num (Qmax x y)
  | _, _ => NaN
  end.

(** [a < b]; any comparison with [NaN] is false. *)
Definition number_lt (a b : number) : bool :=
  match a, b with
  | Num x, Num y => match Qcompare x y with Lt => true | _ => false end
  | _, _ => false
  end.

Definition number_mul (a b : number) : number :=
  match a, b with
  | Num x, Num y => Num (x * y)
  | _, _ => NaN
  end.

(** Truncation towards zero, the first step of every ECMAScript integer
    conversion. *)
Definition truncate (q : Q) : Z := Z.quot (Qnum q) (Z.pos (Qden q)).

(** [ToUint16]: [NaN] becomes 0, the rest is truncated and wrapped. *)
Definition ToUint16 (x : number) : Z :=
  match x with
  | Num q => truncate q mod 2 ^ 16
  | NaN => 0
  end.

(** [ToInt16]: the same sixteen bits, read in two's complement. *)
Definition ToInt16 (x : number) : Z :=
  let u := ToUint16 x in
  if u <? 2 ^ 15 then u else u - 2 ^ 16.

Definition ToUint32 (x : Z) : Z := x mod 2 ^ 32.

(** Lines 118-119 (and 219-222 of [convertToFlac]): clamp, then scale
    negative samples by [0x8000] and the others by [0x7FFF]. *)
Definition scaleSample (x : number) : number :=
  let sample := Math_max (Num (-1)) (Math_min (Num 1) x) in
  if number_lt sample (Num 0)
  then number_mul sample (Num (inject_Z 0x8000))
  else number_mul sample (Num (inject_Z 0x7FFF)).

(** The value that ends up in an [Int16] slot: [view.setInt16(_, sample)] in
    the WAV writer, [sampleData[_] = sample] in the FLAC path. *)
Definition quantize (x : number) : Z := ToInt16 (scaleSample x).

(** ** ArrayBuffer and DataView *)

(** Bytes are integers in [0, 256). *)
Definition ArrayBuffer : Type := list Z.

Definition new_ArrayBuffer (byteLength : nat) : ArrayBuffer := replicate byteLength 0.

(** The [n] low bytes of [v], least significant first. *)
Fixpoint le_bytes (n : nat) (v : Z) : list Z :=
  match n with
  | O => []
  | S n' => v mod 256 :: le_bytes n' (v / 256)
  end.

Fixpoint le_value (bs : list Z) : Z :=
  match bs with
  | [] => 0
  | b :: bs' => b + 256 * le_value bs'
  end.

(** A [DataView] write of [bs] at [byteOffset]; out of bounds is a
    [RangeError]. *)
Definition DataView_write (view : ArrayBuffer) (byteOffset : nat) (bs : list Z)
  : result ArrayBuffer :=
  if (byteOffset + length bs <=? length view)%nat
  then Ok (take byteOffset view ++ bs ++ drop (byteOffset + length bs) view)
  else Throw {| name := "RangeError"; message := "Offset is outside the bounds of the DataView" |}.

Definition DataView_setUint16 (view : ArrayBuffer) (byteOffset : nat) (data : Z) :=
  DataView_write view byteOffset (le_bytes 2 (data mod 2 ^ 16)).

Definition DataView_setUint32 (view : ArrayBuffer) (byteOffset : nat) (data : Z) :=
  DataView_write view byteOffset (le_bytes 4 (ToUint32 data)).

Definition DataView_setInt16 (view : ArrayBuffer) (byteOffset : nat) (data : number) :=
  DataView_write view byteOffset (le_bytes 2 (ToUint16 data)).

(** Little-endian readers, as [getUint16], [getUint32] and [getInt16] of a
    [DataView]; [None] is the [RangeError]. *)
Definition DataView_read (view : ArrayBuffer) (byteOffset n : nat) : option (list Z) :=
  if (byteOffset + n <=? length view)%nat
  then Some (take n (drop byteOffset view))
  else None.

Definition DataView_getUint16 (view : ArrayBuffer) (byteOffset : nat) : option Z :=
  le_value <$> DataView_read view byteOffset 2.

Definition DataView_getUint32 (view : ArrayBuffer) (byteOffset : nat) : option Z :=
  le_value <$> DataView_read view byteOffset 4.

Definition DataView_getInt16 (view : ArrayBuffer) (byteOffset : nat) : option Z :=
  (fun u => if u <? 2 ^ 15 then u else u - 2 ^ 16) <$> DataView_getUint16 view byteOffset.

(** The bytes of an ASCII tag such as ["RIFF"]. *)
Definition ascii_bytes (s : string) : list Z :=
  map (fun c => Z.of_nat (Ascii.nat_of_ascii c)) (list_ascii_of_string s).

(** ** The decoded PCM buffer

    [frameCount] is [AudioBuffer.length]; [numberOfChannels] is the number of
    channel arrays, and [getChannelData i] is the [i]-th of them.  The sample
    rate of a context created without options is the integral device rate. *)
Record AudioBuffer : Type := {
  sampleRate : Z;
  frameCount : nat;
  channelData : list (list number)
}.

Definition numberOfChannels (audioBuffer : AudioBuffer) : nat :=
  length (channelData audioBuffer).

(** [ch[p]] on a typed array: an index past the end reads [undefined], which
    [Math.min] turns into [NaN]. *)
Definition sampleAt (ch : list number) (p : nat) : number :=
  match ch !! p with
  | Some x => x
  | None => NaN
  end.

(** ** createWavBuffer (lines 87-137) *)

(** The mutable locals of [createWavBuffer] that its helpers close over. *)
Record WavState : Type := {
  view : ArrayBuffer;
  pos : nat;
  offset : nat
}.

Section CreateWavBuffer.
Local Open Scope js_scope.

(** Lines 128-131. *)
Definition setUint16 (data : Z) : M WavState unit := fun st =>
  match DataView_setUint16 (view st) (pos st) data with
  | Ok v => (Ok tt, {| view := v; pos := pos st + 2; offset := offset st |})
  | Throw e => (Throw e, st)
  end.

(** Lines 133-136. *)
Definition setUint32 (data : Z) : M WavState unit := fun st =>
  match DataView_setUint32 (view st) (pos st) data with
  | Ok v => (Ok tt, {| view := v; pos := pos st + 4; offset := offset st |})
  | Throw e => (Throw e, st)
  end.

(** Lines 96-108; [length] is the local of line 89. *)
Definition writeHeader (audioBuffer : AudioBuffer) (numOfChan length : nat)
  : M WavState unit :=
  setUint32 0x46464952 ;;
  setUint32 (36 + Z.of_nat length) ;;
  setUint32 0x45564157 ;;
  setUint32 0x20746d66 ;;
  setUint32 16 ;;
  setUint16 1 ;;
  setUint16 (Z.of_nat numOfChan) ;;
  setUint32 (sampleRate audioBuffer) ;;
  setUint32 (sampleRate audioBuffer * 2 * Z.of_nat numOfChan) ;;
  setUint16 (Z.of_nat numOfChan * 2) ;;
  setUint16 16 ;;
  setUint32 0x61746164 ;;
  setUint32 (Z.of_nat length).

(** Lines 118-121, one sample. *)
Definition writeSample (x : number) : M WavState unit := fun st =>
  match DataView_setInt16 (view st) (44 + offset st) (scaleSample x) with
  | Ok v => (Ok tt, {| view := v; pos := pos st; offset := offset st + 2 |})
  | Throw e => (Throw e, st)
  end.

(** Lines 117-122: the [for] loop over [channels], which lines 111-114
    filled with [getChannelData i] for [i] below [numOfChan]; the frame
    read is [pos]. *)
Fixpoint forChannels (channels : list (list number)) : M WavState unit :=
  match channels with
  | [] => ret tt
  | ch :: rest =>
      p <- gets pos ;;
      writeSample (sampleAt ch p) ;;
      forChannels rest
  end.

(** Lines 116-124: [while (pos < audioBuffer.length) { ...; pos++ }].  The
    loop is bounded by [fuel]; [None] means the bound was reached. *)
Fixpoint whileFrames (fuel : nat) (audioBuffer : AudioBuffer)
    (channels : list (list number)) (st : WavState)
  : option (result unit * WavState) :=
  if (pos st <? frameCount audioBuffer)%nat then
    match fuel with
    | O => None
    | S fuel' =>
        match forChannels channels st with
        | (Ok _, st') =>
            whileFrames fuel' audioBuffer channels
              {| view := view st'; pos := pos st' + 1; offset := offset st' |}
        | (Throw e, st') => Some (Throw e, st')
        end
    end
  else Some (Ok tt, st).

Definition createWavBuffer_fuel (fuel : nat) (audioBuffer : AudioBuffer)
  : option (result ArrayBuffer) :=
  let numOfChan := numberOfChannels audioBuffer in
  let length := (frameCount audioBuffer * numOfChan * 2)%nat in
  let buffer := new_ArrayBuffer (44 + length) in
  let st0 := {| view := buffer; pos := 0; offset := 0 |} in
  match writeHeader audioBuffer numOfChan length st0 with
  | (Ok _, st1) =>
      let channels := channelData audioBuffer in
      match whileFrames fuel audioBuffer channels st1 with
      | Some (Ok _, st2) => Some (Ok (view st2))
      | Some (Throw e, _) => Some (Throw e)
      | None => None
      end
  | (Throw e, _) => Some (Throw e)
  end.

(** The loop runs at most [frameCount] times ([createWavBuffer_total]
    below), so this much fuel always suffices. *)
Definition createWavBuffer (audioBuffer : AudioBuffer) : result ArrayBuffer :=
  match createWavBuffer_fuel (frameCount audioBuffer) audioBuffer with
  | Some r => r
  | None => Throw (new_Error "unreachable")
  end.

End CreateWavBuffer.


(** * The component *)

(** ** Blobs, streams, recorders *)

Record Blob : Type := { blob_bytes : list Z; blob_type : string }.

(** [blob.size] *)
Definition Blob_size (b : Blob) : nat := length (blob_bytes b).

(** [new Blob(parts, { type })] with blob parts. *)
Definition new_Blob (parts : list Blob) (type : string) : Blob :=
  {| blob_bytes := flat_map blob_bytes parts; blob_type := type |}.

(** Tracks are identified by number; a stream is its audio and video
    tracks. *)
Record MediaStream : Type := { audioTracks : list nat; videoTracks : list nat }.

(** [new MediaStream([track])] with an audio track. *)
Definition new_MediaStream (audioTrack : nat) : MediaStream :=
  {| audioTracks := [audioTrack]; videoTracks := [] |}.

Inductive RecordingState : Type := inactive | recording | paused.

Definition RecordingState_eqb (a b : RecordingState) : bool :=
  match a, b with
  | inactive, inactive | recording, recording | paused, paused => true
  | _, _ => false
  end.

(** The values of the render that a handler closes over: the handlers of
    lines 386 and 430 read [videoMimeType], [audioMimeType] and (through
    [convertToFlac]) [flacLoaded] of the render in which [startRecording]
    ran. *)
Record Closure : Type := {
  cl_videoMimeType : string;
  cl_audioMimeType : string;
  cl_flacLoaded : bool
}.

(** The pair of handlers ([ondataavailable], [onstop]) a recorder carries. *)
Inductive Handlers : Type :=
| VideoHandlers (cl : Closure)
| AudioHandlers (cl : Closure).

Record MediaRecorder : Type := {
  state : RecordingState;
  stream : MediaStream;
  mimeType : string;
  handlers : option Handlers
}.

(** Calls into the browser whose order and number matter below, in the
    order they were made. *)
Inductive Call : Type :=
| isTypeSupported_call (type : string)
| start_call (recorder : nat) (timeslice : Z)
| stop_call (recorder : nat)
| arrayBuffer_call (blob : Blob).

(** ** The libflac.js global (lines 227-277) *)
Record Flac : Type := {
  (* typeof Flac.create_libflac_encoder === 'function' *)
  has_create_libflac_encoder : bool;
  (* sample rate, channels, bits per sample, compression level, total
     samples, verify; the result is the encoder handle *)
  create_libflac_encoder : Z -> nat -> Z -> Z -> Z -> bool -> result Z;
  setEncodeCallback : Z -> result unit;
  (* the chunks handed to the encode callback during the call *)
  FLAC__stream_encoder_process_interleaved : Z -> list Z -> nat -> result (list (list Z));
  FLAC__stream_encoder_finish : Z -> result (list (list Z));
  FLAC__stream_encoder_delete : Z -> result unit
}.

(** ** The browser

    Everything the component asks of its environment.  A field that is an
    [option Error] tells whether the call throws. *)
Record Browser : Type := {
  (* how the promise of loadFlacEncoder (lines 4-67) settles *)
  loadFlacEncoder : result unit;
  (* window.Flac *)
  window_Flac : option Flac;
  MediaRecorder_isTypeSupported : string -> bool;
  getUserMedia : result MediaStream;
  MediaRecorder_new : MediaStream -> string -> option Error;
  MediaRecorder_start : nat -> option Error;
  MediaRecorder_stop : nat -> option Error;
  (* new AudioContext(), blob.arrayBuffer() and decodeAudioData taken
     together; the first argument counts the earlier calls *)
  decodeAudioData : nat -> Blob -> result AudioBuffer;
  (* videoBlob.arrayBuffer() in convertToMp4 *)
  Blob_arrayBuffer : Blob -> option Error
}.

(** ** The state of the component and of the objects it holds *)

Record World : Type := {
  (* useState, lines 162-167, 178-184 *)
  isRecording : bool;
  videoRecorded : bool;
  audioRecorded : bool;
  errorMessage : string;
  flacLoaded : bool;
  isUsingFallbackAudio : bool;
  videoURL : option nat;
  audioURL : option nat;
  videoMimeType : string;
  audioMimeType : string;
  isConverting : bool;
  (* useRef [.current], lines 171-175 *)
  mediaRecorderRef : option nat;
  audioRecorderRef : option nat;
  videoChunksRef : list Blob;
  audioChunksRef : list Blob;
  streamRef : option MediaStream;
  (* objects and counters kept by the browser *)
  recorders : list MediaRecorder;
  objectURLs : list Blob;
  decodeCalls : nat;
  calls : list Call
}.

(** Field updates. *)
Definition with_isRecording (v : bool) (w : World) : World :=
  {| isRecording := v;
     videoRecorded := videoRecorded w;
     audioRecorded := audioRecorded w;
     errorMessage := errorMessage w;
     flacLoaded := flacLoaded w;
     isUsingFallbackAudio := isUsingFallbackAudio w;
     videoURL := videoURL w;
     audioURL := audioURL w;
     videoMimeType := videoMimeType w;
     audioMimeType := audioMimeType w;
     isConverting := isConverting w;
     mediaRecorderRef := mediaRecorderRef w;
     audioRecorderRef := audioRecorderRef w;
     videoChunksRef := videoChunksRef w;
     audioChunksRef := audioChunksRef w;
     streamRef := streamRef w;
     recorders := recorders w;
     objectURLs := objectURLs w;
     decodeCalls := decodeCalls w;
     calls := calls w |}.

Definition with_videoRecorded (v : bool) (w : World) : World :=
  {| isRecording := isRecording w;
     videoRecorded := v;
     audioRecorded := audioRecorded w;
     errorMessage := errorMessage w;
     flacLoaded := flacLoaded w;
     isUsingFallbackAudio := isUsingFallbackAudio w;
     videoURL := videoURL w;
     audioURL := audioURL w;
     videoMimeType := videoMimeType w;
     audioMimeType := audioMimeType w;
     isConverting := isConverting w;
     mediaRecorderRef := mediaRecorderRef w;
     audioRecorderRef := audioRecorderRef w;
     videoChunksRef := videoChunksRef w;
     audioChunksRef := audioChunksRef w;
     streamRef := streamRef w;
     recorders := recorders w;
     objectURLs := objectURLs w;
     decodeCalls := decodeCalls w;
     calls := calls w |}.

Definition with_audioRecorded (v : bool) (w : World) : World :=
  {| isRecording := isRecording w;
     videoRecorded := videoRecorded w;
     audioRecorded := v;
     errorMessage := errorMessage w;
     flacLoaded := flacLoaded w;
     isUsingFallbackAudio := isUsingFallbackAudio w;
     videoURL := videoURL w;
     audioURL := audioURL w;
     videoMimeType := videoMimeType w;
     audioMimeType := audioMimeType w;
     isConverting := isConverting w;
     mediaRecorderRef := mediaRecorderRef w;
     audioRecorderRef := audioRecorderRef w;
     videoChunksRef := videoChunksRef w;
     audioChunksRef := audioChunksRef w;
     streamRef := streamRef w;
     recorders := recorders w;
     objectURLs := objectURLs w;
     decodeCalls := decodeCalls w;
     calls := calls w |}.

Definition with_errorMessage (v : string) (w : World) : World :=
  {| isRecording := isRecording w;
     videoRecorded := videoRecorded w;
     audioRecorded := audioRecorded w;
     errorMessage := v;
     flacLoaded := flacLoaded w;
     isUsingFallbackAudio := isUsingFallbackAudio w;
     videoURL := videoURL w;
     audioURL := audioURL w;
     videoMimeType := videoMimeType w;
     audioMimeType := audioMimeType w;
     isConverting := isConverting w;
     mediaRecorderRef := mediaRecorderRef w;
     audioRecorderRef := audioRecorderRef w;
     videoChunksRef := videoChunksRef w;
     audioChunksRef := audioChunksRef w;
     streamRef := streamRef w;
     recorders := recorders w;
     objectURLs := objectURLs w;
     decodeCalls := decodeCalls w;
     calls := calls w |}.

Definition with_flacLoaded (v : bool) (w : World) : World :=
  {| isRecording := isRecording w;
     videoRecorded := videoRecorded w;
     audioRecorded := audioRecorded w;
     errorMessage := errorMessage w;
     flacLoaded := v;
     isUsingFallbackAudio := isUsingFallbackAudio w;
     videoURL := videoURL w;
     audioURL := audioURL w;
     videoMimeType := videoMimeType w;
     audioMimeType := audioMimeType w;
     isConverting := isConverting w;
     mediaRecorderRef := mediaRecorderRef w;
     audioRecorderRef := audioRecorderRef w;
     videoChunksRef := videoChunksRef w;
     audioChunksRef := audioChunksRef w;
     streamRef := streamRef w;
     recorders := recorders w;
     objectURLs := objectURLs w;
     decodeCalls := decodeCalls w;
     calls := calls w |}.

Definition with_isUsingFallbackAudio (v : bool) (w : World) : World :=
  {| isRecording := isRecording w;
     videoRecorded := videoRecorded w;
     audioRecorded := audioRecorded w;
     errorMessage := errorMessage w;
     flacLoaded := flacLoaded w;
     isUsingFallbackAudio := v;
     videoURL := videoURL w;
     audioURL := audioURL w;
     videoMimeType := videoMimeType w;
     audioMimeType := audioMimeType w;
     isConverting := isConverting w;
     mediaRecorderRef := mediaRecorderRef w;
     audioRecorderRef := audioRecorderRef w;
     videoChunksRef := videoChunksRef w;
     audioChunksRef := audioChunksRef w;
     streamRef := streamRef w;
     recorders := recorders w;
     objectURLs := objectURLs w;
     decodeCalls := decodeCalls w;
     calls := calls w |}.

Definition with_videoURL (v : option nat) (w : World) : World :=
  {| isRecording := isRecording w;
     videoRecorded := videoRecorded w;
     audioRecorded := audioRecorded w;
     errorMessage := errorMessage w;
     flacLoaded := flacLoaded w;
     isUsingFallbackAudio := isUsingFallbackAudio w;
     videoURL := v;
     audioURL := audioURL w;
     videoMimeType := videoMimeType w;
     audioMimeType := audioMimeType w;
     isConverting := isConverting w;
     mediaRecorderRef := mediaRecorderRef w;
     audioRecorderRef := audioRecorderRef w;
     videoChunksRef := videoChunksRef w;
     audioChunksRef := audioChunksRef w;
     streamRef := streamRef w;
     recorders := recorders w;
     objectURLs := objectURLs w;
     decodeCalls := decodeCalls w;
     calls := calls w |}.

Definition with_audioURL (v : option nat) (w : World) : World :=
  {| isRecording := isRecording w;
     videoRecorded := videoRecorded w;
     audioRecorded := audioRecorded w;
     errorMessage := errorMessage w;
     flacLoaded := flacLoaded w;
     isUsingFallbackAudio := isUsingFallbackAudio w;
     videoURL := videoURL w;
     audioURL := v;
     videoMimeType := videoMimeType w;
     audioMimeType := audioMimeType w;
     isConverting := isConverting w;
     mediaRecorderRef := mediaRecorderRef w;
     audioRecorderRef := audioRecorderRef w;
     videoChunksRef := videoChunksRef w;
     audioChunksRef := audioChunksRef w;
     streamRef := streamRef w;
     recorders := recorders w;
     objectURLs := objectURLs w;
     decodeCalls := decodeCalls w;
     calls := calls w |}.

Definition with_videoMimeType (v : string) (w : World) : World :=
  {| isRecording := isRecording w;
     videoRecorded := videoRecorded w;
     audioRecorded := audioRecorded w;
     errorMessage := errorMessage w;
     flacLoaded := flacLoaded w;
     isUsingFallbackAudio := isUsingFallbackAudio w;
     videoURL := videoURL w;
     audioURL := audioURL w;
     videoMimeType := v;
     audioMimeType := audioMimeType w;
     isConverting := isConverting w;
     mediaRecorderRef := mediaRecorderRef w;
     audioRecorderRef := audioRecorderRef w;
     videoChunksRef := videoChunksRef w;
     audioChunksRef := audioChunksRef w;
     streamRef := streamRef w;
     recorders := recorders w;
     objectURLs := objectURLs w;
     decodeCalls := decodeCalls w;
     calls := calls w |}.

Definition with_audioMimeType (v : string) (w : World) : World :=
  {| isRecording := isRecording w;
     videoRecorded := videoRecorded w;
     audioRecorded := audioRecorded w;
     errorMessage := errorMessage w;
     flacLoaded := flacLoaded w;
     isUsingFallbackAudio := isUsingFallbackAudio w;
     videoURL := videoURL w;
     audioURL := audioURL w;
     videoMimeType := videoMimeType w;
     audioMimeType := v;
     isConverting := isConverting w;
     mediaRecorderRef := mediaRecorderRef w;
     audioRecorderRef := audioRecorderRef w;
     videoChunksRef := videoChunksRef w;
     audioChunksRef := audioChunksRef w;
     streamRef := streamRef w;
     recorders := recorders w;
     objectURLs := objectURLs w;
     decodeCalls := decodeCalls w;
     calls := calls w |}.

Definition with_isConverting (v : bool) (w : World) : World :=
  {| isRecording := isRecording w;
     videoRecorded := videoRecorded w;
     audioRecorded := audioRecorded w;
     errorMessage := errorMessage w;
     flacLoaded := flacLoaded w;
     isUsingFallbackAudio := isUsingFallbackAudio w;
     videoURL := videoURL w;
     audioURL := audioURL w;
     videoMimeType := videoMimeType w;
     audioMimeType := audioMimeType w;
     isConverting := v;
     mediaRecorderRef := mediaRecorderRef w;
     audioRecorderRef := audioRecorderRef w;
     videoChunksRef := videoChunksRef w;
     audioChunksRef := audioChunksRef w;
     streamRef := streamRef w;
     recorders := recorders w;
     objectURLs := objectURLs w;
     decodeCalls := decodeCalls w;
     calls := calls w |}.

Definition with_mediaRecorderRef (v : option nat) (w : World) : World :=
  {| isRecording := isRecording w;
     videoRecorded := videoRecorded w;
     audioRecorded := audioRecorded w;
     errorMessage := errorMessage w;
     flacLoaded := flacLoaded w;
     isUsingFallbackAudio := isUsingFallbackAudio w;
     videoURL := videoURL w;
     audioURL := audioURL w;
     videoMimeType := videoMimeType w;
     audioMimeType := audioMimeType w;
     isConverting := isConverting w;
     mediaRecorderRef := v;
     audioRecorderRef := audioRecorderRef w;
     videoChunksRef := videoChunksRef w;
     audioChunksRef := audioChunksRef w;
     streamRef := streamRef w;
     recorders := recorders w;
     objectURLs := objectURLs w;
     decodeCalls := decodeCalls w;
     calls := calls w |}.

Definition with_audioRecorderRef (v : option nat) (w : World) : World :=
  {| isRecording := isRecording w;
     videoRecorded := videoRecorded w;
     audioRecorded := audioRecorded w;
     errorMessage := errorMessage w;
     flacLoaded := flacLoaded w;
     isUsingFallbackAudio := isUsingFallbackAudio w;
     videoURL := videoURL w;
     audioURL := audioURL w;
     videoMimeType := videoMimeType w;
     audioMimeType := audioMimeType w;
     isConverting := isConverting w;
     mediaRecorderRef := mediaRecorderRef w;
     audioRecorderRef := v;
     videoChunksRef := videoChunksRef w;
     audioChunksRef := audioChunksRef w;
     streamRef := streamRef w;
     recorders := recorders w;
     objectURLs := objectURLs w;
     decodeCalls := decodeCalls w;
     calls := calls w |}.

Definition with_videoChunksRef (v : list Blob) (w : World) : World :=
  {| isRecording := isRecording w;
     videoRecorded := videoRecorded w;
     audioRecorded := audioRecorded w;
     errorMessage := errorMessage w;
     flacLoaded := flacLoaded w;
     isUsingFallbackAudio := isUsingFallbackAudio w;
     videoURL := videoURL w;
     audioURL := audioURL w;
     videoMimeType := videoMimeType w;
     audioMimeType := audioMimeType w;
     isConverting := isConverting w;
     mediaRecorderRef := mediaRecorderRef w;
     audioRecorderRef := audioRecorderRef w;
     videoChunksRef := v;
     audioChunksRef := audioChunksRef w;
     streamRef := streamRef w;
     recorders := recorders w;
     objectURLs := objectURLs w;
     decodeCalls := decodeCalls w;
     calls := calls w |}.

Definition with_audioChunksRef (v : list Blob) (w : World) : World :=
  {| isRecording := isRecording w;
     videoRecorded := videoRecorded w;
     audioRecorded := audioRecorded w;
     errorMessage := errorMessage w;
     flacLoaded := flacLoaded w;
     isUsingFallbackAudio := isUsingFallbackAudio w;
     videoURL := videoURL w;
     audioURL := audioURL w;
     videoMimeType := videoMimeType w;
     audioMimeType := audioMimeType w;
     isConverting := isConverting w;
     mediaRecorderRef := mediaRecorderRef w;
     audioRecorderRef := audioRecorderRef w;
     videoChunksRef := videoChunksRef w;
     audioChunksRef := v;
     streamRef := streamRef w;
     recorders := recorders w;
     objectURLs := objectURLs w;
     decodeCalls := decodeCalls w;
     calls := calls w |}.

Definition with_streamRef (v : option MediaStream) (w : World) : World :=
  {| isRecording := isRecording w;
     videoRecorded := videoRecorded w;
     audioRecorded := audioRecorded w;
     errorMessage := errorMessage w;
     flacLoaded := flacLoaded w;
     isUsingFallbackAudio := isUsingFallbackAudio w;
     videoURL := videoURL w;
     audioURL := audioURL w;
     videoMimeType := videoMimeType w;
     audioMimeType := audioMimeType w;
     isConverting := isConverting w;
     mediaRecorderRef := mediaRecorderRef w;
     audioRecorderRef := audioRecorderRef w;
     videoChunksRef := videoChunksRef w;
     audioChunksRef := audioChunksRef w;
     streamRef := v;
     recorders := recorders w;
     objectURLs := objectURLs w;
     decodeCalls := decodeCalls w;
     calls := calls w |}.

Definition with_recorders (v : list MediaRecorder) (w : World) : World :=
  {| isRecording := isRecording w;
     videoRecorded := videoRecorded w;
     audioRecorded := audioRecorded w;
     errorMessage := errorMessage w;
     flacLoaded := flacLoaded w;
     isUsingFallbackAudio := isUsingFallbackAudio w;
     videoURL := videoURL w;
     audioURL := audioURL w;
     videoMimeType := videoMimeType w;
     audioMimeType := audioMimeType w;
     isConverting := isConverting w;
     mediaRecorderRef := mediaRecorderRef w;
     audioRecorderRef := audioRecorderRef w;
     videoChunksRef := videoChunksRef w;
     audioChunksRef := audioChunksRef w;
     streamRef := streamRef w;
     recorders := v;
     objectURLs := objectURLs w;
     decodeCalls := decodeCalls w;
     calls := calls w |}.

Definition with_objectURLs (v : list Blob) (w : World) : World :=
  {| isRecording := isRecording w;
     videoRecorded := videoRecorded w;
     audioRecorded := audioRecorded w;
     errorMessage := errorMessage w;
     flacLoaded := flacLoaded w;
     isUsingFallbackAudio := isUsingFallbackAudio w;
     videoURL := videoURL w;
     audioURL := audioURL w;
     videoMimeType := videoMimeType w;
     audioMimeType := audioMimeType w;
     isConverting := isConverting w;
     mediaRecorderRef := mediaRecorderRef w;
     audioRecorderRef := audioRecorderRef w;
     videoChunksRef := videoChunksRef w;
     audioChunksRef := audioChunksRef w;
     streamRef := streamRef w;
     recorders := recorders w;
     objectURLs := v;
     decodeCalls := decodeCalls w;
     calls := calls w |}.

Definition with_decodeCalls (v : nat) (w : World) : World :=
  {| isRecording := isRecording w;
     videoRecorded := videoRecorded w;
     audioRecorded := audioRecorded w;
     errorMessage := errorMessage w;
     flacLoaded := flacLoaded w;
     isUsingFallbackAudio := isUsingFallbackAudio w;
     videoURL := videoURL w;
     audioURL := audioURL w;
     videoMimeType := videoMimeType w;
     audioMimeType := audioMimeType w;
     isConverting := isConverting w;
     mediaRecorderRef := mediaRecorderRef w;
     audioRecorderRef := audioRecorderRef w;
     videoChunksRef := videoChunksRef w;
     audioChunksRef := audioChunksRef w;
     streamRef := streamRef w;
     recorders := recorders w;
     objectURLs := objectURLs w;
     decodeCalls := v;
     calls := calls w |}.

Definition with_calls (v : list Call) (w : World) : World :=
  {| isRecording := isRecording w;
     videoRecorded := videoRecorded w;
     audioRecorded := audioRecorded w;
     errorMessage := errorMessage w;
     flacLoaded := flacLoaded w;
     isUsingFallbackAudio := isUsingFallbackAudio w;
     videoURL := videoURL w;
     audioURL := audioURL w;
     videoMimeType := videoMimeType w;
     audioMimeType := audioMimeType w;
     isConverting := isConverting w;
     mediaRecorderRef := mediaRecorderRef w;
     audioRecorderRef := audioRecorderRef w;
     videoChunksRef := videoChunksRef w;
     audioChunksRef := audioChunksRef w;
     streamRef := streamRef w;
     recorders := recorders w;
     objectURLs := objectURLs w;
     decodeCalls := decodeCalls w;
     calls := v |}.


(** The component as first rendered (lines 162-184). *)
Definition initialWorld : World :=
  {| isRecording := false; videoRecorded := false; audioRecorded := false;
     errorMessage := EmptyString; flacLoaded := false; isUsingFallbackAudio := false;
     videoURL := None; audioURL := None;
     videoMimeType := "video/webm"; audioMimeType := "audio/webm";
     isConverting := false;
     mediaRecorderRef := None; audioRecorderRef := None;
     videoChunksRef := []; audioChunksRef := []; streamRef := None;
     recorders := []; objectURLs := []; decodeCalls := 0; calls := [] |}.

(** The state setters of React. *)
Definition setIsRecording (v : bool) : M World unit := modify (with_isRecording v).
Definition setVideoRecorded (v : bool) : M World unit := modify (with_videoRecorded v).
Definition setAudioRecorded (v : bool) : M World unit := modify (with_audioRecorded v).
Definition setErrorMessage (v : string) : M World unit := modify (with_errorMessage v).
Definition setFlacLoaded (v : bool) : M World unit := modify (with_flacLoaded v).
Definition setIsUsingFallbackAudio (v : bool) : M World unit := modify (with_isUsingFallbackAudio v).
Definition setVideoURL (v : option nat) : M World unit := modify (with_videoURL v).
Definition setAudioURL (v : option nat) : M World unit := modify (with_audioURL v).
Definition setVideoMimeType (v : string) : M World unit := modify (with_videoMimeType v).
Definition setAudioMimeType (v : string) : M World unit := modify (with_audioMimeType v).
Definition setIsConverting (v : bool) : M World unit := modify (with_isConverting v).

(** ** Browser facilities as stateful calls *)

Section Component.
Local Open Scope js_scope.
Local Open Scope string_scope.

Variable br : Browser.

Definition log (c : Call) : M World unit :=
  modify (fun w => with_calls (calls w ++ [c])%list w).

(** [URL.createObjectURL(blob)]: a fresh handle for [blob]. *)
Definition createObjectURL (blob : Blob) : M World nat := fun w =>
  (Ok (length (objectURLs w)), with_objectURLs (objectURLs w ++ [blob])%list w).

(** [new AudioContext()], [await blob.arrayBuffer()] and
    [await audioContext.decodeAudioData(arrayBuffer)] (lines 72-78 and
    198-204). *)
Definition decode (audioBlob : Blob) : M World AudioBuffer := fun w =>
  (decodeAudioData br (decodeCalls w) audioBlob, with_decodeCalls (S (decodeCalls w)) w).

Definition isTypeSupported (type : string) : M World bool :=
  log (isTypeSupported_call type) ;;
  ret (MediaRecorder_isTypeSupported br type).

(** [new MediaRecorder(stream, { mimeType })]: the new recorder is inactive
    and has no handlers yet. *)
Definition new_MediaRecorder (stream : MediaStream) (mimeType : string) : M World nat :=
  match MediaRecorder_new br stream mimeType with
  | Some err => throw err
  | None => fun w =>
      (Ok (length (recorders w)),
       with_recorders
         (recorders w ++ [{| state := inactive; stream := stream; mimeType := mimeType;
                             handlers := None |}])%list w)
  end.

Definition set_handlers (h : Handlers) (r : MediaRecorder) : MediaRecorder :=
  {| state := state r; stream := stream r; mimeType := mimeType r; handlers := Some h |}.

Definition set_state (s : RecordingState) (r : MediaRecorder) : MediaRecorder :=
  {| state := s; stream := stream r; mimeType := mimeType r; handlers := handlers r |}.

(** [recorder.ondataavailable = ...; recorder.onstop = ...] *)
Definition assign_handlers (recorder : nat) (h : Handlers) : M World unit :=
  modify (fun w => with_recorders (alter (set_handlers h) recorder (recorders w)) w).

(** [recorder.state] *)
Definition recorder_state (recorder : nat) (w : World) : option RecordingState :=
  state <$> recorders w !! recorder.

(** [recorder.start(timeslice)] *)
Definition start (recorder : nat) (timeslice : Z) : M World unit :=
  log (start_call recorder timeslice) ;;
  match MediaRecorder_start br recorder with
  | Some err => throw err
  | None => modify (fun w => with_recorders (alter (set_state recording) recorder (recorders w)) w)
  end.

(** [recorder.stop()]: the recorder becomes inactive at once; its
    [dataavailable] and [stop] events are delivered later. *)
Definition stop (recorder : nat) : M World unit :=
  log (stop_call recorder) ;;
  match MediaRecorder_stop br recorder with
  | Some err => throw err
  | None => modify (fun w => with_recorders (alter (set_state inactive) recorder (recorders w)) w)
  end.

(** ** createWavFromAudio (lines 70-84) *)
Definition createWavFromAudio (audioBlob : Blob) : M World Blob :=
  audioBuffer <- decode audioBlob ;;
  wavBuffer <- lift (createWavBuffer audioBuffer) ;;
  ret {| blob_bytes := wavBuffer; blob_type := "audio/wav" |}.

(** ** convertToMp4 (lines 140-158) *)
Definition convertToMp4 (videoBlob : Blob) : M World Blob :=
  log (arrayBuffer_call videoBlob) ;;
  match Blob_arrayBuffer br videoBlob with
  | Some err => throw err
  | None => ret {| blob_bytes := blob_bytes videoBlob; blob_type := "video/mp4" |}
  end.

(** ** convertToFlac (lines 187-287) *)

(** Lines 217-223 for one channel: [sampleData[i * numChannels + channel]]
    receives the quantized sample [i].  A store past the end of an
    [Int16Array] is ignored. *)
Definition interleaveChannel (numChannels length : nat) (sampleData : list Z)
    (channel : nat) (channelData : list number) : list Z :=
  foldl (fun sampleData i =>
           <[(i * numChannels + channel)%nat := quantize (sampleAt channelData i)]> sampleData)
        sampleData (seq 0 length).

(** Lines 212-224. *)
Definition interleave (audioBuffer : AudioBuffer) : list Z :=
  let numChannels := numberOfChannels audioBuffer in
  let length := frameCount audioBuffer in
  let sampleData := replicate (length * numChannels) 0%Z in
  foldl (fun sampleData '(channel, channelData) =>
           interleaveChannel numChannels length sampleData channel channelData)
        sampleData (imap pair (channelData audioBuffer)).

(** Lines 234-280, once [Flac.create_libflac_encoder] is known to be a
    function. *)
Definition encodeFlac (flac : Flac) (audioBuffer : AudioBuffer) (sampleData : list Z)
  : M World Blob :=
  let numChannels := numberOfChannels audioBuffer in
  let length := frameCount audioBuffer in
  flacEncoder <- lift (create_libflac_encoder flac (sampleRate audioBuffer) numChannels
                         16 5 0 true) ;;
  if (flacEncoder =? 0)%Z then throw (new_Error "Failed to create FLAC encoder")
  else
    lift (setEncodeCallback flac flacEncoder) ;;
    processed <- lift (FLAC__stream_encoder_process_interleaved flac flacEncoder sampleData
                         length) ;;
    finished <- lift (FLAC__stream_encoder_finish flac flacEncoder) ;;
    let flacChunks := (processed ++ finished)%list in
    let flacBuffer := concat flacChunks in
    lift (FLAC__stream_encoder_delete flac flacEncoder) ;;
    ret {| blob_bytes := flacBuffer; blob_type := "audio/flac" |}.

(** The body of the [try] block.  [return createWavFromAudio(audioBlob)]
    returns the promise without awaiting it, so a failure of the WAV
    synthesis is not caught by the [catch] of line 281: the body yields the
    computation that remains to be run once the [try] block is left. *)
Definition convertToFlac_try (cl : Closure) (audioBlob : Blob) : M World (M World Blob) :=
  match window_Flac br, cl_flacLoaded cl with
  | Some flac, true =>
      audioBuffer <- decode audioBlob ;;
      let sampleData := interleave audioBuffer in
      if negb (has_create_libflac_encoder flac) then
        setIsUsingFallbackAudio true ;;
        ret (createWavFromAudio audioBlob)
      else
        flacBlob <- encodeFlac flac audioBuffer sampleData ;;
        ret (ret flacBlob)
  | _, _ =>
      setIsUsingFallbackAudio true ;;
      ret (createWavFromAudio audioBlob)
  end.

Definition convertToFlac (cl : Closure) (audioBlob : Blob) : M World Blob :=
  returned <- try_catch (convertToFlac_try cl audioBlob)
                (fun error =>
                   setIsUsingFallbackAudio true ;;
                   ret (createWavFromAudio audioBlob)) ;;
  returned.

(** ** setupCamera (lines 291-347) *)

(** Lines 306-311 and 314-319: probe the candidates in order and stop at the
    first supported one. *)
Fixpoint probeTypes (setMimeType : string -> M World unit) (types : list string)
  : M World unit :=
  match types with
  | [] => ret tt
  | type :: rest =>
      supported <- isTypeSupported type ;;
      if supported then setMimeType type else probeTypes setMimeType rest
  end%list.

Definition videoTypes : list string := ["video/webm"; "video/mp4"]%list.
Definition audioTypes : list string := ["audio/webm"; "audio/ogg"]%list.

(** Lines 304-319. *)
Definition negotiate : M World unit :=
  probeTypes setVideoMimeType videoTypes ;;
  probeTypes setAudioMimeType audioTypes.

(** Lines 293-302. *)
Definition tryLoadFlacEncoder : M World unit :=
  try_catch
    (lift (loadFlacEncoder br) ;;
     setFlacLoaded true)
    (fun err => setIsUsingFallbackAudio true).

(** The preview binding of lines 332-334 touches the video element only. *)
Definition setupCamera : M World unit :=
  try_catch
    (tryLoadFlacEncoder ;;
     negotiate ;;
     stream <- lift (getUserMedia br) ;;
     modify (with_streamRef (Some stream)))
    (fun err =>
       if String.eqb (name err) "NotAllowedError" then
         setErrorMessage "Permission denied. Please allow camera and microphone access."
       else if String.eqb (name err) "NotFoundError" then
         setErrorMessage "Camera or microphone not found. Please check your devices."
       else
         setErrorMessage ("Error accessing media: " ++ message err)).

(** ** The handlers installed by startRecording

    The two [onstop] handlers are async functions.  Each reads its chunk
    buffer before its first [await] and afterwards only calls state setters
    with values it has computed itself, so a handler is run here from start
    to end in one step. *)

(** Lines 380-384. *)
Definition mediaRecorder_ondataavailable (data : Blob) : M World unit :=
  if (0 <? Blob_size data)%nat
  then modify (fun w => with_videoChunksRef (videoChunksRef w ++ [data])%list w)
  else ret tt.

(** Lines 386-411. *)
Definition mediaRecorder_onstop (cl : Closure) : M World unit :=
  videoChunks <- gets videoChunksRef ;;
  if (0 <? length videoChunks)%nat then
    setIsConverting true ;;
    let originalVideoBlob := new_Blob videoChunks (cl_videoMimeType cl) in
    try_catch
      (finalVideoBlob <- (if String.eqb (cl_videoMimeType cl) "video/mp4"
                          then ret originalVideoBlob
                          else convertToMp4 originalVideoBlob) ;;
       videoUrl <- createObjectURL finalVideoBlob ;;
       setVideoURL (Some videoUrl) ;;
       setVideoRecorded true)
      (fun err =>
         setErrorMessage "Failed to convert video to MP4. Using original format." ;;
         videoUrl <- createObjectURL originalVideoBlob ;;
         setVideoURL (Some videoUrl) ;;
         setVideoRecorded true)
  else ret tt.

(** Lines 424-428. *)
Definition audioRecorder_ondataavailable (data : Blob) : M World unit :=
  if (0 <? Blob_size data)%nat
  then modify (fun w => with_audioChunksRef (audioChunksRef w ++ [data])%list w)
  else ret tt.

(** Lines 430-455. *)
Definition audioRecorder_onstop (cl : Closure) : M World unit :=
  audioChunks <- gets audioChunksRef ;;
  if (0 <? length audioChunks)%nat then
    setIsConverting true ;;
    let originalAudioBlob := new_Blob audioChunks (cl_audioMimeType cl) in
    try_finally
      (try_catch
         (finalAudioBlob <- convertToFlac cl originalAudioBlob ;;
          audioUrl <- createObjectURL finalAudioBlob ;;
          setAudioURL (Some audioUrl) ;;
          setAudioRecorded true)
         (fun err =>
            setErrorMessage "Failed to convert audio. Using original format." ;;
            setIsUsingFallbackAudio true ;;
            audioUrl <- createObjectURL originalAudioBlob ;;
            setAudioURL (Some audioUrl) ;;
            setAudioRecorded true))
      (setIsConverting false)
  else ret tt.

(** ** startRecording (lines 364-466) *)
Definition startRecording : M World unit :=
  current <- gets streamRef ;;
  match current with
  | None =>
      setErrorMessage "Camera stream is not available. Please reload and allow access."
  | Some stream =>
      modify (with_videoChunksRef []%list) ;;
      modify (with_audioChunksRef []%list) ;;
      try_catch
        (videoMimeType <- gets videoMimeType ;;
         audioMimeType <- gets audioMimeType ;;
         flacLoaded <- gets flacLoaded ;;
         let cl := {| cl_videoMimeType := videoMimeType;
                      cl_audioMimeType := audioMimeType;
                      cl_flacLoaded := flacLoaded |} in
         mediaRecorder <- new_MediaRecorder stream videoMimeType ;;
         modify (with_mediaRecorderRef (Some mediaRecorder)) ;;
         assign_handlers mediaRecorder (VideoHandlers cl) ;;
         audioTrack <- match audioTracks stream with
                       | [] => throw (new_Error "No audio track found in the stream")
                       | track :: _ => ret track
                       end%list ;;
         let audioStream := new_MediaStream audioTrack in
         audioRecorder <- new_MediaRecorder audioStream audioMimeType ;;
         modify (with_audioRecorderRef (Some audioRecorder)) ;;
         assign_handlers audioRecorder (AudioHandlers cl) ;;
         start mediaRecorder 1000 ;;
         start audioRecorder 1000 ;;
         setIsRecording true ;;
         setErrorMessage EmptyString)
        (fun err => setErrorMessage ("Recording error: " ++ message err))
  end.

(** ** stopRecording (lines 469-485) *)

(** [ref.current && ref.current.state === "recording"] *)
Definition isActive (ref : option nat) (w : World) : bool :=
  match ref with
  | Some recorder =>
      match recorder_state recorder w with
      | Some s => RecordingState_eqb s recording
      | None => false
      end
  | None => false
  end.

(** Lines 471-473 and 475-477. *)
Definition stopIfRecording (ref : World -> option nat) : M World unit :=
  current <- gets ref ;;
  active <- gets (isActive current) ;;
  match current, active with
  | Some recorder, true => stop recorder
  | _, _ => ret tt
  end.

Definition stopRecording : M World unit :=
  try_catch
    (stopIfRecording mediaRecorderRef ;;
     stopIfRecording audioRecorderRef ;;
     setIsRecording false)
    (fun err =>
       setErrorMessage ("Error stopping recording: " ++ message err) ;;
       setIsRecording false).

End Component.

(** ** Event delivery

    The browser delivers [dataavailable] and [stop] events to the handlers a
    recorder carries. *)
Definition dispatch_dataavailable (br : Browser) (recorder : nat) (data : Blob)
  : M World unit := fun w =>
  match handlers <$> recorders w !! recorder with
  | Some (Some (VideoHandlers _)) => mediaRecorder_ondataavailable data w
  | Some (Some (AudioHandlers _)) => audioRecorder_ondataavailable data w
  | _ => (Ok tt, w)
  end.

Definition dispatch_stop (br : Browser) (recorder : nat) : M World unit := fun w =>
  match handlers <$> recorders w !! recorder with
  | Some (Some (VideoHandlers cl)) => mediaRecorder_onstop br cl w
  | Some (Some (AudioHandlers cl)) => audioRecorder_onstop br cl w
  | _ => (Ok tt, w)
  end.

(** ** loadFlacEncoder (lines 4-67)

    The promise is driven by events: the [load] or [error] event of a script
    element, the timeout that follows a [load], and the handlers that
    libflac.js may call.  The environment gives the events; the promise
    settles by the first call of [resolve] or [reject], or never. *)

Inductive ScriptEvent : Type := script_onload | script_onerror.

(** A call by the library of one of the handlers assigned in lines 25-31. *)
Inductive FlacSignal : Type :=
| signal_onready
| signal_onerror (err : string).

(** [window.Flac] as the timeout callback of lines 21-39 finds it. *)
Record FlacGlobal : Type := {
  (* typeof Flac.onready === 'function' *)
  onready_is_function : bool;
  (* the handlers the library calls after they were assigned, in order *)
  signals : list FlacSignal
}.

Record Loader : Type := {
  (* window.Flac is truthy when loadFlacEncoder is called *)
  Flac_at_call : bool;
  (* the event of the first script element *)
  primary_event : ScriptEvent;
  (* window.Flac, 100 ms after the first script loaded *)
  Flac_after_primary : option FlacGlobal;
  (* the event of the second script element *)
  alternative_event : ScriptEvent;
  (* window.Flac is truthy 100 ms after the second script loaded *)
  Flac_after_alternative : bool
}.

Inductive Settlement : Type :=
| resolved
| rejected (err : Error)
| pending.

Definition primary_src : string :=
  "https://cdn.jsdelivr.net/npm/libflac.js@4.0.1/dist/libflac.min.js".

Definition alternative_src : string :=
  "https://unpkg.com/libflac.js@4.0.1/dist/libflac.min.js".

(** Lines 25-31: the first handler the library calls settles the promise. *)
Definition settle_by (signals : list FlacSignal) : Settlement :=
  match signals with
  | [] => pending
  | signal_onready :: _ => resolved
  | signal_onerror err :: _ =>
      rejected (new_Error (String.append "Failed to initialize FLAC encoder: " err))
  end.

(** The settlement of the promise and the [src] of the script elements
    appended to the document, in order. *)
Definition loadFlacEncoder_promise (d : Loader) : Settlement * list string :=
  if Flac_at_call d then (resolved, [])
  else
    match primary_event d with
    | script_onload =>
        (match Flac_after_primary d with
         | Some Flac =>
             if onready_is_function Flac then settle_by (signals Flac) else resolved
         | None => rejected (new_Error "FLAC library loaded but Flac object not found")
         end,
         [primary_src])
    | script_onerror =>
        (match alternative_event d with
         | script_onload =>
             if Flac_after_alternative d then resolved
             else rejected
                    (new_Error "Failed to load FLAC encoder library from backup source")
         | script_onerror => rejected (new_Error "Failed to load FLAC encoder from all sources")
         end,
         [primary_src; alternative_src])
    end.

(** ** The effect and its cleanup (lines 290-361)

    The effect depends on [videoURL] and [audioURL].  After a render in
    which one of them differs from its value at the last run of the effect,
    React runs the cleanup returned by that run, which closes over the
    values of that render, and then runs the effect again.  [setupCamera] is
    run here to its end before the next render. *)

Record Deps : Type := { dep_videoURL : option nat; dep_audioURL : option nat }.

Definition Deps_eqb (a b : Deps) : bool :=
  bool_decide (dep_videoURL a = dep_videoURL b)
  && bool_decide (dep_audioURL a = dep_audioURL b).

Record Mounted : Type := {
  world : World;
  (* the dependencies at the last run of the effect *)
  committed : option Deps;
  (* the URLs passed to URL.revokeObjectURL, in order *)
  revoked : list nat;
  (* the tracks on which stop() was called, in order *)
  stoppedTracks : list nat
}.

(** [stream.getTracks()] *)
Definition getTracks (stream : MediaStream) : list nat :=
  audioTracks stream ++ videoTracks stream.

(** [if (url) URL.revokeObjectURL(url)] *)
Definition revokeIfSet (url : option nat) (urls : list nat) : list nat :=
  match url with
  | Some u => urls ++ [u]
  | None => urls
  end.

(** Lines 352-360, closed over the URLs [deps] of its render. *)
Definition cleanup (deps : Deps) (p : Mounted) : Mounted :=
  {| world := world p;
     committed := committed p;
     revoked := revokeIfSet (dep_audioURL deps) (revokeIfSet (dep_videoURL deps) (revoked p));
     stoppedTracks :=
       match streamRef (world p) with
       | Some stream => stoppedTracks p ++ getTracks stream
       | None => stoppedTracks p
       end |}.

Definition current_deps (w : World) : Deps :=
  {| dep_videoURL := videoURL w; dep_audioURL := audioURL w |}.

(** Line 349, and the recording of the dependencies of this run. *)
Definition run_effect (br : Browser) (deps : Deps) (p : Mounted) : Mounted :=
  {| world := snd (setupCamera br (world p));
     committed := Some deps;
     revoked := revoked p;
     stoppedTracks := stoppedTracks p |}.

(** What follows a render. *)
Definition commit (br : Browser) (p : Mounted) : Mounted :=
  let deps := current_deps (world p) in
  match committed p with
  | None => run_effect br deps p
  | Some old => if Deps_eqb old deps then p else run_effect br deps (cleanup old p)
  end.

(** Unmounting runs the cleanup of the last run. *)
Definition unmount (p : Mounted) : Mounted :=
  match committed p with
  | None => p
  | Some old =>
      let p' := cleanup old p in
      {| world := world p'; committed := None; revoked := revoked p';
         stoppedTracks := stoppedTracks p' |}
  end.

(** A handler of the component runs between two renders. *)
Definition between_renders (h : M World unit) (p : Mounted) : Mounted :=
  {| world := snd (h (world p)); committed := committed p; revoked := revoked p;
     stoppedTracks := stoppedTracks p |}.

(** The component before its first effect. *)
Definition rendered : Mounted :=
  {| world := initialWorld; committed := None; revoked := []; stoppedTracks := [] |}.
(** * Auxiliary definitions used by the proofs *)

(** The writer's state when [done] has been written and [n] zero bytes
    follow. *)
Definition appended (done : list Z) (n off : nat) : WavState :=
  {| view := done ++ replicate n 0; pos := length done; offset := off |}.

(** The thirteen header fields in file order. *)
Definition wavHeader (audioBuffer : AudioBuffer) : list Z :=
  let numOfChan := Z.of_nat (numberOfChannels audioBuffer) in
  let length := Z.of_nat (frameCount audioBuffer) * numOfChan * 2 in
  concat
    [ le_bytes 4 (ToUint32 0x46464952);
      le_bytes 4 (ToUint32 (36 + length));
      le_bytes 4 (ToUint32 0x45564157);
      le_bytes 4 (ToUint32 0x20746d66);
      le_bytes 4 (ToUint32 16);
      le_bytes 2 (1 mod 2 ^ 16);
      le_bytes 2 (numOfChan mod 2 ^ 16);
      le_bytes 4 (ToUint32 (sampleRate audioBuffer));
      le_bytes 4 (ToUint32 (sampleRate audioBuffer * 2 * numOfChan));
      le_bytes 2 ((numOfChan * 2) mod 2 ^ 16);
      le_bytes 2 (16 mod 2 ^ 16);
      le_bytes 4 (ToUint32 0x61746164);
      le_bytes 4 (ToUint32 length) ].

(** The two bytes one sample occupies. *)
Definition sampleBytes (x : number) : list Z := le_bytes 2 (ToUint16 (scaleSample x)).

(** The bytes of source frame [p], channel after channel. *)
Definition frameBytes (channels : list (list number)) (p : nat) : list Z :=
  flat_map (fun ch => sampleBytes (sampleAt ch p)) channels.

(** The bytes of the [n] source frames from frame [p] on. *)
Definition framesBytes (channels : list (list number)) (p n : nat) : list Z :=
  flat_map (frameBytes channels) (seq p n).

(** The writer's state in the loop: header [hdr], sample bytes [d] written
    so far, [n] zero bytes after them, and the frame counter at [p]. *)
Definition filled (hdr d : list Z) (n p : nat) : WavState :=
  {| view := hdr ++ d ++ replicate n 0; pos := p; offset := length d |}.

(** What the writer returns: the header, the source frames from frame 44 on
    (the loop of line 116 starts at the value [pos] has after the header),
    and zero bytes up to the announced data length. *)
Definition wavBytes (audioBuffer : AudioBuffer) : list Z :=
  wavHeader audioBuffer
  ++ framesBytes (channelData audioBuffer) 44 (frameCount audioBuffer - 44)
  ++ replicate (2 * numberOfChannels audioBuffer * Nat.min 44 (frameCount audioBuffer)) 0.

(** The clamp of line 118 and the scaling of line 119 on rationals. *)
Definition qclamp (x : Q) : Q := Qmax (-1) (Qmin 1 x).

Definition qscale (c : Q) : Q :=
  if number_lt (Num c) (Num 0)
  then (c * inject_Z 0x8000)%Q
  else (c * inject_Z 0x7FFF)%Q.

(** Example buffers. *)

(** A stereo buffer of two frames at 48 kHz. *)
Definition stereo2 : AudioBuffer :=
  {| sampleRate := 48000;
     frameCount := 2;
     channelData := [[Num (1 # 2); Num (-1 # 2)]; [Num 1; Num (-1)]] |}.

(** A mono buffer of 45 frames: full positive scale in frame 0, full negative
    scale in frame 44, silence between. *)
Definition mono45 : AudioBuffer :=
  {| sampleRate := 48000;
     frameCount := 45;
     channelData := [Num 1 :: replicate 43 (Num 0) ++ [Num (-1)]] |}.

(** Example browsers and runs. *)

Definition camera : MediaStream := {| audioTracks := [0%nat]; videoTracks := [1%nat] |}.

(** A browser without network access to the encoder: the bootstrap promise
    rejects and [window.Flac] stays undefined.  It records MP4 only. *)
Definition offlineBrowser : Browser :=
  {| loadFlacEncoder := Throw (new_Error "Failed to load FLAC encoder from all sources");
     window_Flac := None;
     MediaRecorder_isTypeSupported := fun type => String.eqb type "video/mp4";
     getUserMedia := Ok camera;
     MediaRecorder_new := fun _ _ => None;
     MediaRecorder_start := fun _ => None;
     MediaRecorder_stop := fun _ => None;
     decodeAudioData := fun _ _ => Ok stereo2;
     Blob_arrayBuffer := fun _ => None |}.

(** A browser that records WebM and in which reading a blob fails. *)
Definition unreadableBrowser : Browser :=
  {| loadFlacEncoder := Throw (new_Error "Failed to load FLAC encoder from all sources");
     window_Flac := None;
     MediaRecorder_isTypeSupported := fun type => String.eqb type "video/webm";
     getUserMedia := Ok camera;
     MediaRecorder_new := fun _ _ => None;
     MediaRecorder_start := fun _ => None;
     MediaRecorder_stop := fun _ => None;
     decodeAudioData := fun _ _ => Ok stereo2;
     Blob_arrayBuffer := fun _ => Some {| name := "NotReadableError"; message := "unreadable" |} |}.

Definition chunk : Blob := {| blob_bytes := [26; 69; 223; 163]; blob_type := EmptyString |}.

(** The world after mounting, starting a recording and receiving one chunk
    per recorder. *)
Definition recordingWorld (br : Browser) : World :=
  let w1 := snd (setupCamera br initialWorld) in
  let w2 := snd (startRecording br w1) in
  let w3 := snd (dispatch_dataavailable br 0 chunk w2) in
  snd (dispatch_dataavailable br 1 chunk w3).

(** Specification-side notions for the component. *)

(** The candidates that a probe in order asks about: all up to and including
    the first supported one. *)
Fixpoint probed (supported : string -> bool) (types : list string) : list string :=
  match types with
  | [] => []
  | type :: rest => type :: (if supported type then [] else probed supported rest)
  end.

(** Neither recorder held by the component reports "recording". *)
Definition stopped (w : World) : Prop :=
  isActive (mediaRecorderRef w) w = false /\ isActive (audioRecorderRef w) w = false.

(** The blob [createWavFromAudio] yields when its decode is the [n]-th. *)
Definition wavSynthesis (br : Browser) (audioBlob : Blob) (n : nat) : result Blob :=
  match decodeAudioData br n audioBlob with
  | Ok audioBuffer =>
      match createWavBuffer audioBuffer with
      | Ok wavBuffer => Ok {| blob_bytes := wavBuffer; blob_type := "audio/wav" |}
      | Throw err => Throw err
      end
  | Throw err => Throw err
  end.

(** The FLAC encoder cannot be used for [audioBlob]: the library did not
    load, the global or its entry point is missing, the encoder handle is
    zero, or the [try] block of [convertToFlac] throws. *)
Definition flac_unavailable (br : Browser) (cl : Closure) (audioBlob : Blob) (w : World)
  : Prop :=
  cl_flacLoaded cl = false \/
  window_Flac br = None \/
  (exists flac, window_Flac br = Some flac /\ has_create_libflac_encoder flac = false) \/
  (exists flac audioBuffer,
      window_Flac br = Some flac /\
      decodeAudioData br (decodeCalls w) audioBlob = Ok audioBuffer /\
      create_libflac_encoder flac (sampleRate audioBuffer) (numberOfChannels audioBuffer)
        16 5 0 true = Ok 0) \/
  (exists err w1, convertToFlac_try br cl audioBlob w = (Throw err, w1)).

(** An encoder that emits the stream marker while processing and one frame
    byte per sample when finishing; handle 1. *)
Definition markerFlac : Flac :=
  {| has_create_libflac_encoder := true;
     create_libflac_encoder := fun _ _ _ _ _ _ => Ok 1;
     setEncodeCallback := fun _ => Ok tt;
     FLAC__stream_encoder_process_interleaved := fun _ _ _ => Ok [ascii_bytes "fLaC"];
     FLAC__stream_encoder_finish := fun _ => Ok [[255; 248]];
     FLAC__stream_encoder_delete := fun _ => Ok tt |}.

(** A browser in which the encoder loaded. *)
Definition onlineBrowser : Browser :=
  {| loadFlacEncoder := Ok tt;
     window_Flac := Some markerFlac;
     MediaRecorder_isTypeSupported := fun type => String.eqb type "video/webm";
     getUserMedia := Ok camera;
     MediaRecorder_new := fun _ _ => None;
     MediaRecorder_start := fun _ => None;
     MediaRecorder_stop := fun _ => None;
     decodeAudioData := fun _ _ => Ok stereo2;
     Blob_arrayBuffer := fun _ => None |}.

(** More example browsers. *)

(** A browser without the encoder in which no audio can be decoded. *)
Definition undecodableBrowser : Browser :=
  {| loadFlacEncoder := Throw (new_Error "Failed to load FLAC encoder from all sources");
     window_Flac := None;
     MediaRecorder_isTypeSupported := fun type => String.eqb type "video/webm";
     getUserMedia := Ok camera;
     MediaRecorder_new := fun _ _ => None;
     MediaRecorder_start := fun _ => None;
     MediaRecorder_stop := fun _ => None;
     decodeAudioData := fun _ _ =>
       Throw {| name := "EncodingError"; message := "Unable to decode audio data" |};
     Blob_arrayBuffer := fun _ => None |}.

Definition webmClosure : Closure :=
  {| cl_videoMimeType := "video/webm"; cl_audioMimeType := "audio/webm";
     cl_flacLoaded := false |}.

Definition loadedClosure : Closure :=
  {| cl_videoMimeType := "video/webm"; cl_audioMimeType := "audio/webm";
     cl_flacLoaded := true |}.

(** Deliver the [dataavailable] events of one recorder in order. *)
Fixpoint deliver (ondataavailable : Blob -> M World unit) (datas : list Blob)
  : M World unit :=
  match datas with
  | [] => ret tt
  | data :: rest => bind (ondataavailable data) (fun _ => deliver ondataavailable rest)
  end.

(** The chunks that have a positive size. *)
Definition nonempty_chunks (datas : list Blob) : list Blob :=
  filter (fun data => (0 < Blob_size data)%nat) datas.

(** A browser in which the second recorder cannot be started. *)
Definition halfStartBrowser : Browser :=
  {| loadFlacEncoder := Ok tt;
     window_Flac := Some markerFlac;
     MediaRecorder_isTypeSupported := fun type => String.eqb type "video/webm";
     getUserMedia := Ok camera;
     MediaRecorder_new := fun _ _ => None;
     MediaRecorder_start := fun recorder =>
       if Nat.eqb recorder 1
       then Some {| name := "NotSupportedError"; message := "cannot start" |}
       else None;
     MediaRecorder_stop := fun _ => None;
     decodeAudioData := fun _ _ => Ok stereo2;
     Blob_arrayBuffer := fun _ => None |}.

(** A cycle seen by React up to the stop: first render and effect, start,
    one chunk per recorder, stop. *)
Definition justStopped (br : Browser) : Mounted :=
  let p1 := commit br rendered in
  let p2 := between_renders (startRecording br) p1 in
  let p3 := between_renders (dispatch_dataavailable br 0 chunk) p2 in
  let p4 := between_renders (dispatch_dataavailable br 1 chunk) p3 in
  between_renders (stopRecording br) p4.

(** Then the stop event of the video recorder, the render that follows, and
    the stop event of the audio recorder. *)
Definition bothPublished (br : Browser) : Mounted :=
  let p6 := commit br (between_renders (dispatch_stop br 0) (justStopped br)) in
  between_renders (dispatch_stop br 1) p6.
(** * Properties of the WAV writer *)

(** ** Little-endian fields *)

Lemma length_le_bytes (n : nat) (v : Z) : length (le_bytes n v) = n.
Proof. revert v; induction n as [|n IH]; intros v; simpl; [reflexivity | now rewrite IH]. Qed.

Lemma le_value_le_bytes (n : nat) (v : Z) :
  le_value (le_bytes n v) = v mod 256 ^ Z.of_nat n.
Proof.
  revert v; induction n as [|n IH]; intros v.
  - simpl. now rewrite Z.mod_1_r.
  - cbn [le_bytes le_value]. rewrite IH, Nat2Z.inj_succ, Z.pow_succ_r by lia.
    rewrite Z.rem_mul_r by lia. reflexivity.
Qed.

Lemma le_value_le_bytes_small (n : nat) (v : Z) :
  0 <= v < 256 ^ Z.of_nat n -> le_value (le_bytes n v) = v.
Proof. intros H. rewrite le_value_le_bytes. now apply Z.mod_small. Qed.

(** ** Reading a field out of a concatenation *)

Lemma DataView_read_skip (f l : list Z) (k o n : nat) :
  length f = k -> (k <= o)%nat ->
  DataView_read (f ++ l) o n = DataView_read l (o - k) n.
Proof.
  intros Hk Ho. unfold DataView_read. rewrite length_app, Hk.
  replace o with (k + (o - k))%nat at 2 by lia.
  rewrite <- Hk at 2. rewrite drop_app_add.
  destruct (Nat.leb_spec (o + n) (k + length l)), (Nat.leb_spec (o - k + n) (length l));
    try lia; reflexivity.
Qed.

Lemma DataView_read_here (f l : list Z) (n : nat) :
  length f = n -> DataView_read (f ++ l) 0 n = Some f.
Proof.
  intros Hn. unfold DataView_read. rewrite length_app, Hn.
  destruct (Nat.leb_spec (0 + n) (n + length l)); [|lia].
  rewrite drop_0. rewrite <- Hn. now rewrite take_app_length.
Qed.

(** ** Writes that fill a zeroed buffer from the front *)

Lemma DataView_write_app (pre old post bs : list Z) :
  length old = length bs ->
  DataView_write (pre ++ old ++ post) (length pre) bs = Ok (pre ++ bs ++ post).
Proof.
  intros Hlen. unfold DataView_write. rewrite !length_app.
  destruct (Nat.leb_spec (length pre + length bs) (length pre + (length old + length post)));
    [|lia].
  rewrite take_app_length, drop_app_add, <- Hlen, drop_app_length. reflexivity.
Qed.

Lemma setUint32_appended (done : list Z) (n off : nat) (d : Z) :
  setUint32 d (appended done (4 + n) off)
  = (Ok tt, appended (done ++ le_bytes 4 (ToUint32 d)) n off).
Proof.
  unfold setUint32, appended, DataView_setUint32; cbn [view pos offset].
  change (replicate (4 + n) 0) with (replicate 4 0 ++ replicate n 0).
  rewrite DataView_write_app by reflexivity.
  rewrite length_app, length_le_bytes, <- app_assoc. reflexivity.
Qed.

Lemma setUint16_appended (done : list Z) (n off : nat) (d : Z) :
  setUint16 d (appended done (2 + n) off)
  = (Ok tt, appended (done ++ le_bytes 2 (d mod 2 ^ 16)) n off).
Proof.
  unfold setUint16, appended, DataView_setUint16; cbn [view pos offset].
  change (replicate (2 + n) 0) with (replicate 2 0 ++ replicate n 0).
  rewrite DataView_write_app by reflexivity.
  rewrite length_app, length_le_bytes, <- app_assoc. reflexivity.
Qed.

Lemma length_wavHeader (audioBuffer : AudioBuffer) : length (wavHeader audioBuffer) = 44%nat.
Proof. reflexivity. Qed.

Lemma writeHeader_appended (audioBuffer : AudioBuffer) (n off : nat) :
  writeHeader audioBuffer (numberOfChannels audioBuffer)
    (frameCount audioBuffer * numberOfChannels audioBuffer * 2) (appended [] (44 + n) off)
  = (Ok tt, appended (wavHeader audioBuffer) n off).
Proof.
  unfold writeHeader, bind.
  change (44 + n)%nat
    with (4 + (4 + (4 + (4 + (4 + (2 + (2 + (4 + (4 + (2 + (2 + (4 + (4 + n)))))))))))))%nat.
  repeat first [rewrite setUint32_appended | rewrite setUint16_appended].
  unfold wavHeader, concat. rewrite !Nat2Z.inj_mul. rewrite <- !app_assoc, app_nil_r.
  reflexivity.
Qed.

(** ** The sample loop *)

Lemma length_frameBytes (channels : list (list number)) (p : nat) :
  length (frameBytes channels p) = (2 * length channels)%nat.
Proof.
  unfold frameBytes. induction channels as [|ch rest IH]; [reflexivity|].
  cbn [flat_map]. rewrite length_app, IH. unfold sampleBytes.
  rewrite length_le_bytes. simpl. lia.
Qed.

Lemma length_framesBytes (channels : list (list number)) (p n : nat) :
  length (framesBytes channels p n) = (2 * length channels * n)%nat.
Proof.
  unfold framesBytes. revert p; induction n as [|n IH]; intros p.
  - simpl. lia.
  - cbn [seq flat_map]. rewrite length_app, IH, length_frameBytes. lia.
Qed.

Lemma writeSample_filled (hdr d : list Z) (n p : nat) (x : number) :
  length hdr = 44%nat ->
  writeSample x (filled hdr d (2 + n) p) = (Ok tt, filled hdr (d ++ sampleBytes x) n p).
Proof.
  intros Hhdr. unfold writeSample, filled, DataView_setInt16; cbn [view pos offset].
  change (replicate (2 + n) 0) with (replicate 2 0 ++ replicate n 0).
  rewrite (app_assoc hdr d), <- Hhdr, <- length_app.
  rewrite DataView_write_app by reflexivity.
  rewrite length_app. unfold sampleBytes. rewrite length_le_bytes, <- !app_assoc.
  reflexivity.
Qed.

Lemma forChannels_filled (channels : list (list number)) (hdr d : list Z) (n p : nat) :
  length hdr = 44%nat ->
  forChannels channels (filled hdr d (2 * length channels + n) p)
  = (Ok tt, filled hdr (d ++ frameBytes channels p) n p).
Proof.
  intros Hhdr. revert d. induction channels as [|ch rest IH]; intros d.
  - simpl. unfold ret, frameBytes. simpl. now rewrite app_nil_r.
  - cbn [forChannels]. unfold bind, gets. cbn [pos filled].
    replace (2 * length (ch :: rest) + n)%nat with (2 + (2 * length rest + n))%nat
      by (simpl; lia).
    rewrite writeSample_filled by assumption. rewrite IH.
    unfold frameBytes. cbn [flat_map]. now rewrite app_assoc.
Qed.

Lemma whileFrames_filled (audioBuffer : AudioBuffer) (channels : list (list number))
    (hdr : list Z) (fuel : nat) :
  length hdr = 44%nat ->
  forall (d : list Z) (n p : nat),
    (frameCount audioBuffer - p <= fuel)%nat ->
    whileFrames fuel audioBuffer channels
      (filled hdr d (2 * length channels * (frameCount audioBuffer - p) + n) p)
    = Some (Ok tt,
            filled hdr (d ++ framesBytes channels p (frameCount audioBuffer - p)) n
              (Nat.max p (frameCount audioBuffer))).
Proof.
  intros Hhdr. induction fuel as [|fuel IH]; intros d n p Hfuel.
  - cbn [whileFrames filled pos].
    destruct (Nat.ltb_spec p (frameCount audioBuffer)); [lia|].
    replace (frameCount audioBuffer - p)%nat with 0%nat by lia.
    rewrite Nat.mul_0_r, Nat.max_l by lia. unfold framesBytes. simpl.
    now rewrite app_nil_r.
  - cbn [whileFrames]. cbn [filled pos].
    destruct (Nat.ltb_spec p (frameCount audioBuffer)) as [Hlt|Hge].
    + replace (2 * length channels * (frameCount audioBuffer - p) + n)%nat
        with (2 * length channels
              + (2 * length channels * (frameCount audioBuffer - S p) + n))%nat by nia.
      fold (filled hdr d (2 * length channels
              + (2 * length channels * (frameCount audioBuffer - S p) + n)) p).
      rewrite forChannels_filled by assumption.
      change {| view := view (filled hdr (d ++ frameBytes channels p)
                            (2 * length channels * (frameCount audioBuffer - S p) + n) p);
                pos := pos (filled hdr (d ++ frameBytes channels p)
                            (2 * length channels * (frameCount audioBuffer - S p) + n) p) + 1;
                offset := offset (filled hdr (d ++ frameBytes channels p)
                            (2 * length channels * (frameCount audioBuffer - S p) + n) p) |}
        with (filled hdr (d ++ frameBytes channels p)
                (2 * length channels * (frameCount audioBuffer - S p) + n) (p + 1)).
      replace (p + 1)%nat with (S p) by lia.
      rewrite IH by lia.
      replace (frameCount audioBuffer - p)%nat with (S (frameCount audioBuffer - S p)) by lia.
      unfold framesBytes. cbn [seq flat_map].
      rewrite <- app_assoc. do 3 f_equal. lia.
    + replace (frameCount audioBuffer - p)%nat with 0%nat by lia.
      rewrite Nat.mul_0_r, Nat.max_l by lia. unfold framesBytes. simpl.
      now rewrite app_nil_r.
Qed.

Lemma createWavBuffer_fuel_spec (audioBuffer : AudioBuffer) (fuel : nat) :
  (frameCount audioBuffer - 44 <= fuel)%nat ->
  createWavBuffer_fuel fuel audioBuffer = Some (Ok (wavBytes audioBuffer)).
Proof.
  intros Hfuel. unfold createWavBuffer_fuel, new_ArrayBuffer.
  change {| view := replicate (44 + frameCount audioBuffer * numberOfChannels audioBuffer * 2) 0;
            pos := 0; offset := 0 |}
    with (appended [] (44 + frameCount audioBuffer * numberOfChannels audioBuffer * 2) 0).
  rewrite writeHeader_appended.
  unfold appended. rewrite length_wavHeader.
  replace (frameCount audioBuffer * numberOfChannels audioBuffer * 2)%nat
    with (2 * length (channelData audioBuffer) * (frameCount audioBuffer - 44)
          + 2 * numberOfChannels audioBuffer * Nat.min 44 (frameCount audioBuffer))%nat
    by (unfold numberOfChannels; nia).
  change {| view := wavHeader audioBuffer ++ replicate ?n 0; pos := 44; offset := 0 |}
    with (filled (wavHeader audioBuffer) [] n 44).
  rewrite whileFrames_filled by (apply length_wavHeader || assumption).
  reflexivity.
Qed.

(** The loop never exhausts the fuel [createWavBuffer] gives it, and the
    writer never throws. *)
Lemma createWavBuffer_total (audioBuffer : AudioBuffer) :
  createWavBuffer audioBuffer = Ok (wavBytes audioBuffer).
Proof.
  unfold createWavBuffer. rewrite createWavBuffer_fuel_spec by lia. reflexivity.
Qed.

Lemma length_wavBytes (audioBuffer : AudioBuffer) :
  length (wavBytes audioBuffer)
  = (44 + frameCount audioBuffer * numberOfChannels audioBuffer * 2)%nat.
Proof.
  unfold wavBytes. rewrite !length_app, length_wavHeader, length_framesBytes, length_replicate.
  unfold numberOfChannels. nia.
Qed.

(** ** The 16-bit quantization *)

Section Quantization.
Local Open Scope Q_scope.

Lemma scaleSample_Num (x : Q) : scaleSample (Num x) = Num (qscale (qclamp x)).
Proof.
  unfold scaleSample, qscale, qclamp. cbn [Math_min Math_max].
  destruct (number_lt _ _); reflexivity.
Qed.

Lemma number_lt_spec (x y : Q) : reflect (x < y) (number_lt (Num x) (Num y)).
Proof.
  unfold number_lt. destruct (Qcompare x y) eqn:E; constructor.
  - apply Qeq_alt in E. rewrite E. apply Qlt_irrefl.
  - now apply Qlt_alt.
  - apply Qgt_alt in E. intros H. apply (Qlt_irrefl x). now apply Qlt_trans with y.
Qed.

Lemma qclamp_range (x : Q) : -1 <= qclamp x <= 1.
Proof.
  unfold qclamp.
  destruct (Q.max_spec (-1) (Qmin 1 x)) as [[? ->]|[? ->]],
           (Q.min_spec 1 x) as [[? E]|[? E]]; rewrite ?E in *; lra.
Qed.

Lemma qclamp_mono (x y : Q) : x <= y -> qclamp x <= qclamp y.
Proof.
  intros Hxy. unfold qclamp.
  apply Q.max_le_compat_l, Q.min_le_compat_l, Hxy.
Qed.

Lemma qclamp_low (x : Q) : x <= -1 -> qclamp x == -1.
Proof.
  intros Hx. unfold qclamp.
  rewrite (Q.min_r 1 x) by lra. now apply Q.max_l.
Qed.

Lemma qclamp_high (x : Q) : 1 <= x -> qclamp x == 1.
Proof.
  intros Hx. unfold qclamp.
  rewrite (Q.min_l 1 x) by lra. apply Q.max_r. lra.
Qed.

Lemma qscale_mono (c d : Q) : c <= d -> qscale c <= qscale d.
Proof.
  intros Hcd. unfold qscale.
  destruct (number_lt_spec c 0), (number_lt_spec d 0);
    change (inject_Z 0x8000) with 32768; change (inject_Z 0x7FFF) with 32767; lra.
Qed.

Lemma qscale_range (c : Q) : -1 <= c <= 1 -> -32768 <= qscale c <= 32767.
Proof.
  intros Hc. unfold qscale.
  destruct (number_lt_spec c 0);
    change (inject_Z 0x8000) with 32768; change (inject_Z 0x7FFF) with 32767; lra.
Qed.

(** Truncation is the floor of a non-negative and the ceiling of a negative
    rational. *)
Lemma truncate_nonneg (q : Q) : 0 <= q -> truncate q = Qfloor q.
Proof.
  destruct q as [a b]. unfold Qle; cbn [Qnum Qden]. intros Ha.
  unfold truncate, Qfloor; cbn [Qnum Qden]. apply Z.quot_div_nonneg; lia.
Qed.

Lemma truncate_neg (q : Q) : q < 0 -> truncate q = Qceiling q.
Proof.
  destruct q as [a b]. unfold Qlt; cbn [Qnum Qden]. intros Ha.
  unfold truncate, Qceiling, Qfloor, Qopp; cbn [Qnum Qden].
  rewrite <- (Z.opp_involutive a) at 1.
  rewrite Z.quot_opp_l by lia. f_equal. apply Z.quot_div_nonneg; lia.
Qed.

Lemma truncate_mono (p q : Q) : p <= q -> (truncate p <= truncate q)%Z.
Proof.
  intros Hpq.
  destruct (Qlt_le_dec p 0) as [Hp|Hp], (Qlt_le_dec q 0) as [Hq|Hq].
  - rewrite !truncate_neg by assumption. now apply Qceiling_resp_le.
  - rewrite truncate_neg, truncate_nonneg by assumption.
    transitivity 0%Z.
    + change 0%Z with (Qceiling 0). apply Qceiling_resp_le. lra.
    + change 0%Z with (Qfloor 0). now apply Qfloor_resp_le.
  - lra.
  - rewrite !truncate_nonneg by lra. now apply Qfloor_resp_le.
Qed.

Lemma truncate_Qeq (p q : Q) : p == q -> truncate p = truncate q.
Proof.
  intros E. apply Z.le_antisymm; apply truncate_mono; rewrite E; apply Qle_refl.
Qed.

Lemma truncate_inject_Z (z : Z) : truncate (inject_Z z) = z.
Proof. unfold truncate, inject_Z; cbn [Qnum Qden]. apply Z.quot_1_r. Qed.

Lemma truncate_range (s : Q) :
  -32768 <= s <= 32767 -> (-32768 <= truncate s <= 32767)%Z.
Proof.
  intros [Hlo Hhi]. split.
  - change (-32768)%Z with (truncate (-32768)). now apply truncate_mono.
  - change 32767%Z with (truncate 32767). now apply truncate_mono.
Qed.

(** In the sixteen-bit range the wrap-around of [ToInt16] is the
    identity. *)
Lemma ToInt16_small (s : Q) :
  (-32768 <= truncate s <= 32767)%Z -> ToInt16 (Num s) = truncate s.
Proof.
  intros Ht. unfold ToInt16, ToUint16.
  change (2 ^ 16)%Z with 65536%Z. change (2 ^ 15)%Z with 32768%Z.
  destruct (Z.ltb_spec (truncate s mod 65536) 32768) as [Hu|Hu].
  - destruct (Z.lt_ge_cases (truncate s) 0) as [Hneg|Hpos].
    + rewrite <- (Z.mod_add _ 1) in Hu by lia. rewrite Z.mod_small in Hu; lia.
    + apply Z.mod_small. lia.
  - destruct (Z.lt_ge_cases (truncate s) 0) as [Hneg|Hpos].
    + rewrite <- (Z.mod_add _ 1) by lia. rewrite Z.mod_small; lia.
    + rewrite Z.mod_small in Hu; lia.
Qed.

Lemma quantize_Num (x : Q) : quantize (Num x) = truncate (qscale (qclamp x)).
Proof.
  unfold quantize. rewrite scaleSample_Num.
  apply ToInt16_small, truncate_range, qscale_range, qclamp_range.
Qed.

End Quantization.

(** [NaN] samples (lines 118-120 leave them [NaN]) are stored as 0. *)
Lemma quantize_NaN : quantize NaN = 0.
Proof. reflexivity. Qed.


(** ** Where each sample lands in the data section *)

Lemma DataView_read_block {A : Type} (g : A -> list Z) (k : nat) (l : list A)
    (post : list Z) (i j n : nat) (x : A) :
  (forall y, length (g y) = k) ->
  l !! i = Some x ->
  (j + n <= k)%nat ->
  DataView_read (flat_map g l ++ post) (i * k + j) n = DataView_read (g x) j n.
Proof.
  intros Hk Hx Hj.
  assert (Hsplit : l = take i l ++ x :: drop (S i) l)
    by (symmetry; now apply take_drop_middle).
  rewrite Hsplit at 1. rewrite flat_map_app. cbn [flat_map]. rewrite <- !app_assoc.
  assert (Hpre : length (flat_map g (take i l)) = (i * k)%nat).
  { assert (Hi : (i < length l)%nat) by (eapply lookup_lt_Some; eauto).
    assert (Hlen : length (take i l) = i) by (rewrite length_take; lia).
    revert Hlen. generalize (take i l). clear - Hk.
    intros l'. revert i. induction l' as [|y l' IH]; intros i Hlen; simpl in Hlen; subst i.
    - reflexivity.
    - cbn [flat_map]. rewrite length_app, Hk, (IH (length l')) by reflexivity. simpl. lia. }
  rewrite (DataView_read_skip _ _ (i * k)) by (assumption || lia).
  replace (i * k + j - i * k)%nat with j by lia.
  unfold DataView_read. rewrite length_app, Hk.
  destruct (Nat.leb_spec (j + n) (k + length (flat_map g (drop (S i) l) ++ post))),
           (Nat.leb_spec (j + n) k); try lia.
  f_equal. rewrite drop_app_le by (rewrite Hk; lia).
  rewrite take_app_le by (rewrite length_drop, Hk; lia). reflexivity.
Qed.

Lemma ToUint16_range (x : number) : 0 <= ToUint16 x < 2 ^ 16.
Proof.
  destruct x as [q|]; unfold ToUint16.
  - apply Z.mod_pos_bound. reflexivity.
  - split; [lia | reflexivity].
Qed.

(** Reading a sample back with [getInt16] gives its quantization. *)
Lemma getInt16_sampleBytes (x : number) :
  DataView_getInt16 (sampleBytes x) 0 = Some (quantize x).
Proof.
  unfold DataView_getInt16, DataView_getUint16, sampleBytes.
  rewrite <- (app_nil_r (le_bytes 2 _)).
  rewrite DataView_read_here by reflexivity.
  cbn [fmap option_fmap option_map]. rewrite le_value_le_bytes_small.
  - reflexivity.
  - apply ToUint16_range.
Qed.

Lemma DataView_getInt16_read (v w : ArrayBuffer) (o p : nat) :
  DataView_read v o 2 = DataView_read w p 2 ->
  DataView_getInt16 v o = DataView_getInt16 w p.
Proof. intros E. unfold DataView_getInt16, DataView_getUint16. now rewrite E. Qed.

(** The sample of channel [c] that the writer stores in output frame [f] is
    the one of source frame [f + 44]. *)
Lemma createWavBuffer_data_shifted (audioBuffer : AudioBuffer) (f c : nat) (ch : list number) :
  channelData audioBuffer !! c = Some ch ->
  (f + 44 < frameCount audioBuffer)%nat ->
  DataView_getInt16 (wavBytes audioBuffer) (44 + 2 * (f * numberOfChannels audioBuffer + c))
  = Some (quantize (sampleAt ch (f + 44))).
Proof.
  intros Hch Hf. rewrite <- getInt16_sampleBytes.
  apply DataView_getInt16_read. unfold wavBytes.
  rewrite (DataView_read_skip _ _ 44) by (apply length_wavHeader || lia).
  replace (44 + 2 * (f * numberOfChannels audioBuffer + c) - 44)%nat
    with (f * (2 * numberOfChannels audioBuffer) + c * 2)%nat by lia.
  unfold framesBytes.
  rewrite (DataView_read_block _ (2 * numberOfChannels audioBuffer) _ _ f (c * 2) 2 (44 + f)%nat).
  - unfold frameBytes.
    rewrite <- (app_nil_r (flat_map _ (channelData audioBuffer))).
    replace (c * 2)%nat with (c * 2 + 0)%nat by lia.
    rewrite (DataView_read_block _ 2 _ _ c 0 2 ch); try assumption; try lia.
    + now rewrite Nat.add_comm.
    + intros y. unfold sampleBytes. apply length_le_bytes.
  - intros y. apply length_frameBytes.
  - apply lookup_seq. lia.
  - assert (c < numberOfChannels audioBuffer)%nat
      by (unfold numberOfChannels; eapply lookup_lt_Some; eauto).
    lia.
Qed.

(** The last 44 output frames (all of them when the buffer has at most 44
    frames) are never written and stay zero. *)
Lemma createWavBuffer_data_tail (audioBuffer : AudioBuffer) (f c : nat) :
  (c < numberOfChannels audioBuffer)%nat ->
  (frameCount audioBuffer - 44 <= f < frameCount audioBuffer)%nat ->
  DataView_getInt16 (wavBytes audioBuffer) (44 + 2 * (f * numberOfChannels audioBuffer + c))
  = Some 0.
Proof.
  intros Hc Hf. unfold DataView_getInt16, DataView_getUint16, wavBytes.
  rewrite (DataView_read_skip _ _ 44) by (apply length_wavHeader || lia).
  rewrite (DataView_read_skip _ _
             (2 * numberOfChannels audioBuffer * (frameCount audioBuffer - 44)))
    by (rewrite ?length_framesBytes; unfold numberOfChannels; nia).
  unfold DataView_read. rewrite length_replicate.
  match goal with |- context [Nat.leb ?a ?b] => destruct (Nat.leb_spec a b) as [Hle|Hgt] end.
  - rewrite drop_replicate, take_replicate.
    match goal with |- context [replicate ?n 0] => replace n with 2%nat by nia end.
    reflexivity.
  - exfalso. nia.
Qed.

(** ** The interleaving of the FLAC path

    The loop of lines 215-224 stores the quantized sample of frame [f] of
    channel [c] at index [f * numChannels + c], for every frame from 0 on. *)

Lemma length_interleaveChannel (numChannels len : nat) (sampleData : list Z) (channel : nat)
    (channelData : list number) :
  length (interleaveChannel numChannels len sampleData channel channelData)
  = length sampleData.
Proof.
  unfold interleaveChannel. induction len as [|len IH]; [reflexivity|].
  rewrite seq_S, foldl_app. cbn [foldl]. now rewrite length_insert.
Qed.

Lemma interleaveChannel_lookup (numChannels len : nat) (sampleData : list Z) (channel : nat)
    (channelData : list number) (j : nat) :
  (channel < numChannels)%nat ->
  interleaveChannel numChannels len sampleData channel channelData !! j
  = if decide ((j mod numChannels = channel /\ j / numChannels < len
                /\ j < length sampleData)%nat)
    then Some (quantize (sampleAt channelData (j / numChannels)%nat))
    else sampleData !! j.
Proof.
  intros Hc. induction len as [|len IH].
  - cbn. case_decide; [lia | reflexivity].
  - unfold interleaveChannel in *. rewrite seq_S, foldl_app. cbn [foldl].
    rewrite Nat.add_0_l.
    pose proof (length_interleaveChannel numChannels len sampleData channel channelData)
      as Hlen. unfold interleaveChannel in Hlen.
    pose proof (Nat.div_mod_eq j numChannels) as Hj.
    pose proof (Nat.mod_upper_bound j numChannels ltac:(lia)) as Hm.
    destruct (Nat.eq_dec j (len * numChannels + channel)%nat) as [->|Hne].
    + assert (Hmod : ((len * numChannels + channel) mod numChannels = channel)%nat)
        by (rewrite Nat.add_comm, Nat.Div0.mod_add; now apply Nat.mod_small).
      assert (Hdiv : ((len * numChannels + channel) / numChannels = len)%nat)
        by (symmetry; apply (Nat.div_unique _ _ _ channel); lia).
      rewrite Hmod, Hdiv.
      destruct (Nat.lt_ge_cases (len * numChannels + channel)%nat (length sampleData))
        as [Hlt|Hge].
      * rewrite list_lookup_insert_eq by lia. clear IH.
        case_decide as Hn; [reflexivity|]. exfalso. apply Hn. lia.
      * rewrite list_insert_ge by lia. rewrite IH, Hmod, Hdiv. clear IH.
        repeat case_decide; try lia; reflexivity.
    + rewrite list_lookup_insert_ne by congruence. rewrite IH. clear IH.
      assert (Hdiff : (j mod numChannels = channel -> j / numChannels <> len)%nat)
        by (intros H4 E; apply Hne; rewrite <- E, <- H4; lia).
      repeat case_decide; try reflexivity; exfalso; intuition lia.
Qed.

Lemma length_interleaveChannels (numChannels len : nat) (l : list (nat * list number))
    (init : list Z) :
  length (foldl (fun sampleData '(channel, channelData) =>
                   interleaveChannel numChannels len sampleData channel channelData)
                init l)
  = length init.
Proof.
  revert init. induction l as [|[c cd] l IH]; intros init; [reflexivity|].
  cbn [foldl]. now rewrite IH, length_interleaveChannel.
Qed.

Lemma interleaveChannels_lookup (numChannels len : nat) (channels : list (list number))
    (k j : nat) :
  (k <= length channels)%nat ->
  (length channels <= numChannels)%nat ->
  (j < len * numChannels)%nat ->
  foldl (fun sampleData '(channel, channelData) =>
           interleaveChannel numChannels len sampleData channel channelData)
        (replicate (len * numChannels) 0) (imap pair (take k channels)) !! j
  = if decide (j mod numChannels < k)%nat
    then Some (quantize (sampleAt (default [] (channels !! (j mod numChannels)%nat))
                           (j / numChannels)%nat))
    else Some 0.
Proof.
  intros Hk Hn Hj. induction k as [|k IH].
  - rewrite take_0. cbn. rewrite lookup_replicate_2 by assumption.
    case_decide; [lia | reflexivity].
  - destruct (lookup_lt_is_Some_2 channels k ltac:(lia)) as [ch Hch].
    rewrite (take_S_r _ _ _ Hch), imap_app, foldl_app. cbn [imap foldl].
    rewrite length_take, Nat.min_l, Nat.add_0_r by lia.
    rewrite interleaveChannel_lookup by lia.
    rewrite IH by lia. clear IH.
    assert (Hdiv : (j / numChannels < len)%nat)
      by (apply Nat.Div0.div_lt_upper_bound; lia).
    rewrite length_interleaveChannels, length_replicate.
    repeat case_decide; try reflexivity; try (exfalso; intuition lia).
    destruct H as (Hm & _). rewrite Hm, Hch. reflexivity.
Qed.

(** X7. In the sample array of the FLAC path the entry at index
    f*channels + c is the quantization of the sample of channel [c] at frame
    [f], for every frame from 0 to frameCount-1. *)
Lemma interleave_frame_channel (audioBuffer : AudioBuffer) (f c : nat) (ch : list number) :
  channelData audioBuffer !! c = Some ch ->
  (f < frameCount audioBuffer)%nat ->
  interleave audioBuffer !! (f * numberOfChannels audioBuffer + c)%nat
  = Some (quantize (sampleAt ch f)).
Proof.
  intros Hch Hf. unfold interleave.
  assert (Hc : (c < numberOfChannels audioBuffer)%nat)
    by (unfold numberOfChannels; eapply lookup_lt_Some; eauto).
  rewrite <- (firstn_all (channelData audioBuffer)) at 1.
  fold (numberOfChannels audioBuffer).
  rewrite interleaveChannels_lookup by (unfold numberOfChannels in *; nia).
  assert (Hmod : ((f * numberOfChannels audioBuffer + c) mod numberOfChannels audioBuffer = c)%nat)
    by (rewrite Nat.add_comm, Nat.Div0.mod_add; now apply Nat.mod_small).
  assert (Hdiv : ((f * numberOfChannels audioBuffer + c) / numberOfChannels audioBuffer = f)%nat)
    by (symmetry; apply (Nat.div_unique _ _ _ c); lia).
  rewrite Hmod, Hdiv, Hch. case_decide; [reflexivity | lia].
Qed.

(** * Main results on the WAV writer and the quantization *)

(** C3. The 16-bit quantization shared by the WAV writer and the FLAC path
    (clamp to [-1,1], scale negative samples by 32768 and the others by
    32767, truncate) is monotone non-decreasing on every rational input, has
    all its values in [-32768, 32767], and saturates exactly: inputs at or
    below -1 give -32768 and inputs at or above 1 give 32767. *)
Theorem quantize_monotone_bounded_saturating :
  (forall x y : Q, (x <= y)%Q -> quantize (Num x) <= quantize (Num y)) /\
  (forall x : Q, -32768 <= quantize (Num x) <= 32767) /\
  (forall x : Q, (x <= -1)%Q -> quantize (Num x) = -32768) /\
  (forall x : Q, (1 <= x)%Q -> quantize (Num x) = 32767).
Proof.
  split; [|split; [|split]].
  - intros x y Hxy. rewrite !quantize_Num.
    now apply truncate_mono, qscale_mono, qclamp_mono.
  - intros x. rewrite quantize_Num.
    apply truncate_range, qscale_range, qclamp_range.
  - intros x Hx. rewrite quantize_Num.
    change (-32768) with (truncate (qscale (-1))).
    apply truncate_Qeq. pose proof (qclamp_low x Hx) as E.
    unfold qscale.
    destruct (number_lt_spec (qclamp x) 0) as [_|Hn]; [|lra].
    destruct (number_lt_spec (-1) 0) as [_|Hn]; [|lra].
    now rewrite E.
  - intros x Hx. rewrite quantize_Num.
    change 32767 with (truncate (qscale 1)).
    apply truncate_Qeq. pose proof (qclamp_high x Hx) as E.
    unfold qscale.
    destruct (number_lt_spec (qclamp x) 0) as [Hn|_]; [lra|].
    destruct (number_lt_spec 1 0) as [Hn|_]; [lra|].
    now rewrite E.
Qed.

Lemma quantize_monotone_bounded_saturating_witness :
  quantize (Num (-1 # 3)) <= quantize (Num (1 # 2)) /\
  quantize (Num (-3 # 2)) = -32768 /\
  quantize (Num 7) = 32767.
Proof.
  destruct quantize_monotone_bounded_saturating as (Hmono & _ & Hlow & Hhigh).
  split; [|split].
  - apply Hmono. unfold Qle; simpl; lia.
  - apply Hlow. unfold Qle; simpl; lia.
  - apply Hhigh. unfold Qle; simpl; lia.
Defined.

(** C2. For a decoded buffer whose channel count, sample rate, byte rate and
    data length fit the header fields that hold them, the writer returns a
    buffer of 44 + frameCount*channels*2 bytes whose first 44 bytes are a
    little-endian PCM WAV header: tags RIFF, WAVE, fmt and data, format tag
    1, 16 bits per sample, block align channels*2, byte rate
    sampleRate*channels*2, data length frameCount*channels*2, and the
    channel count and sample rate of the buffer. *)
Theorem createWavBuffer_header (audioBuffer : AudioBuffer) :
  let channels := Z.of_nat (numberOfChannels audioBuffer) in
  let frames := Z.of_nat (frameCount audioBuffer) in
  channels * 2 < 2 ^ 16 ->
  0 <= sampleRate audioBuffer < 2 ^ 32 ->
  sampleRate audioBuffer * channels * 2 < 2 ^ 32 ->
  frames * channels * 2 < 2 ^ 32 ->
  exists wav : ArrayBuffer,
    createWavBuffer audioBuffer = Ok wav /\
    Z.of_nat (length wav) = 44 + frames * channels * 2 /\
    DataView_read wav 0 4 = Some (ascii_bytes "RIFF") /\
    DataView_read wav 8 4 = Some (ascii_bytes "WAVE") /\
    DataView_read wav 12 4 = Some (ascii_bytes "fmt ") /\
    DataView_read wav 36 4 = Some (ascii_bytes "data") /\
    DataView_getUint16 wav 20 = Some 1 /\
    DataView_getUint16 wav 34 = Some 16 /\
    DataView_getUint16 wav 32 = Some (channels * 2) /\
    DataView_getUint32 wav 28 = Some (sampleRate audioBuffer * channels * 2) /\
    DataView_getUint32 wav 40 = Some (frames * channels * 2) /\
    DataView_getUint16 wav 22 = Some channels /\
    DataView_getUint32 wav 24 = Some (sampleRate audioBuffer).
Proof.
  intros channels frames Hchan Hrate Hbyte Hlen.
  exists (wavBytes audioBuffer). split; [apply createWavBuffer_total|].
  split; [rewrite length_wavBytes; subst channels frames; lia|].
  assert (Hc0 : 0 <= channels) by (subst channels; lia).
  assert (Hf0 : 0 <= frames) by (subst frames; lia).
  unfold wavBytes, wavHeader, concat.
  fold channels. fold frames.
  rewrite <- !app_assoc, app_nil_l.
  unfold DataView_getUint16, DataView_getUint32.
  repeat split;
    repeat (erewrite DataView_read_skip; [ | reflexivity | simpl; lia ]);
    cbn [Nat.sub]; (erewrite DataView_read_here; [ | reflexivity ]);
    try reflexivity;
    cbn [fmap option_fmap option_map]; f_equal;
    unfold ToUint32; rewrite le_value_le_bytes; change (256 ^ Z.of_nat 2) with (2 ^ 16);
    change (256 ^ Z.of_nat 4) with (2 ^ 32);
    rewrite ?Zmod_mod; try reflexivity; rewrite Z.mod_small by nia; lia.
Qed.

Lemma createWavBuffer_header_witness :
  exists wav : ArrayBuffer,
    createWavBuffer stereo2 = Ok wav /\
    Z.of_nat (length wav) = 44 + 2 * 2 * 2 /\
    DataView_read wav 0 4 = Some (ascii_bytes "RIFF") /\
    DataView_read wav 8 4 = Some (ascii_bytes "WAVE") /\
    DataView_read wav 12 4 = Some (ascii_bytes "fmt ") /\
    DataView_read wav 36 4 = Some (ascii_bytes "data") /\
    DataView_getUint16 wav 20 = Some 1 /\
    DataView_getUint16 wav 34 = Some 16 /\
    DataView_getUint16 wav 32 = Some (2 * 2) /\
    DataView_getUint32 wav 28 = Some (48000 * 2 * 2) /\
    DataView_getUint32 wav 40 = Some (2 * 2 * 2) /\
    DataView_getUint16 wav 22 = Some 2 /\
    DataView_getUint32 wav 24 = Some 48000.
Proof.
  apply (createWavBuffer_header stereo2); vm_compute;
    first [reflexivity | split; [discriminate | reflexivity]].
Defined.

(** C1. The data section should hold, at byte offset
    44 + 2*(frame*channels + channel), the quantization of the source sample
    of that channel at that frame.  The writer does not do so: on the
    45-frame mono buffer [mono45] the value at offset 44 + 2*(0*1 + 0) should
    be the quantization of frame 0, which is 32767, but the writer stores
    the quantization of frame 44, which is -32768, and it leaves output
    frame 44 at 0. *)
Theorem createWavBuffer_skips_first_frames :
  exists (wav : ArrayBuffer) (ch : list number),
    createWavBuffer mono45 = Ok wav /\
    channelData mono45 = [ch] /\
    quantize (sampleAt ch 0) = 32767 /\
    quantize (sampleAt ch 44) = -32768 /\
    DataView_getInt16 wav (44 + 2 * (0 * 1 + 0)) = Some (-32768) /\
    DataView_getInt16 wav (44 + 2 * (44 * 1 + 0)) = Some 0.
Proof.
  exists (wavBytes mono45). eexists.
  split; [apply createWavBuffer_total|].
  split; [reflexivity|].
  repeat split; vm_compute; reflexivity.
Qed.

(** * Properties of the component *)

(** Unfold the monadic plumbing of a run. *)
Ltac run :=
  cbv beta iota delta
    [bind ret throw lift gets modify log try_catch try_finally
     setIsRecording setVideoRecorded setAudioRecorded setErrorMessage setFlacLoaded
     setIsUsingFallbackAudio setVideoURL setAudioURL setVideoMimeType setAudioMimeType
     setIsConverting isTypeSupported createObjectURL].

(** ** Container negotiation *)

Lemma with_calls_nil (w : World) : with_calls (calls w ++ []) w = w.
Proof. destruct w. unfold with_calls. cbn. now rewrite app_nil_r. Qed.

Lemma with_calls_app (w : World) (l1 l2 : list Call) :
  with_calls (calls (with_calls (calls w ++ l1) w) ++ l2) (with_calls (calls w ++ l1) w)
  = with_calls (calls w ++ l1 ++ l2) w.
Proof. unfold with_calls. cbn. now rewrite <- app_assoc. Qed.

(** Probing for the video type: the candidates up to the first supported one
    are asked about, and that one, if any, is selected. *)
Lemma probeTypes_video (br : Browser) (types : list string) (w : World) :
  let supported := MediaRecorder_isTypeSupported br in
  let w1 := with_calls (calls w ++ map isTypeSupported_call (probed supported types)) w in
  probeTypes br setVideoMimeType types w
  = (Ok tt, match find supported types with
            | Some type => with_videoMimeType type w1
            | None => w1
            end).
Proof.
  intros supported. revert w. induction types as [|type rest IH]; intros w.
  - cbn. unfold ret. now rewrite with_calls_nil.
  - cbn [probeTypes probed find map]. run.
    fold supported. destruct (supported type) eqn:Hs.
    + reflexivity.
    + rewrite IH. fold supported. cbv zeta.
      rewrite with_calls_app. reflexivity.
Qed.

Lemma probeTypes_audio (br : Browser) (types : list string) (w : World) :
  let supported := MediaRecorder_isTypeSupported br in
  let w1 := with_calls (calls w ++ map isTypeSupported_call (probed supported types)) w in
  probeTypes br setAudioMimeType types w
  = (Ok tt, match find supported types with
            | Some type => with_audioMimeType type w1
            | None => w1
            end).
Proof.
  intros supported. revert w. induction types as [|type rest IH]; intros w.
  - cbn. unfold ret. now rewrite with_calls_nil.
  - cbn [probeTypes probed find map]. run.
    fold supported. destruct (supported type) eqn:Hs.
    + reflexivity.
    + rewrite IH. fold supported. cbv zeta.
      rewrite with_calls_app. reflexivity.
Qed.

(** Negotiation never throws; it only touches the two selected types and the
    trace of calls. *)
Lemma negotiate_run (br : Browser) (w : World) :
  let supported := MediaRecorder_isTypeSupported br in
  exists w' : World,
    negotiate br w = (Ok tt, w') /\
    videoMimeType w' = default (videoMimeType w) (find supported videoTypes) /\
    audioMimeType w' = default (audioMimeType w) (find supported audioTypes) /\
    calls w' = calls w ++ map isTypeSupported_call
                           (probed supported videoTypes ++ probed supported audioTypes) /\
    flacLoaded w' = flacLoaded w /\
    isUsingFallbackAudio w' = isUsingFallbackAudio w /\
    streamRef w' = streamRef w /\
    errorMessage w' = errorMessage w.
Proof.
  intros supported. unfold negotiate, bind.
  rewrite probeTypes_video, probeTypes_audio. fold supported.
  eexists. split; [reflexivity|].
  rewrite map_app, app_assoc.
  destruct (find supported videoTypes), (find supported audioTypes); cbn; repeat split.
Qed.

(** ** Stopping *)

Lemma stop_run (br : Browser) (r : nat) (w : World) :
  stop br r w
  = match MediaRecorder_stop br r with
    | Some err => (Throw err, with_calls (calls w ++ [stop_call r]) w)
    | None =>
        (Ok tt,
         with_recorders (alter (set_state inactive) r (recorders w))
           (with_calls (calls w ++ [stop_call r]) w))
    end.
Proof. unfold stop. run. destruct (MediaRecorder_stop br r); reflexivity. Qed.

Lemma stopIfRecording_run (br : Browser) (ref : World -> option nat) (w : World) :
  stopIfRecording br ref w
  = match ref w with
    | Some r => if isActive (Some r) w then stop br r w else (Ok tt, w)
    | None => (Ok tt, w)
    end.
Proof.
  unfold stopIfRecording. run.
  destruct (ref w) as [r|]; [|reflexivity]. destruct (isActive (Some r) w); reflexivity.
Qed.

(** Whether a reference is active depends on the recorders only. *)
Lemma isActive_recorders (ref : option nat) (w w0 : World) :
  recorders w0 = recorders w -> isActive ref w0 = isActive ref w.
Proof. intros E. unfold isActive, recorder_state. now rewrite E. Qed.

(** Stopping recorder [r] deactivates it and leaves the others alone. *)
Lemma isActive_stopped (ref : option nat) (r : nat) (w w0 : World) :
  recorders w0 = alter (set_state inactive) r (recorders w) ->
  isActive ref w0 = isActive ref w && negb (bool_decide (ref = Some r)).
Proof.
  intros E. unfold isActive, recorder_state. rewrite E.
  destruct ref as [r'|]; [|reflexivity].
  destruct (decide (r' = r)) as [->|Hne].
  - rewrite list_lookup_alter_eq, bool_decide_true by reflexivity.
    destruct (recorders w !! r); cbn; [|reflexivity]. now rewrite andb_false_r.
  - rewrite list_lookup_alter_ne by congruence.
    rewrite bool_decide_false by congruence. now rewrite andb_true_r.
Qed.

Lemma stopRecording_stopped (br : Browser) (w : World) :
  stopped w -> stopRecording br w = (Ok tt, with_isRecording false w).
Proof.
  intros [Hv Ha]. unfold stopRecording.
  cbv beta iota delta [try_catch bind].
  rewrite (stopIfRecording_run br mediaRecorderRef w).
  destruct (mediaRecorderRef w) as [r1|]; rewrite ?Hv;
    rewrite (stopIfRecording_run br audioRecorderRef w);
    destruct (audioRecorderRef w) as [r2|]; rewrite ?Ha; reflexivity.
Qed.

(** ** Audio conversion *)

Lemma createWavFromAudio_run (br : Browser) (audioBlob : Blob) (w : World) :
  createWavFromAudio br audioBlob w
  = (wavSynthesis br audioBlob (decodeCalls w), with_decodeCalls (S (decodeCalls w)) w).
Proof.
  unfold createWavFromAudio, decode, wavSynthesis. run.
  destruct (decodeAudioData br (decodeCalls w) audioBlob) as [ab|e]; [|reflexivity].
  destruct (createWavBuffer ab); reflexivity.
Qed.

(** WAV synthesis succeeds whenever the decode does. *)
Lemma wavSynthesis_decoded (br : Browser) (audioBlob : Blob) (n : nat) (ab : AudioBuffer) :
  decodeAudioData br n audioBlob = Ok ab ->
  wavSynthesis br audioBlob n = Ok {| blob_bytes := wavBytes ab; blob_type := "audio/wav" |}.
Proof. intros H. unfold wavSynthesis. now rewrite H, createWavBuffer_total. Qed.

(** The encoder calls do not touch the component. *)
Lemma encodeFlac_world (flac : Flac) (ab : AudioBuffer) (sampleData : list Z) (w : World) :
  snd (encodeFlac flac ab sampleData w) = w.
Proof.
  unfold encodeFlac. run.
  destruct (create_libflac_encoder _ _ _ _ _ _ _) as [h|e]; [|reflexivity].
  destruct (h =? 0); [reflexivity|].
  destruct (setEncodeCallback flac h) as [[]|e]; [|reflexivity].
  destruct (FLAC__stream_encoder_process_interleaved flac h sampleData _) as [p|e];
    [|reflexivity].
  destruct (FLAC__stream_encoder_finish flac h) as [f|e]; [|reflexivity].
  destruct (FLAC__stream_encoder_delete flac h) as [[]|e]; reflexivity.
Qed.

(** A zero handle is turned into an exception (lines 244-246). *)
Lemma encodeFlac_zero_handle (flac : Flac) (ab : AudioBuffer) (sampleData : list Z)
    (w : World) :
  create_libflac_encoder flac (sampleRate ab) (numberOfChannels ab) 16 5 0 true = Ok 0 ->
  encodeFlac flac ab sampleData w = (Throw (new_Error "Failed to create FLAC encoder"), w).
Proof. intros H. unfold encodeFlac. run. now rewrite H. Qed.

(** The run of [convertToFlac] in each configuration of the library. *)
Lemma convertToFlac_no_library (br : Browser) (cl : Closure) (audioBlob : Blob) (w : World) :
  window_Flac br = None \/ cl_flacLoaded cl = false ->
  convertToFlac br cl audioBlob w
  = (wavSynthesis br audioBlob (decodeCalls w),
     with_decodeCalls (S (decodeCalls w)) (with_isUsingFallbackAudio true w)).
Proof.
  intros H. unfold convertToFlac, convertToFlac_try.
  destruct (window_Flac br) as [flac|], (cl_flacLoaded cl);
    try (destruct H; discriminate); run; now rewrite createWavFromAudio_run.
Qed.

Lemma convertToFlac_library (br : Browser) (cl : Closure) (audioBlob : Blob) (w : World)
    (flac : Flac) :
  window_Flac br = Some flac ->
  cl_flacLoaded cl = true ->
  let w1 := with_decodeCalls (S (decodeCalls w)) w in
  let fallback :=
    (wavSynthesis br audioBlob (S (decodeCalls w)),
     with_decodeCalls (S (S (decodeCalls w))) (with_isUsingFallbackAudio true w1)) in
  convertToFlac br cl audioBlob w
  = match decodeAudioData br (decodeCalls w) audioBlob with
    | Throw _ => fallback
    | Ok ab =>
        if has_create_libflac_encoder flac then
          match fst (encodeFlac flac ab (interleave ab) w1) with
          | Ok flacBlob => (Ok flacBlob, w1)
          | Throw _ => fallback
          end
        else fallback
    end.
Proof.
  intros Hflac Hloaded w1 fallback. unfold convertToFlac, convertToFlac_try.
  rewrite Hflac, Hloaded. unfold decode. run. fold w1.
  destruct (decodeAudioData br (decodeCalls w) audioBlob) as [ab|e].
  - destruct (has_create_libflac_encoder flac); cbn [negb].
    + pose proof (encodeFlac_world flac ab (interleave ab) w1) as Hw.
      destruct (encodeFlac flac ab (interleave ab) w1) as [[b|e] w2]; cbn in Hw; subst w2;
        cbn [fst]; [reflexivity|].
      now rewrite createWavFromAudio_run.
    + now rewrite createWavFromAudio_run.
  - now rewrite createWavFromAudio_run.
Qed.

(** When the encoder cannot be used the conversion is the WAV synthesis, with
    the fallback flag set. *)
Lemma convertToFlac_fallback (br : Browser) (cl : Closure) (audioBlob : Blob) (w : World) :
  flac_unavailable br cl audioBlob w ->
  exists (n : nat) (w' : World),
    convertToFlac br cl audioBlob w = (wavSynthesis br audioBlob n, w') /\
    isUsingFallbackAudio w' = true /\
    objectURLs w' = objectURLs w /\
    audioRecorded w' = audioRecorded w /\
    (n = decodeCalls w \/ n = S (decodeCalls w)).
Proof.
  intros Hun.
  destruct (window_Flac br) as [flac|] eqn:Hflac;
    [destruct (cl_flacLoaded cl) eqn:Hloaded|].
  - rewrite (convertToFlac_library br cl audioBlob w flac Hflac Hloaded).
    assert (Hfb : exists (n : nat) (w' : World),
               (wavSynthesis br audioBlob (S (decodeCalls w)),
                with_decodeCalls (S (S (decodeCalls w)))
                  (with_isUsingFallbackAudio true
                     (with_decodeCalls (S (decodeCalls w)) w)))
               = (wavSynthesis br audioBlob n, w') /\
               isUsingFallbackAudio w' = true /\
               objectURLs w' = objectURLs w /\
               audioRecorded w' = audioRecorded w /\
               (n = decodeCalls w \/ n = S (decodeCalls w)))
      by (eexists _, _; split; [reflexivity|]; repeat split; auto).
    destruct (decodeAudioData br (decodeCalls w) audioBlob) as [ab|e] eqn:Hdec; [|exact Hfb].
    destruct (has_create_libflac_encoder flac) eqn:Hcreate; [|exact Hfb].
    destruct Hun as [H|[H|[(f & Hf & H)|[(f & ab' & Hf & Hd & Hz)|(err & w1 & Htry)]]]].
    + congruence.
    + congruence.
    + congruence.
    + assert (f = flac) by congruence. subst f.
      assert (ab' = ab) by congruence. subst ab'.
      rewrite encodeFlac_zero_handle by assumption. exact Hfb.
    + unfold convertToFlac_try in Htry. rewrite Hflac, Hloaded in Htry.
      unfold decode in Htry. revert Htry. run. rewrite Hdec, Hcreate. cbn [negb].
      destruct (encodeFlac flac ab (interleave ab) _) as [[b|e] w2]; cbn [fst].
      * discriminate.
      * intros _. exact Hfb.
  - rewrite convertToFlac_no_library by auto.
    eexists _, _. split; [reflexivity|]. repeat split; auto.
  - rewrite convertToFlac_no_library by auto.
    eexists _, _. split; [reflexivity|]. repeat split; auto.
Qed.

(** When the library is there and every encoder call succeeds, the result is
    the FLAC blob and the fallback flag is left alone. *)
Lemma convertToFlac_encodes (br : Browser) (cl : Closure) (audioBlob : Blob) (w : World)
    (flac : Flac) (ab : AudioBuffer) (flacBlob : Blob) :
  window_Flac br = Some flac ->
  cl_flacLoaded cl = true ->
  decodeAudioData br (decodeCalls w) audioBlob = Ok ab ->
  has_create_libflac_encoder flac = true ->
  fst (encodeFlac flac ab (interleave ab) (with_decodeCalls (S (decodeCalls w)) w))
    = Ok flacBlob ->
  convertToFlac br cl audioBlob w = (Ok flacBlob, with_decodeCalls (S (decodeCalls w)) w).
Proof.
  intros Hflac Hloaded Hdec Hcreate Henc.
  rewrite (convertToFlac_library br cl audioBlob w flac Hflac Hloaded).
  now rewrite Hdec, Hcreate, Henc.
Qed.

(** The bootstrap of lines 293-302. *)
Lemma tryLoadFlacEncoder_rejected (br : Browser) (w : World) (err : Error) :
  loadFlacEncoder br = Throw err ->
  tryLoadFlacEncoder br w = (Ok tt, with_isUsingFallbackAudio true w).
Proof. intros H. unfold tryLoadFlacEncoder. run. now rewrite H. Qed.

Lemma setupCamera_rejected (br : Browser) (w : World) (err : Error) :
  loadFlacEncoder br = Throw err ->
  fst (setupCamera br w) = Ok tt /\
  flacLoaded (snd (setupCamera br w)) = flacLoaded w /\
  isUsingFallbackAudio (snd (setupCamera br w)) = true.
Proof.
  intros H. unfold setupCamera.
  cbv beta iota delta [try_catch bind].
  rewrite (tryLoadFlacEncoder_rejected br w err H).
  destruct (negotiate_run br (with_isUsingFallbackAudio true w))
    as (w' & -> & _ & _ & _ & Hl & Hf & _).
  run. destruct (getUserMedia br) as [s|e]; [cbn; auto|].
  destruct (String.eqb (name e) "NotAllowedError");
    [|destruct (String.eqb (name e) "NotFoundError")]; cbn; auto.
Qed.

(** The outcome of the encoder calls does not depend on the component. *)
Lemma encodeFlac_pure (flac : Flac) (ab : AudioBuffer) (sampleData : list Z) (w w0 : World) :
  fst (encodeFlac flac ab sampleData w) = fst (encodeFlac flac ab sampleData w0).
Proof.
  unfold encodeFlac. run.
  destruct (create_libflac_encoder _ _ _ _ _ _ _) as [h|e]; [|reflexivity].
  destruct (h =? 0); [reflexivity|].
  destruct (setEncodeCallback flac h) as [[]|e]; [|reflexivity].
  destruct (FLAC__stream_encoder_process_interleaved flac h sampleData _) as [p|e];
    [|reflexivity].
  destruct (FLAC__stream_encoder_finish flac h) as [f|e]; [|reflexivity].
  destruct (FLAC__stream_encoder_delete flac h) as [[]|e]; reflexivity.
Qed.

(** Whether the [try] block throws depends on the world only through the
    count of earlier decodes. *)
Lemma convertToFlac_try_throws (br : Browser) (cl : Closure) (audioBlob : Blob)
    (w w0 : World) (err : Error) (w1 : World) :
  decodeCalls w0 = decodeCalls w ->
  convertToFlac_try br cl audioBlob w = (Throw err, w1) ->
  exists w2, convertToFlac_try br cl audioBlob w0 = (Throw err, w2).
Proof.
  intros Hn. unfold convertToFlac_try, decode.
  destruct (window_Flac br) as [flac|]; [destruct (cl_flacLoaded cl)|];
    run; try discriminate.
  rewrite Hn.
  destruct (decodeAudioData br (decodeCalls w) audioBlob) as [ab|e].
  - destruct (has_create_libflac_encoder flac); cbn [negb]; [|discriminate].
    pose proof (encodeFlac_pure flac ab (interleave ab)
                  (with_decodeCalls (S (decodeCalls w)) w)
                  (with_decodeCalls (S (decodeCalls w)) w0)) as Hpure.
    destruct (encodeFlac flac ab (interleave ab) (with_decodeCalls (S (decodeCalls w)) w))
      as [[b|e] w2]; [discriminate|].
    destruct (encodeFlac flac ab (interleave ab) (with_decodeCalls (S (decodeCalls w)) w0))
      as [[b'|e'] w2']; cbn [fst] in Hpure; [discriminate|].
    intros [= <- _]. injection Hpure as <-. eauto.
  - intros [= <- _]. eauto.
Qed.

Lemma flac_unavailable_decodeCalls (br : Browser) (cl : Closure) (audioBlob : Blob)
    (w w0 : World) :
  decodeCalls w0 = decodeCalls w ->
  flac_unavailable br cl audioBlob w -> flac_unavailable br cl audioBlob w0.
Proof.
  intros Hn [H|[H|[H|[(f & ab & Hf & Hd & Hz)|(err & w1 & Htry)]]]].
  - now left.
  - right; now left.
  - right; right; now left.
  - right; right; right; left. exists f, ab. rewrite Hn. auto.
  - right; right; right; right.
    destruct (convertToFlac_try_throws br cl audioBlob w w0 err w1 Hn Htry) as [w2 Hw2].
    eauto.
Qed.

(** The audio stop handler always publishes an artifact; when the encoder
    cannot be used it is the WAV blob, provided the synthesis succeeds. *)
Lemma audioRecorder_onstop_fallback (br : Browser) (cl : Closure) (w : World) :
  audioChunksRef w <> [] ->
  flac_unavailable br cl (new_Blob (audioChunksRef w) (cl_audioMimeType cl)) w ->
  exists (n : nat) (w' : World),
    audioRecorder_onstop br cl w = (Ok tt, w') /\
    audioRecorded w' = true /\
    audioURL w' = Some (length (objectURLs w)) /\
    isUsingFallbackAudio w' = true /\
    isConverting w' = false /\
    (n = decodeCalls w \/ n = S (decodeCalls w)) /\
    forall wav : Blob,
      wavSynthesis br (new_Blob (audioChunksRef w) (cl_audioMimeType cl)) n = Ok wav ->
      objectURLs w' = objectURLs w ++ [wav].
Proof.
  intros Hchunks Hun.
  apply (flac_unavailable_decodeCalls br cl _ w (with_isConverting true w) eq_refl) in Hun.
  destruct (convertToFlac_fallback br cl _ _ Hun) as (n & w1 & Hrun & Hflag & Hurls & _ & Hn).
  unfold audioRecorder_onstop.
  cbv beta iota delta [bind gets].
  destruct (audioChunksRef w) as [|c cs] eqn:E; [contradiction|].
  cbn [length Nat.ltb Nat.leb].
  cbv beta iota delta [bind try_finally try_catch setIsConverting modify].
  rewrite Hrun.
  exists n. destruct (wavSynthesis br _ n) as [wav|e]; run; cbn; eexists;
    (split; [reflexivity|]); cbn; rewrite ?Hurls; cbn; repeat split; auto;
    try (intros wav' [= <-]; reflexivity); try discriminate.
Qed.

(** A whole cycle with a working encoder: mount, start, one chunk per
    recorder, stop, both stop events.  The video is relabelled MP4, the audio
    is the encoder's output, and the fallback flag stays false. *)
Example cycle_with_encoder :
  let w0 := recordingWorld onlineBrowser in
  let w1 := snd (stopRecording onlineBrowser w0) in
  let w2 := snd (dispatch_stop onlineBrowser 0 w1) in
  let w3 := snd (dispatch_stop onlineBrowser 1 w2) in
  flacLoaded w0 = true /\
  isRecording w0 = true /\
  isRecording w3 = false /\
  objectURLs w3
  = [ {| blob_bytes := [26; 69; 223; 163]; blob_type := "video/mp4" |};
      {| blob_bytes := [102; 76; 97; 67; 255; 248]; blob_type := "audio/flac" |} ] /\
  (videoURL w3, audioURL w3) = (Some 0%nat, Some 1%nat) /\
  (videoRecorded w3, audioRecorded w3) = (true, true) /\
  isUsingFallbackAudio w3 = false /\
  interleave stereo2 = [16383; 32767; -16384; -32768].
Proof. vm_compute. repeat split. Qed.

(** * Main results on the component *)

(** C5. When no capture stream is retained, [startRecording] sets the
    stream-not-available message and returns: nothing else changes, so
    [isRecording] keeps its value (false stays false), no recorder is
    constructed and none is started. *)
Theorem startRecording_without_stream (br : Browser) (w : World) :
  streamRef w = None ->
  let w' := with_errorMessage
              "Camera stream is not available. Please reload and allow access." w in
  startRecording br w = (Ok tt, w') /\
  errorMessage w' = "Camera stream is not available. Please reload and allow access."%string /\
  isRecording w' = isRecording w /\
  recorders w' = recorders w /\
  mediaRecorderRef w' = mediaRecorderRef w /\
  audioRecorderRef w' = audioRecorderRef w /\
  calls w' = calls w.
Proof.
  intros Hnone w'. unfold startRecording, bind, gets. rewrite Hnone.
  repeat split.
Qed.

Lemma startRecording_without_stream_witness :
  startRecording offlineBrowser initialWorld
  = (Ok tt, with_errorMessage
              "Camera stream is not available. Please reload and allow access."
              initialWorld) /\
  isRecording (snd (startRecording offlineBrowser initialWorld)) = false.
Proof.
  destruct (startRecording_without_stream offlineBrowser initialWorld) as (Hrun & _).
  - reflexivity.
  - split; [exact Hrun | now rewrite Hrun].
Defined.

(** C10. A stop handler that finds its chunk buffer empty does nothing: it
    returns normally in the very same world, so no blob is assembled, no
    download URL is created or replaced, and the recorded flags, the
    converting flag and the error message are as they were. *)
Theorem onstop_empty_buffer (br : Browser) (cl : Closure) (w : World) :
  (videoChunksRef w = [] -> mediaRecorder_onstop br cl w = (Ok tt, w)) /\
  (audioChunksRef w = [] -> audioRecorder_onstop br cl w = (Ok tt, w)).
Proof.
  split; intros Hempty.
  - unfold mediaRecorder_onstop, bind, gets. now rewrite Hempty.
  - unfold audioRecorder_onstop, bind, gets. now rewrite Hempty.
Qed.

Lemma onstop_empty_buffer_witness :
  mediaRecorder_onstop offlineBrowser
    {| cl_videoMimeType := "video/webm"; cl_audioMimeType := "audio/webm";
       cl_flacLoaded := false |} initialWorld = (Ok tt, initialWorld) /\
  audioRecorder_onstop offlineBrowser
    {| cl_videoMimeType := "video/webm"; cl_audioMimeType := "audio/webm";
       cl_flacLoaded := false |} initialWorld = (Ok tt, initialWorld).
Proof.
  destruct (onstop_empty_buffer offlineBrowser
              {| cl_videoMimeType := "video/webm"; cl_audioMimeType := "audio/webm";
                 cl_flacLoaded := false |} initialWorld) as [Hvideo Haudio].
  split; [apply Hvideo | apply Haudio]; reflexivity.
Defined.

(** C7. With a non-empty video buffer and a negotiated type equal to
    'video/mp4', the stop handler publishes the assembled blob itself: the
    object URL it stores in [videoURL] denotes the concatenation of the
    chunks, typed 'video/mp4', and the conversion step is not called
    (nothing is added to the trace of calls, whatever the browser would
    have answered). *)
Theorem onstop_mp4_is_original (br : Browser) (cl : Closure) (w : World) :
  videoChunksRef w <> [] ->
  cl_videoMimeType cl = "video/mp4"%string ->
  exists w' : World,
    mediaRecorder_onstop br cl w = (Ok tt, w') /\
    videoURL w' = Some (length (objectURLs w)) /\
    objectURLs w' = objectURLs w ++ [new_Blob (videoChunksRef w) (cl_videoMimeType cl)] /\
    blob_bytes (new_Blob (videoChunksRef w) (cl_videoMimeType cl))
      = flat_map blob_bytes (videoChunksRef w) /\
    videoRecorded w' = true /\
    calls w' = calls w.
Proof.
  intros Hchunks Hmp4.
  unfold mediaRecorder_onstop, bind, gets.
  destruct (videoChunksRef w) as [|c cs] eqn:E; [contradiction|].
  cbn [length Nat.ltb Nat.leb]. rewrite Hmp4. cbn.
  eexists. split; [reflexivity|]. cbn. repeat split.
Qed.

Lemma onstop_mp4_is_original_witness :
  exists w' : World,
    mediaRecorder_onstop offlineBrowser
      {| cl_videoMimeType := "video/mp4"; cl_audioMimeType := "audio/webm";
         cl_flacLoaded := false |} (recordingWorld offlineBrowser) = (Ok tt, w') /\
    objectURLs w' = [{| blob_bytes := [26; 69; 223; 163]; blob_type := "video/mp4" |}] /\
    videoURL w' = Some 0%nat.
Proof.
  destruct (onstop_mp4_is_original offlineBrowser
              {| cl_videoMimeType := "video/mp4"; cl_audioMimeType := "audio/webm";
                 cl_flacLoaded := false |} (recordingWorld offlineBrowser))
    as (w' & Hrun & Hurl & Hstore & _).
  - discriminate.
  - reflexivity.
  - exists w'. split; [exact Hrun|]. split; [exact Hstore | exact Hurl].
Defined.

(** C8. With a non-empty video buffer, when the conversion step throws,
    the stop handler catches the error and returns normally: [videoURL]
    denotes the assembled blob with its original type, [videoRecorded] is
    true, and the warning message is set. *)
Theorem onstop_conversion_failure (br : Browser) (cl : Closure) (w : World) (err : Error) :
  videoChunksRef w <> [] ->
  cl_videoMimeType cl <> "video/mp4"%string ->
  Blob_arrayBuffer br (new_Blob (videoChunksRef w) (cl_videoMimeType cl)) = Some err ->
  exists w' : World,
    mediaRecorder_onstop br cl w = (Ok tt, w') /\
    videoURL w' = Some (length (objectURLs w)) /\
    objectURLs w' = objectURLs w ++ [new_Blob (videoChunksRef w) (cl_videoMimeType cl)] /\
    blob_type (new_Blob (videoChunksRef w) (cl_videoMimeType cl)) = cl_videoMimeType cl /\
    blob_bytes (new_Blob (videoChunksRef w) (cl_videoMimeType cl))
      = flat_map blob_bytes (videoChunksRef w) /\
    videoRecorded w' = true /\
    errorMessage w' = "Failed to convert video to MP4. Using original format."%string.
Proof.
  intros Hchunks Hnot Hthrow.
  unfold mediaRecorder_onstop, bind, gets.
  destruct (videoChunksRef w) as [|c cs] eqn:E; [contradiction|].
  cbn [length Nat.ltb Nat.leb].
  apply String.eqb_neq in Hnot. rewrite Hnot.
  unfold try_catch, convertToMp4, bind, log, modify, setIsConverting.
  cbn. rewrite Hthrow. cbn.
  eexists. split; [reflexivity|]. cbn. repeat split.
Qed.

Lemma onstop_conversion_failure_witness :
  exists w' : World,
    mediaRecorder_onstop unreadableBrowser
      {| cl_videoMimeType := "video/webm"; cl_audioMimeType := "audio/webm";
         cl_flacLoaded := false |} (recordingWorld unreadableBrowser) = (Ok tt, w') /\
    objectURLs w' = [{| blob_bytes := [26; 69; 223; 163]; blob_type := "video/webm" |}] /\
    videoRecorded w' = true.
Proof.
  destruct (onstop_conversion_failure unreadableBrowser
              {| cl_videoMimeType := "video/webm"; cl_audioMimeType := "audio/webm";
                 cl_flacLoaded := false |} (recordingWorld unreadableBrowser)
              {| name := "NotReadableError"; message := "unreadable" |})
    as (w' & Hrun & _ & Hstore & _ & _ & Hrec & _).
  - discriminate.
  - discriminate.
  - reflexivity.
  - exists w'. split; [exact Hrun|]. split; [exact Hstore | exact Hrec].
Defined.

(** C9. Container negotiation probes the candidates ['video/webm',
    'video/mp4'] and ['audio/webm', 'audio/ogg'] in order, asks the runtime
    about no candidate after the first supported one, and selects that one;
    when none is supported the selected type is left as it was, which for
    the component as first rendered is the first candidate of each list. *)
Theorem negotiation_selects_first_supported (br : Browser) :
  let supported := MediaRecorder_isTypeSupported br in
  (forall w : World,
     exists w' : World,
       negotiate br w = (Ok tt, w') /\
       videoMimeType w' = default (videoMimeType w) (find supported ["video/webm"%string; "video/mp4"%string]) /\
       audioMimeType w' = default (audioMimeType w) (find supported ["audio/webm"%string; "audio/ogg"%string]) /\
       calls w' = calls w ++ map isTypeSupported_call
                              (probed supported ["video/webm"%string; "video/mp4"%string]
                               ++ probed supported ["audio/webm"%string; "audio/ogg"%string])) /\
  videoMimeType (snd (setupCamera br initialWorld))
    = default "video/webm"%string (find supported ["video/webm"%string; "video/mp4"%string]) /\
  audioMimeType (snd (setupCamera br initialWorld))
    = default "audio/webm"%string (find supported ["audio/webm"%string; "audio/ogg"%string]).
Proof.
  intros supported. split.
  - intros w. destruct (negotiate_run br w) as (w' & Hrun & Hv & Ha & Hc & _).
    exists w'. repeat split; assumption.
  - unfold setupCamera, try_catch, bind, tryLoadFlacEncoder, try_catch, bind, lift.
    destruct (loadFlacEncoder br) as [[]|e]; cbn [setFlacLoaded setIsUsingFallbackAudio modify].
    + destruct (negotiate_run br (with_flacLoaded true initialWorld))
        as (w' & -> & Hv & Ha & _).
      destruct (getUserMedia br) as [s|e]; [cbn; now rewrite Hv, Ha|].
      destruct (String.eqb (name e) "NotAllowedError");
        [|destruct (String.eqb (name e) "NotFoundError")]; cbn; now rewrite Hv, Ha.
    + destruct (negotiate_run br (with_isUsingFallbackAudio true initialWorld))
        as (w' & -> & Hv & Ha & _).
      destruct (getUserMedia br) as [s|e']; [cbn; now rewrite Hv, Ha|].
      destruct (String.eqb (name e') "NotAllowedError");
        [|destruct (String.eqb (name e') "NotFoundError")]; cbn; now rewrite Hv, Ha.
Qed.

(** C6. [stopRecording] always returns normally with [isRecording] false.
    It calls [stop] only on a recorder held in one of the two refs that
    reports "recording".  When both recorders are already stopped it calls
    nothing and reports nothing; after a call in which no [stop] threw both
    recorders are stopped, so a second call changes nothing at all.  When a
    [stop] throws, the error is caught and its message is reported. *)
Theorem stopRecording_idempotent (br : Browser) (w : World) :
  exists (w' : World) (new : list Call),
    stopRecording br w = (Ok tt, w') /\
    isRecording w' = false /\
    calls w' = calls w ++ new /\
    Forall (fun c => exists r, c = stop_call r /\ isActive (Some r) w = true /\
                       (mediaRecorderRef w = Some r \/ audioRecorderRef w = Some r)) new /\
    (stopped w -> new = [] /\ w' = with_isRecording false w) /\
    ((forall r, In (stop_call r) new -> MediaRecorder_stop br r = None) ->
     stopped w' /\ errorMessage w' = errorMessage w /\ stopRecording br w' = (Ok tt, w')) /\
    (forall r err, In (stop_call r) new -> MediaRecorder_stop br r = Some err ->
                   errorMessage w' = String.append "Error stopping recording: " (message err)).
Proof.
  unfold stopRecording at 1. cbv beta iota delta [try_catch bind].
  rewrite (stopIfRecording_run br mediaRecorderRef w).
  destruct (mediaRecorderRef w) as [r1|] eqn:Hr1;
    [destruct (isActive (Some r1) w) eqn:Ha1;
     [rewrite stop_run; destruct (MediaRecorder_stop br r1) as [e1|] eqn:Hs1|]|].
  - (* the first stop throws *)
    run. eexists _, [stop_call r1]. split; [reflexivity|]. cbn.
    split; [reflexivity|]. split; [reflexivity|]. split; [|split; [|split]].
    + repeat constructor. exists r1. auto.
    + intros [Hv _]. rewrite Hr1 in Hv. congruence.
    + intros Hnone. rewrite (Hnone r1) in Hs1 by (left; reflexivity). discriminate.
    + intros r err [[= <-]|[]] Hs. rewrite Hs in Hs1. now injection Hs1 as ->.
  - (* the first stop succeeds *)
    set (w1 := with_recorders (alter (set_state inactive) r1 (recorders w))
                 (with_calls (calls w ++ [stop_call r1]) w)).
    assert (Hw1 : forall ref, isActive ref w1
                              = isActive ref w && negb (bool_decide (ref = Some r1)))
      by (intros ref; now apply isActive_stopped).
    rewrite (stopIfRecording_run br audioRecorderRef w1).
    change (audioRecorderRef w1) with (audioRecorderRef w).
    destruct (audioRecorderRef w) as [r2|] eqn:Hr2;
      [destruct (isActive (Some r2) w1) eqn:Ha2;
       [rewrite stop_run; destruct (MediaRecorder_stop br r2) as [e2|] eqn:Hs2|]|].
    + (* the second stop throws *)
      run. eexists _, [stop_call r1; stop_call r2]. split; [reflexivity|]. cbn.
      rewrite <- app_assoc. split; [reflexivity|]. split; [reflexivity|].
      rewrite Hw1 in Ha2. apply andb_true_iff in Ha2 as [Ha2 _].
      split; [|split; [|split]].
      * repeat constructor; [exists r1 | exists r2]; auto.
      * intros [Hv _]. rewrite Hr1 in Hv. congruence.
      * intros Hnone. rewrite (Hnone r2) in Hs2 by (right; left; reflexivity). discriminate.
      * intros r err [[= <-]|[[= <-]|[]]] Hs; [congruence|].
        rewrite Hs in Hs2. now injection Hs2 as ->.
    + (* both stops succeed *)
      run. eexists _, [stop_call r1; stop_call r2]. split; [reflexivity|]. cbn.
      rewrite <- app_assoc. split; [reflexivity|]. split; [reflexivity|].
      pose proof Ha2 as Ha2'. rewrite Hw1 in Ha2'. apply andb_true_iff in Ha2' as [Ha2' _].
      split; [|split; [|split]].
      * repeat constructor; [exists r1 | exists r2]; auto.
      * intros [Hv _]. rewrite Hr1 in Hv. congruence.
      * intros _.
        match goal with |- stopped ?W /\ _ => assert (Hst : stopped W) end.
        { split; cbn -[isActive alter]; rewrite ?Hr1, ?Hr2.
          - rewrite (isActive_stopped _ r2 w1) by reflexivity.
            rewrite Hw1, bool_decide_true by reflexivity. cbn. now rewrite andb_false_r.
          - rewrite (isActive_stopped _ r2 w1) by reflexivity.
            rewrite bool_decide_true by reflexivity. now rewrite andb_false_r. }
        split; [exact Hst|]. split; [reflexivity|].
        now rewrite (stopRecording_stopped br _ Hst).
      * intros r err [[= <-]|[[= <-]|[]]] Hs; congruence.
    + (* the second recorder is not recording *)
      run. eexists _, [stop_call r1]. split; [reflexivity|]. cbn.
      split; [reflexivity|]. split; [reflexivity|]. split; [|split; [|split]].
      * repeat constructor. exists r1. auto.
      * intros [Hv _]. rewrite Hr1 in Hv. congruence.
      * intros _.
        match goal with |- stopped ?W /\ _ => assert (Hst : stopped W) end.
        { split; cbn -[isActive alter]; rewrite ?Hr1, ?Hr2.
          - rewrite (isActive_recorders _ w1) by reflexivity.
            rewrite Hw1, bool_decide_true by reflexivity. now rewrite andb_false_r.
          - now rewrite (isActive_recorders _ w1) by reflexivity. }
        split; [exact Hst|]. split; [reflexivity|].
        now rewrite (stopRecording_stopped br _ Hst).
      * intros r err [[= <-]|[]] Hs; congruence.
    + (* there is no second recorder *)
      run. eexists _, [stop_call r1]. split; [reflexivity|]. cbn.
      split; [reflexivity|]. split; [reflexivity|]. split; [|split; [|split]].
      * repeat constructor. exists r1. auto.
      * intros [Hv _]. rewrite Hr1 in Hv. congruence.
      * intros _.
        match goal with |- stopped ?W /\ _ => assert (Hst : stopped W) end.
        { split; cbn -[isActive alter]; rewrite ?Hr1, ?Hr2.
          - rewrite (isActive_recorders _ w1) by reflexivity.
            rewrite Hw1, bool_decide_true by reflexivity. now rewrite andb_false_r.
          - reflexivity. }
        split; [exact Hst|]. split; [reflexivity|].
        now rewrite (stopRecording_stopped br _ Hst).
      * intros r err [[= <-]|[]] Hs; congruence.
  - (* the first recorder is not recording *)
    rewrite (stopIfRecording_run br audioRecorderRef w).
    destruct (audioRecorderRef w) as [r2|] eqn:Hr2;
      [destruct (isActive (Some r2) w) eqn:Ha2;
       [rewrite stop_run; destruct (MediaRecorder_stop br r2) as [e2|] eqn:Hs2|]|].
    + run. eexists _, [stop_call r2]. split; [reflexivity|]. cbn.
      split; [reflexivity|]. split; [reflexivity|]. split; [|split; [|split]].
      * repeat constructor. exists r2. auto.
      * intros [_ Ha]. rewrite Hr2 in Ha. congruence.
      * intros Hnone. rewrite (Hnone r2) in Hs2 by (left; reflexivity). discriminate.
      * intros r err [[= <-]|[]] Hs. rewrite Hs in Hs2. now injection Hs2 as ->.
    + run. eexists _, [stop_call r2]. split; [reflexivity|]. cbn.
      split; [reflexivity|]. split; [reflexivity|]. split; [|split; [|split]].
      * repeat constructor. exists r2. auto.
      * intros [_ Ha]. rewrite Hr2 in Ha. congruence.
      * intros _.
        match goal with |- stopped ?W /\ _ => assert (Hst : stopped W) end.
        { split; cbn -[isActive alter]; rewrite ?Hr1, ?Hr2;
            rewrite (isActive_stopped _ r2 w) by reflexivity.
          - now rewrite Ha1.
          - rewrite bool_decide_true by reflexivity. now rewrite andb_false_r. }
        split; [exact Hst|]. split; [reflexivity|].
        now rewrite (stopRecording_stopped br _ Hst).
      * intros r err [[= <-]|[]] Hs; congruence.
    + run. eexists _, []. split; [reflexivity|]. cbn.
      split; [reflexivity|]. split; [now rewrite app_nil_r|]. split; [|split; [|split]].
      * constructor.
      * intros _. split; reflexivity.
      * intros _.
        match goal with |- stopped ?W /\ _ => assert (Hst : stopped W) end.
        { split; cbn -[isActive alter]; rewrite ?Hr1, ?Hr2;
            rewrite (isActive_recorders _ w) by reflexivity; assumption || reflexivity. }
        split; [exact Hst|]. split; [reflexivity|].
        now rewrite (stopRecording_stopped br _ Hst).
      * intros r err [].
    + run. eexists _, []. split; [reflexivity|]. cbn.
      split; [reflexivity|]. split; [now rewrite app_nil_r|]. split; [|split; [|split]].
      * constructor.
      * intros _. split; reflexivity.
      * intros _.
        match goal with |- stopped ?W /\ _ => assert (Hst : stopped W) end.
        { split; cbn -[isActive alter]; rewrite ?Hr1, ?Hr2;
            rewrite ?(isActive_recorders _ w) by reflexivity; assumption || reflexivity. }
        split; [exact Hst|]. split; [reflexivity|].
        now rewrite (stopRecording_stopped br _ Hst).
      * intros r err [].
  - (* there is no first recorder *)
    rewrite (stopIfRecording_run br audioRecorderRef w).
    destruct (audioRecorderRef w) as [r2|] eqn:Hr2;
      [destruct (isActive (Some r2) w) eqn:Ha2;
       [rewrite stop_run; destruct (MediaRecorder_stop br r2) as [e2|] eqn:Hs2|]|].
    + run. eexists _, [stop_call r2]. split; [reflexivity|]. cbn.
      split; [reflexivity|]. split; [reflexivity|]. split; [|split; [|split]].
      * repeat constructor. exists r2. auto.
      * intros [_ Ha]. rewrite Hr2 in Ha. congruence.
      * intros Hnone. rewrite (Hnone r2) in Hs2 by (left; reflexivity). discriminate.
      * intros r err [[= <-]|[]] Hs. rewrite Hs in Hs2. now injection Hs2 as ->.
    + run. eexists _, [stop_call r2]. split; [reflexivity|]. cbn.
      split; [reflexivity|]. split; [reflexivity|]. split; [|split; [|split]].
      * repeat constructor. exists r2. auto.
      * intros [_ Ha]. rewrite Hr2 in Ha. congruence.
      * intros _.
        match goal with |- stopped ?W /\ _ => assert (Hst : stopped W) end.
        { split; cbn -[isActive alter]; rewrite ?Hr1, ?Hr2;
            rewrite (isActive_stopped _ r2 w) by reflexivity.
          - reflexivity.
          - rewrite bool_decide_true by reflexivity. now rewrite andb_false_r. }
        split; [exact Hst|]. split; [reflexivity|].
        now rewrite (stopRecording_stopped br _ Hst).
      * intros r err [[= <-]|[]] Hs; congruence.
    + run. eexists _, []. split; [reflexivity|]. cbn.
      split; [reflexivity|]. split; [now rewrite app_nil_r|]. split; [|split; [|split]].
      * constructor.
      * intros _. split; reflexivity.
      * intros _.
        match goal with |- stopped ?W /\ _ => assert (Hst : stopped W) end.
        { split; cbn -[isActive alter]; rewrite ?Hr1, ?Hr2;
            rewrite (isActive_recorders _ w) by reflexivity; assumption || reflexivity. }
        split; [exact Hst|]. split; [reflexivity|].
        now rewrite (stopRecording_stopped br _ Hst).
      * intros r err [].
    + run. eexists _, []. split; [reflexivity|]. cbn.
      split; [reflexivity|]. split; [now rewrite app_nil_r|]. split; [|split; [|split]].
      * constructor.
      * intros _. split; reflexivity.
      * intros _.
        match goal with |- stopped ?W /\ _ => assert (Hst : stopped W) end.
        { split; cbn -[isActive alter]; rewrite ?Hr1, ?Hr2;
            rewrite ?(isActive_recorders _ w) by reflexivity; assumption || reflexivity. }
        split; [exact Hst|]. split; [reflexivity|].
        now rewrite (stopRecording_stopped br _ Hst).
      * intros r err [].
Qed.

Lemma stopRecording_idempotent_witness :
  exists w' : World,
    stopRecording offlineBrowser (recordingWorld offlineBrowser) = (Ok tt, w') /\
    stopped w' /\
    stopRecording offlineBrowser w' = (Ok tt, w').
Proof.
  destruct (stopRecording_idempotent offlineBrowser (recordingWorld offlineBrowser))
    as (w' & new & Hrun & _ & _ & _ & _ & Hquiet & _).
  exists w'. split; [exact Hrun|].
  destruct Hquiet as (Hstopped & _ & Hagain).
  - intros r _. reflexivity.
  - split; [exact Hstopped | exact Hagain].
Defined.

(** C4. When the bootstrap promise rejects, [setupCamera] sets the fallback
    flag and [flacLoaded] stays false.  Whenever the encoder cannot be used
    for an audio blob (the library did not load, the global or its
    create-encoder entry point is absent, encoder creation returns a zero
    handle, or anything in the FLAC path throws), [convertToFlac] sets the
    fallback flag and its result is that of the WAV synthesis, which is a
    blob of type 'audio/wav' holding the output of [createWavBuffer] as soon
    as the decode succeeds; and the audio stop handler then returns normally
    with [audioRecorded] true and [audioURL] denoting that WAV blob. *)
Theorem audio_conversion_falls_back_to_wav (br : Browser) :
  (forall err : Error,
     loadFlacEncoder br = Throw err ->
     flacLoaded (snd (setupCamera br initialWorld)) = false /\
     isUsingFallbackAudio (snd (setupCamera br initialWorld)) = true) /\
  (forall (cl : Closure) (audioBlob : Blob) (w : World),
     flac_unavailable br cl audioBlob w ->
     exists (n : nat) (w' : World),
       convertToFlac br cl audioBlob w = (wavSynthesis br audioBlob n, w') /\
       isUsingFallbackAudio w' = true /\
       (n = decodeCalls w \/ n = S (decodeCalls w)) /\
       forall audioBuffer : AudioBuffer,
         decodeAudioData br n audioBlob = Ok audioBuffer ->
         exists wavBuffer : ArrayBuffer,
           createWavBuffer audioBuffer = Ok wavBuffer /\
           wavSynthesis br audioBlob n
           = Ok {| blob_bytes := wavBuffer; blob_type := "audio/wav" |}) /\
  (forall (cl : Closure) (w : World),
     audioChunksRef w <> [] ->
     flac_unavailable br cl (new_Blob (audioChunksRef w) (cl_audioMimeType cl)) w ->
     exists (n : nat) (w' : World),
       audioRecorder_onstop br cl w = (Ok tt, w') /\
       audioRecorded w' = true /\
       audioURL w' = Some (length (objectURLs w)) /\
       isUsingFallbackAudio w' = true /\
       forall wav : Blob,
         wavSynthesis br (new_Blob (audioChunksRef w) (cl_audioMimeType cl)) n = Ok wav ->
         objectURLs w' = objectURLs w ++ [wav]).
Proof.
  split; [|split].
  - intros err Hrej.
    destruct (setupCamera_rejected br initialWorld err Hrej) as (_ & Hl & Hf).
    split; [exact Hl | exact Hf].
  - intros cl audioBlob w Hun.
    destruct (convertToFlac_fallback br cl audioBlob w Hun)
      as (n & w' & Hrun & Hflag & _ & _ & Hn).
    exists n, w'. split; [exact Hrun|]. split; [exact Hflag|]. split; [exact Hn|].
    intros ab Hdec. exists (wavBytes ab).
    split; [apply createWavBuffer_total | now apply wavSynthesis_decoded].
  - intros cl w Hchunks Hun.
    destruct (audioRecorder_onstop_fallback br cl w Hchunks Hun)
      as (n & w' & Hrun & Hrec & Hurl & Hflag & _ & _ & Hwav).
    exists n, w'. auto.
Qed.

Lemma audio_conversion_falls_back_to_wav_witness :
  isUsingFallbackAudio (snd (setupCamera offlineBrowser initialWorld)) = true /\
  exists w' : World,
    audioRecorder_onstop offlineBrowser
      {| cl_videoMimeType := "video/mp4"; cl_audioMimeType := "audio/webm";
         cl_flacLoaded := false |} (recordingWorld offlineBrowser) = (Ok tt, w') /\
    audioRecorded w' = true /\
    audioURL w' = Some 0%nat.
Proof.
  destruct (audio_conversion_falls_back_to_wav offlineBrowser) as (Hboot & _ & Hstop).
  split.
  - destruct (Hboot (new_Error "Failed to load FLAC encoder from all sources")) as [_ Hflag].
    + reflexivity.
    + exact Hflag.
  - destruct (Hstop {| cl_videoMimeType := "video/mp4"; cl_audioMimeType := "audio/webm";
                       cl_flacLoaded := false |} (recordingWorld offlineBrowser))
      as (n & w' & Hrun & Hrec & Hurl & _).
    + discriminate.
    + left. reflexivity.
    + exists w'. split; [exact Hrun|]. split; [exact Hrec | exact Hurl].
Defined.

(** * Further properties of the WAV writer *)





(** X5. When the file is shorter than 4 GiB, the RIFF size field holds the
    length of the returned buffer minus 8 and the data length field holds
    the length minus 44. *)
Theorem createWavBuffer_riff_size (audioBuffer : AudioBuffer) :
  36 + Z.of_nat (frameCount audioBuffer) * Z.of_nat (numberOfChannels audioBuffer) * 2
    < 2 ^ 32 ->
  exists wav : ArrayBuffer,
    createWavBuffer audioBuffer = Ok wav /\
    DataView_getUint32 wav 4 = Some (Z.of_nat (length wav) - 8) /\
    DataView_getUint32 wav 40 = Some (Z.of_nat (length wav) - 44).
Proof.
  intros Hsmall.
  exists (wavBytes audioBuffer). split; [apply createWavBuffer_total|].
  rewrite length_wavBytes.
  unfold wavBytes, wavHeader, concat.
  rewrite <- !app_assoc, app_nil_l.
  unfold DataView_getUint32.
  split;
    repeat (erewrite DataView_read_skip; [ | reflexivity | simpl; lia ]);
    cbn [Nat.sub]; (erewrite DataView_read_here; [ | reflexivity ]);
    cbn [fmap option_fmap option_map]; f_equal;
    unfold ToUint32; rewrite le_value_le_bytes; change (256 ^ Z.of_nat 4) with (2 ^ 32);
    rewrite Zmod_mod; rewrite Z.mod_small by lia; lia.
Qed.

Lemma createWavBuffer_riff_size_witness :
  exists wav : ArrayBuffer,
    createWavBuffer stereo2 = Ok wav /\
    DataView_getUint32 wav 4 = Some (Z.of_nat (length wav) - 8) /\
    DataView_getUint32 wav 40 = Some (Z.of_nat (length wav) - 44).
Proof. apply (createWavBuffer_riff_size stereo2). vm_compute. reflexivity. Defined.

(** X1. The sample loop starts at the frame index left by the header
    writes, so for every frame [f] with f + 44 < frameCount the 16-bit value
    at byte offset 44 + 2*(f*channels + c) of the result is the quantization
    of the sample of channel [c] at source frame [f + 44]. *)
Theorem createWavBuffer_stores_later_frame (audioBuffer : AudioBuffer) (f c : nat)
    (ch : list number) :
  channelData audioBuffer !! c = Some ch ->
  (f + 44 < frameCount audioBuffer)%nat ->
  exists wav : ArrayBuffer,
    createWavBuffer audioBuffer = Ok wav /\
    DataView_getInt16 wav (44 + 2 * (f * numberOfChannels audioBuffer + c))
    = Some (quantize (sampleAt ch (f + 44))).
Proof.
  intros Hch Hf. exists (wavBytes audioBuffer).
  split; [apply createWavBuffer_total | now apply createWavBuffer_data_shifted].
Qed.

Lemma createWavBuffer_stores_later_frame_witness :
  exists wav : ArrayBuffer,
    createWavBuffer mono45 = Ok wav /\
    DataView_getInt16 wav (44 + 2 * (0 * numberOfChannels mono45 + 0))
    = Some (quantize (sampleAt (Num 1 :: replicate 43 (Num 0) ++ [Num (-1)]) (0 + 44))).
Proof.
  apply (createWavBuffer_stores_later_frame mono45 0 0).
  - reflexivity.
  - simpl. lia.
Defined.

(** X2. The last 44 output frames (all of them when the buffer has at most
    44 frames) are never written: for every frame [f] with
    frameCount - 44 <= f < frameCount and every channel, the 16-bit value at
    byte offset 44 + 2*(f*channels + c) of the result is 0. *)
Theorem createWavBuffer_leaves_tail_silent (audioBuffer : AudioBuffer) (f c : nat) :
  (c < numberOfChannels audioBuffer)%nat ->
  (frameCount audioBuffer - 44 <= f < frameCount audioBuffer)%nat ->
  exists wav : ArrayBuffer,
    createWavBuffer audioBuffer = Ok wav /\
    DataView_getInt16 wav (44 + 2 * (f * numberOfChannels audioBuffer + c)) = Some 0.
Proof.
  intros Hc Hf. exists (wavBytes audioBuffer).
  split; [apply createWavBuffer_total | now apply createWavBuffer_data_tail].
Qed.

Lemma createWavBuffer_leaves_tail_silent_witness :
  exists wav : ArrayBuffer,
    createWavBuffer stereo2 = Ok wav /\
    DataView_getInt16 wav (44 + 2 * (1 * numberOfChannels stereo2 + 1)) = Some 0.
Proof. apply (createWavBuffer_leaves_tail_silent stereo2 1 1); vm_compute; lia. Defined.

(** ** Precision of the quantization *)

Section Precision.
Local Open Scope Q_scope.

Lemma qclamp_inside (x : Q) : -1 <= x <= 1 -> qclamp x == x.
Proof.
  intros [Hlo Hhi]. unfold qclamp.
  rewrite (Q.min_r 1 x) by assumption. now apply Q.max_r.
Qed.

Lemma quantize_nonneg_floor (x : Q) :
  0 <= x <= 1 -> quantize (Num x) = Qfloor (x * 32767).
Proof.
  intros Hx. rewrite quantize_Num.
  assert (E : qclamp x == x) by (apply qclamp_inside; lra).
  rewrite <- truncate_nonneg by lra. apply truncate_Qeq.
  unfold qscale. destruct (number_lt_spec (qclamp x) 0) as [Hn|_]; [lra|].
  change (inject_Z 0x7FFF) with 32767. now rewrite E.
Qed.

Lemma quantize_neg_ceiling (x : Q) :
  -1 <= x < 0 -> quantize (Num x) = Qceiling (x * 32768).
Proof.
  intros Hx. rewrite quantize_Num.
  assert (E : qclamp x == x) by (apply qclamp_inside; lra).
  rewrite <- truncate_neg by lra. apply truncate_Qeq.
  unfold qscale. destruct (number_lt_spec (qclamp x) 0) as [_|Hn]; [|lra].
  change (inject_Z 0x8000) with 32768. now rewrite E.
Qed.

(** X6. The quantization truncates towards zero and is off by less than one
    step: a sample [x] in [0,1] is stored as the integer [q] with
    q <= 32767*x < q + 1, and a sample in [-1,0) as the integer [q] with
    q - 1 < 32768*x <= q. *)
Theorem quantize_truncation_error (x : Q) :
  -1 <= x <= 1 ->
  let q := quantize (Num x) in
  (0 <= x -> inject_Z q <= x * 32767 /\ x * 32767 < inject_Z (q + 1)) /\
  (x < 0 -> inject_Z (q - 1) < x * 32768 /\ x * 32768 <= inject_Z q).
Proof.
  intros Hx q. split; intros Hs; subst q.
  - rewrite quantize_nonneg_floor by lra. split; [apply Qfloor_le | apply Qlt_floor].
  - rewrite quantize_neg_ceiling by lra. split; [apply Qceiling_lt | apply Qle_ceiling].
Qed.

Lemma quantize_truncation_error_witness :
  inject_Z (quantize (Num (1 # 2))) <= (1 # 2) * 32767 /\
  (1 # 2) * 32767 < inject_Z (quantize (Num (1 # 2)) + 1).
Proof.
  destruct (quantize_truncation_error (1 # 2)) as [Hpos _].
  - split; unfold Qle; simpl; lia.
  - apply Hpos. unfold Qle; simpl; lia.
Defined.

End Precision.

(** ** Further properties of the FLAC interleaving *)

Lemma quantize_range (x : number) : -32768 <= quantize x <= 32767.
Proof.
  unfold quantize, ToInt16.
  pose proof (ToUint16_range (scaleSample x)) as H.
  change (2 ^ 16) with 65536 in *. change (2 ^ 15) with 32768.
  destruct (Z.ltb_spec (ToUint16 (scaleSample x)) 32768); lia.
Qed.

(** X8. The sample array handed to the encoder has frameCount*channels
    entries and every entry is a 16-bit signed value, whatever the samples
    are. *)
Theorem interleave_length_range (audioBuffer : AudioBuffer) :
  length (interleave audioBuffer)
  = (frameCount audioBuffer * numberOfChannels audioBuffer)%nat /\
  Forall (fun v => -32768 <= v <= 32767) (interleave audioBuffer).
Proof.
  unfold interleave. split.
  - now rewrite length_interleaveChannels, length_replicate.
  - generalize (imap pair (channelData audioBuffer)).
    assert (H0 : Forall (fun v => -32768 <= v <= 32767)
                   (replicate (frameCount audioBuffer * numberOfChannels audioBuffer) 0))
      by (apply Forall_replicate; lia).
    revert H0.
    generalize (replicate (frameCount audioBuffer * numberOfChannels audioBuffer) 0).
    intros init Hinit l. revert init Hinit.
    induction l as [|[c cd] l IH]; intros init Hinit; [exact Hinit|].
    cbn [foldl]. apply IH. unfold interleaveChannel.
    generalize (seq 0 (frameCount audioBuffer)). intros idx. revert init Hinit.
    induction idx as [|i idx IHidx]; intros init Hinit; [exact Hinit|].
    cbn [foldl]. apply IHidx. apply Forall_insert; [exact Hinit | apply quantize_range].
Qed.

(** The frame and channel of every entry, on an example
    ([interleave_frame_channel]). *)
Lemma interleave_frame_channel_witness :
  interleave stereo2 !! (1 * numberOfChannels stereo2 + 1)%nat
  = Some (quantize (sampleAt [Num 1; Num (-1)] 1)).
Proof.
  apply (interleave_frame_channel stereo2 1 1).
  - reflexivity.
  - simpl. lia.
Defined.

(** * Further properties of the component *)

(** ** Audio conversion *)

(** X9. The WAV fallback makes exactly one decode and fails only as the
    decode fails: when the decode throws, [createWavFromAudio] throws the
    same error; when it succeeds, the result is a blob of type 'audio/wav'
    whose bytes are the output of [createWavBuffer].  Nothing else of the
    component changes. *)
Theorem createWavFromAudio_outcome (br : Browser) (audioBlob : Blob) (w : World) :
  let w' := with_decodeCalls (S (decodeCalls w)) w in
  match decodeAudioData br (decodeCalls w) audioBlob with
  | Throw err => createWavFromAudio br audioBlob w = (Throw err, w')
  | Ok audioBuffer =>
      exists wavBuffer : ArrayBuffer,
        createWavBuffer audioBuffer = Ok wavBuffer /\
        createWavFromAudio br audioBlob w
        = (Ok {| blob_bytes := wavBuffer; blob_type := "audio/wav" |}, w')
  end.
Proof.
  intros w'. rewrite createWavFromAudio_run. unfold wavSynthesis.
  destruct (decodeAudioData br (decodeCalls w) audioBlob) as [ab|err]; [|reflexivity].
  exists (wavBytes ab). now rewrite createWavBuffer_total.
Qed.

Lemma wavSynthesis_throws (br : Browser) (audioBlob : Blob) (n : nat) (err : Error) :
  wavSynthesis br audioBlob n = Throw err -> decodeAudioData br n audioBlob = Throw err.
Proof.
  unfold wavSynthesis. destruct (decodeAudioData br n audioBlob) as [ab|e]; [|congruence].
  rewrite createWavBuffer_total. discriminate.
Qed.

Lemma encodeFlac_type (flac : Flac) (ab : AudioBuffer) (sampleData : list Z) (w : World)
    (flacBlob : Blob) :
  fst (encodeFlac flac ab sampleData w) = Ok flacBlob -> blob_type flacBlob = "audio/flac"%string.
Proof.
  unfold encodeFlac. run.
  destruct (create_libflac_encoder _ _ _ _ _ _ _) as [h|e]; [|discriminate].
  destruct (h =? 0); [discriminate|].
  destruct (setEncodeCallback flac h) as [[]|e]; [|discriminate].
  destruct (FLAC__stream_encoder_process_interleaved flac h sampleData _) as [p|e];
    [|discriminate].
  destruct (FLAC__stream_encoder_finish flac h) as [f|e]; [|discriminate].
  destruct (FLAC__stream_encoder_delete flac h) as [[]|e]; [|discriminate].
  cbn. now intros [= <-].
Qed.

(** X10. [convertToFlac] fails only when the decode made by the WAV fallback
    fails, and then with that decode's error; every failure of the encoder
    itself is absorbed.  The fallback flag is set in that case. *)
Theorem convertToFlac_throws_only_on_decode (br : Browser) (cl : Closure) (audioBlob : Blob)
    (w w' : World) (err : Error) :
  convertToFlac br cl audioBlob w = (Throw err, w') ->
  exists n : nat,
    (n = decodeCalls w \/ n = S (decodeCalls w)) /\
    decodeAudioData br n audioBlob = Throw err /\
    isUsingFallbackAudio w' = true.
Proof.
  destruct (window_Flac br) as [flac|] eqn:Hflac;
    [destruct (cl_flacLoaded cl) eqn:Hloaded|].
  - rewrite (convertToFlac_library br cl audioBlob w flac Hflac Hloaded).
    assert (Hfb : (wavSynthesis br audioBlob (S (decodeCalls w)),
                   with_decodeCalls (S (S (decodeCalls w)))
                     (with_isUsingFallbackAudio true
                        (with_decodeCalls (S (decodeCalls w)) w))) = (Throw err, w') ->
                  exists n : nat,
                    (n = decodeCalls w \/ n = S (decodeCalls w)) /\
                    decodeAudioData br n audioBlob = Throw err /\
                    isUsingFallbackAudio w' = true).
    { intros [= Hs <-]. exists (S (decodeCalls w)).
      split; [now right|]. split; [now apply wavSynthesis_throws | reflexivity]. }
    destruct (decodeAudioData br (decodeCalls w) audioBlob) as [ab|e]; [|exact Hfb].
    destruct (has_create_libflac_encoder flac); [|exact Hfb].
    destruct (fst (encodeFlac flac ab (interleave ab) _)); [discriminate | exact Hfb].
  - rewrite convertToFlac_no_library by auto. intros [= Hs <-].
    exists (decodeCalls w). split; [now left|].
    split; [now apply wavSynthesis_throws | reflexivity].
  - rewrite convertToFlac_no_library by auto. intros [= Hs <-].
    exists (decodeCalls w). split; [now left|].
    split; [now apply wavSynthesis_throws | reflexivity].
Qed.

Lemma convertToFlac_throws_only_on_decode_witness :
  exists n : nat,
    (n = 0%nat \/ n = 1%nat) /\
    decodeAudioData undecodableBrowser n chunk
    = Throw {| name := "EncodingError"; message := "Unable to decode audio data" |}.
Proof.
  destruct (convertToFlac_throws_only_on_decode undecodableBrowser webmClosure chunk
              initialWorld
              (with_decodeCalls 1 (with_isUsingFallbackAudio true initialWorld))
              {| name := "EncodingError"; message := "Unable to decode audio data" |})
    as (n & Hn & Hdec & _).
  - reflexivity.
  - exists n. split; [exact Hn | exact Hdec].
Defined.

(** X11. With the library loaded, its entry point present, a successful
    decode and encoder calls that all succeed with a non-zero handle,
    [convertToFlac] hands the encoder the interleaved 16-bit samples and the
    frame count, and returns a blob of type 'audio/flac' whose bytes are the
    chunks emitted while processing followed by those emitted while
    finishing.  The fallback flag is not touched and one decode is made. *)
Theorem convertToFlac_returns_encoder_output (br : Browser) (cl : Closure) (audioBlob : Blob)
    (w : World) (flac : Flac) (audioBuffer : AudioBuffer) (flacEncoder : Z)
    (processed finished : list (list Z)) :
  window_Flac br = Some flac ->
  cl_flacLoaded cl = true ->
  decodeAudioData br (decodeCalls w) audioBlob = Ok audioBuffer ->
  has_create_libflac_encoder flac = true ->
  create_libflac_encoder flac (sampleRate audioBuffer) (numberOfChannels audioBuffer)
    16 5 0 true = Ok flacEncoder ->
  flacEncoder <> 0 ->
  setEncodeCallback flac flacEncoder = Ok tt ->
  FLAC__stream_encoder_process_interleaved flac flacEncoder (interleave audioBuffer)
    (frameCount audioBuffer) = Ok processed ->
  FLAC__stream_encoder_finish flac flacEncoder = Ok finished ->
  FLAC__stream_encoder_delete flac flacEncoder = Ok tt ->
  convertToFlac br cl audioBlob w
  = (Ok {| blob_bytes := concat (processed ++ finished); blob_type := "audio/flac" |},
     with_decodeCalls (S (decodeCalls w)) w).
Proof.
  intros Hflac Hloaded Hdec Hcreate Hnew Hnz Hcb Hproc Hfin Hdel.
  apply (convertToFlac_encodes br cl audioBlob w flac audioBuffer); try assumption.
  unfold encodeFlac. run. rewrite Hnew.
  apply Z.eqb_neq in Hnz. rewrite Hnz, Hcb, Hproc, Hfin, Hdel. reflexivity.
Qed.

Lemma convertToFlac_returns_encoder_output_witness :
  convertToFlac onlineBrowser loadedClosure chunk initialWorld
  = (Ok {| blob_bytes := concat ([ascii_bytes "fLaC"] ++ [[255; 248]]);
           blob_type := "audio/flac" |},
     with_decodeCalls 1 initialWorld).
Proof.
  apply (convertToFlac_returns_encoder_output onlineBrowser loadedClosure chunk initialWorld
           markerFlac stereo2 1); try reflexivity.
  discriminate.
Defined.

(** [convertToFlac] changes the fallback flag and the decode counter and
    nothing else; its result is a FLAC blob with the flag untouched, or,
    with the flag set, a WAV blob or a failure. *)
Lemma convertToFlac_frame (br : Browser) (cl : Closure) (audioBlob : Blob) (w : World) :
  exists (r : result Blob) (w1 : World),
    convertToFlac br cl audioBlob w = (r, w1) /\
    w1 = with_decodeCalls (decodeCalls w1)
           (with_isUsingFallbackAudio (isUsingFallbackAudio w1) w) /\
    ((exists b, r = Ok b /\ blob_type b = "audio/flac"%string
                /\ isUsingFallbackAudio w1 = isUsingFallbackAudio w) \/
     (isUsingFallbackAudio w1 = true /\
      forall b, r = Ok b -> blob_type b = "audio/wav"%string)).
Proof.
  assert (Hwav : forall n b, wavSynthesis br audioBlob n = Ok b
                             -> blob_type b = "audio/wav"%string).
  { intros n b. unfold wavSynthesis.
    destruct (decodeAudioData br n audioBlob) as [ab|e]; [|discriminate].
    destruct (createWavBuffer ab); [|discriminate]. now intros [= <-]. }
  destruct (window_Flac br) as [flac|] eqn:Hflac;
    [destruct (cl_flacLoaded cl) eqn:Hloaded|].
  - rewrite (convertToFlac_library br cl audioBlob w flac Hflac Hloaded).
    destruct (decodeAudioData br (decodeCalls w) audioBlob) as [ab|e];
      [destruct (has_create_libflac_encoder flac);
       [destruct (fst (encodeFlac flac ab (interleave ab) _)) as [b|e] eqn:Henc|]|];
      eexists _, _; (split; [reflexivity|]); (split; [destruct w; reflexivity|]);
      try (right; split; [reflexivity | apply Hwav]).
    left. exists b. split; [reflexivity|]. split; [|reflexivity].
    eapply encodeFlac_type; eassumption.
  - rewrite convertToFlac_no_library by auto.
    eexists _, _. split; [reflexivity|]. split; [destruct w; reflexivity|].
    right. split; [reflexivity | apply Hwav].
  - rewrite convertToFlac_no_library by auto.
    eexists _, _. split; [reflexivity|]. split; [destruct w; reflexivity|].
    right. split; [reflexivity | apply Hwav].
Qed.

(** What the audio stop handler does to the artifacts. *)
Lemma audioRecorder_onstop_urls (br : Browser) (cl : Closure) (w : World) :
  audioChunksRef w <> [] ->
  exists (w' : World) (artifact : Blob),
    audioRecorder_onstop br cl w = (Ok tt, w') /\
    objectURLs w' = objectURLs w ++ [artifact] /\
    audioURL w' = Some (length (objectURLs w)) /\
    audioRecorded w' = true /\
    videoURL w' = videoURL w /\
    videoRecorded w' = videoRecorded w.
Proof.
  intros Hchunks.
  destruct (convertToFlac_frame br cl (new_Blob (audioChunksRef w) (cl_audioMimeType cl))
              (with_isConverting true w)) as (r & w1 & Hrun & Hw1 & _).
  unfold audioRecorder_onstop.
  cbv beta iota delta [bind gets].
  destruct (audioChunksRef w) as [|c cs] eqn:E; [contradiction|].
  cbn [length Nat.ltb Nat.leb].
  cbv beta iota delta [bind try_finally try_catch setIsConverting modify].
  rewrite Hrun.
  assert (Hurls : objectURLs w1 = objectURLs w) by (rewrite Hw1; reflexivity).
  assert (Hvu : videoURL w1 = videoURL w) by (rewrite Hw1; reflexivity).
  assert (Hvr : videoRecorded w1 = videoRecorded w) by (rewrite Hw1; reflexivity).
  destruct r as [b|e]; run; cbn; eexists _, _; (split; [reflexivity|]); cbn;
    rewrite Hurls, Hvu, Hvr; repeat split.
Qed.

(** X12. With a non-empty audio buffer the audio stop handler always returns
    normally and publishes exactly one new object URL, which [audioURL] then
    names; [audioRecorded] is true and the converting indicator is cleared.
    Unless the published blob is of type 'audio/flac' the fallback flag is
    set, so a non-FLAC artifact is always disclosed.  The video side and both
    chunk buffers are left as they were. *)
Theorem audioRecorder_onstop_publishes (br : Browser) (cl : Closure) (w : World) :
  audioChunksRef w <> [] ->
  exists (w' : World) (artifact : Blob),
    audioRecorder_onstop br cl w = (Ok tt, w') /\
    objectURLs w' = objectURLs w ++ [artifact] /\
    audioURL w' = Some (length (objectURLs w)) /\
    audioRecorded w' = true /\
    isConverting w' = false /\
    (blob_type artifact = "audio/flac"%string \/ isUsingFallbackAudio w' = true) /\
    videoURL w' = videoURL w /\
    videoRecorded w' = videoRecorded w /\
    videoChunksRef w' = videoChunksRef w /\
    audioChunksRef w' = audioChunksRef w.
Proof.
  intros Hchunks.
  destruct (convertToFlac_frame br cl (new_Blob (audioChunksRef w) (cl_audioMimeType cl))
              (with_isConverting true w)) as (r & w1 & Hrun & Hw1 & Hcases).
  unfold audioRecorder_onstop.
  cbv beta iota delta [bind gets].
  destruct (audioChunksRef w) as [|c cs] eqn:E; [contradiction|].
  cbn [length Nat.ltb Nat.leb].
  cbv beta iota delta [bind try_finally try_catch setIsConverting modify].
  rewrite Hrun.
  assert (Hurls : objectURLs w1 = objectURLs w) by (rewrite Hw1; reflexivity).
  assert (Hvu : videoURL w1 = videoURL w) by (rewrite Hw1; reflexivity).
  assert (Hvr : videoRecorded w1 = videoRecorded w) by (rewrite Hw1; reflexivity).
  assert (Hvc : videoChunksRef w1 = videoChunksRef w) by (rewrite Hw1; reflexivity).
  assert (Hac : audioChunksRef w1 = c :: cs) by (rewrite Hw1; cbn; exact E).
  destruct r as [b|e]; run; cbn; eexists _, _; (split; [reflexivity|]); cbn;
    rewrite Hurls, Hvu, Hvr, Hvc, Hac; repeat split; auto.
  destruct Hcases as [(b' & [= <-] & Hty & _)|[Hflag _]]; auto.
Qed.

Lemma audioRecorder_onstop_publishes_witness :
  exists (w' : World) (artifact : Blob),
    audioRecorder_onstop onlineBrowser loadedClosure (recordingWorld onlineBrowser)
    = (Ok tt, w') /\
    objectURLs w' = [artifact] /\
    audioRecorded w' = true.
Proof.
  destruct (audioRecorder_onstop_publishes onlineBrowser loadedClosure
              (recordingWorld onlineBrowser))
    as (w' & artifact & Hrun & Hurls & _ & Hrec & _).
  - discriminate.
  - exists w', artifact. split; [exact Hrun|]. split; [exact Hurls | exact Hrec].
Defined.

(** X13. When the audio cannot be decoded at all, the audio stop handler
    still publishes: the artifact is the assembled blob untouched, with the
    negotiated type; the conversion-failure message and the fallback flag
    are set, [audioRecorded] is true and the converting indicator is
    cleared. *)
Theorem audioRecorder_onstop_undecodable (br : Browser) (cl : Closure) (w : World) :
  audioChunksRef w <> [] ->
  (forall n : nat,
     exists err : Error,
       decodeAudioData br n (new_Blob (audioChunksRef w) (cl_audioMimeType cl)) = Throw err) ->
  exists w' : World,
    audioRecorder_onstop br cl w = (Ok tt, w') /\
    objectURLs w' = objectURLs w ++ [new_Blob (audioChunksRef w) (cl_audioMimeType cl)] /\
    audioURL w' = Some (length (objectURLs w)) /\
    audioRecorded w' = true /\
    isUsingFallbackAudio w' = true /\
    isConverting w' = false /\
    errorMessage w' = "Failed to convert audio. Using original format."%string.
Proof.
  intros Hchunks Hdec.
  set (original := new_Blob (audioChunksRef w) (cl_audioMimeType cl)) in *.
  destruct (convertToFlac_frame br cl original (with_isConverting true w))
    as (r & w1 & Hrun & Hw1 & _).
  assert (Hthrow : exists e, r = Throw e).
  { destruct r as [b|e]; [|eauto]. exfalso.
    assert (Hsyn : forall n, wavSynthesis br original n <> Ok b).
    { intros n. unfold wavSynthesis. destruct (Hdec n) as [e ->]. discriminate. }
    revert Hrun.
    destruct (window_Flac br) as [flac|] eqn:Hflac;
      [destruct (cl_flacLoaded cl) eqn:Hloaded|].
    - rewrite (convertToFlac_library br cl original _ flac Hflac Hloaded).
      destruct (Hdec (decodeCalls (with_isConverting true w))) as [e ->].
      intros [= Hs _]. now apply Hsyn in Hs.
    - rewrite convertToFlac_no_library by auto. intros [= Hs _]. now apply Hsyn in Hs.
    - rewrite convertToFlac_no_library by auto. intros [= Hs _]. now apply Hsyn in Hs. }
  destruct Hthrow as [e ->].
  unfold audioRecorder_onstop.
  cbv beta iota delta [bind gets].
  fold original.
  destruct (audioChunksRef w) as [|c cs] eqn:E; [contradiction|].
  cbn [length Nat.ltb Nat.leb].
  cbv beta iota delta [bind try_finally try_catch setIsConverting modify].
  rewrite Hrun.
  assert (Hurls : objectURLs w1 = objectURLs w) by (rewrite Hw1; reflexivity).
  run. cbn. eexists. split; [reflexivity|]. cbn. rewrite Hurls. repeat split.
Qed.

Lemma audioRecorder_onstop_undecodable_witness :
  exists w' : World,
    audioRecorder_onstop undecodableBrowser webmClosure (recordingWorld undecodableBrowser)
    = (Ok tt, w') /\
    objectURLs w' = [{| blob_bytes := [26; 69; 223; 163]; blob_type := "audio/webm" |}] /\
    audioRecorded w' = true.
Proof.
  destruct (audioRecorder_onstop_undecodable undecodableBrowser webmClosure
              (recordingWorld undecodableBrowser))
    as (w' & Hrun & Hurls & _ & Hrec & _).
  - discriminate.
  - intros n. eexists. reflexivity.
  - exists w'. split; [exact Hrun|]. split; [exact Hurls | exact Hrec].
Defined.

(** ** The video stop handler *)

(** What the video stop handler does to the artifacts. *)
Lemma mediaRecorder_onstop_urls (br : Browser) (cl : Closure) (w : World) :
  videoChunksRef w <> [] ->
  exists (w' : World) (artifact : Blob),
    mediaRecorder_onstop br cl w = (Ok tt, w') /\
    objectURLs w' = objectURLs w ++ [artifact] /\
    videoURL w' = Some (length (objectURLs w)) /\
    videoRecorded w' = true /\
    audioURL w' = audioURL w /\
    audioRecorded w' = audioRecorded w /\
    audioChunksRef w' = audioChunksRef w.
Proof.
  intros Hchunks.
  unfold mediaRecorder_onstop. cbv beta iota delta [bind gets].
  destruct (videoChunksRef w) as [|c cs] eqn:E; [contradiction|].
  cbn [length Nat.ltb Nat.leb].
  destruct (String.eqb (cl_videoMimeType cl) "video/mp4").
  - run. cbn. eexists _, _. split; [reflexivity|]. cbn. repeat split.
  - unfold convertToMp4. run. cbn.
    destruct (Blob_arrayBuffer br _) as [err|]; cbn;
      eexists _, _; (split; [reflexivity|]); cbn; repeat split.
Qed.

(** X14. With a non-empty video buffer the video stop handler always returns
    normally and publishes exactly one new object URL, which [videoURL] then
    names, and [videoRecorded] is true.  On every path the published bytes
    are the concatenation of the buffered chunks; the type is 'video/mp4',
    or the negotiated type together with the warning message.  The handler
    raises the converting indicator and never clears it; the audio side and
    both chunk buffers are left as they were. *)
Theorem mediaRecorder_onstop_publishes (br : Browser) (cl : Closure) (w : World) :
  videoChunksRef w <> [] ->
  exists (w' : World) (artifact : Blob),
    mediaRecorder_onstop br cl w = (Ok tt, w') /\
    objectURLs w' = objectURLs w ++ [artifact] /\
    videoURL w' = Some (length (objectURLs w)) /\
    videoRecorded w' = true /\
    blob_bytes artifact = flat_map blob_bytes (videoChunksRef w) /\
    (blob_type artifact = "video/mp4"%string \/
     (blob_type artifact = cl_videoMimeType cl /\
      errorMessage w'
      = "Failed to convert video to MP4. Using original format."%string)) /\
    isConverting w' = true /\
    audioURL w' = audioURL w /\
    audioRecorded w' = audioRecorded w /\
    isUsingFallbackAudio w' = isUsingFallbackAudio w /\
    videoChunksRef w' = videoChunksRef w /\
    audioChunksRef w' = audioChunksRef w.
Proof.
  intros Hchunks.
  unfold mediaRecorder_onstop. cbv beta iota delta [bind gets].
  destruct (videoChunksRef w) as [|c cs] eqn:E; [contradiction|].
  cbn [length Nat.ltb Nat.leb].
  destruct (String.eqb (cl_videoMimeType cl) "video/mp4") eqn:Hmp4.
  - apply String.eqb_eq in Hmp4. run. cbn. eexists _, _. split; [reflexivity|]. cbn.
    rewrite E, Hmp4. repeat split; auto.
  - unfold convertToMp4. run. cbn.
    destruct (Blob_arrayBuffer br _) as [err|]; cbn;
      eexists _, _; (split; [reflexivity|]); cbn; rewrite E; repeat split; auto.
Qed.

Lemma mediaRecorder_onstop_publishes_witness :
  exists (w' : World) (artifact : Blob),
    mediaRecorder_onstop onlineBrowser loadedClosure (recordingWorld onlineBrowser)
    = (Ok tt, w') /\
    objectURLs w' = [artifact] /\
    blob_bytes artifact = [26; 69; 223; 163] /\
    isConverting w' = true.
Proof.
  destruct (mediaRecorder_onstop_publishes onlineBrowser loadedClosure
              (recordingWorld onlineBrowser))
    as (w' & artifact & Hrun & Hurls & _ & _ & Hbytes & _ & Hconv & _).
  - discriminate.
  - exists w', artifact. split; [exact Hrun|]. split; [exact Hurls|].
    split; [exact Hbytes | exact Hconv].
Defined.

(** X15. With a non-empty video buffer, a negotiated type other than
    'video/mp4' and a readable blob, the conversion only relabels: the
    published blob has the bytes of the buffered chunks and the type
    'video/mp4', the blob is read exactly once, and the error message is
    left as it was. *)
Theorem mediaRecorder_onstop_relabels (br : Browser) (cl : Closure) (w : World) :
  videoChunksRef w <> [] ->
  cl_videoMimeType cl <> "video/mp4"%string ->
  Blob_arrayBuffer br (new_Blob (videoChunksRef w) (cl_videoMimeType cl)) = None ->
  exists w' : World,
    mediaRecorder_onstop br cl w = (Ok tt, w') /\
    objectURLs w'
    = objectURLs w ++ [{| blob_bytes := flat_map blob_bytes (videoChunksRef w);
                          blob_type := "video/mp4" |}] /\
    videoURL w' = Some (length (objectURLs w)) /\
    videoRecorded w' = true /\
    calls w' = calls w ++ [arrayBuffer_call (new_Blob (videoChunksRef w) (cl_videoMimeType cl))] /\
    errorMessage w' = errorMessage w.
Proof.
  intros Hchunks Hnot Hread.
  unfold mediaRecorder_onstop. cbv beta iota delta [bind gets].
  destruct (videoChunksRef w) as [|c cs] eqn:E; [contradiction|].
  cbn [length Nat.ltb Nat.leb].
  apply String.eqb_neq in Hnot. rewrite Hnot.
  unfold convertToMp4. run. cbn. rewrite Hread. cbn.
  eexists. split; [reflexivity|]. cbn. repeat split.
Qed.

Lemma mediaRecorder_onstop_relabels_witness :
  exists w' : World,
    mediaRecorder_onstop onlineBrowser loadedClosure (recordingWorld onlineBrowser)
    = (Ok tt, w') /\
    objectURLs w' = [{| blob_bytes := [26; 69; 223; 163]; blob_type := "video/mp4" |}].
Proof.
  destruct (mediaRecorder_onstop_relabels onlineBrowser loadedClosure
              (recordingWorld onlineBrowser))
    as (w' & Hrun & Hurls & _).
  - discriminate.
  - discriminate.
  - reflexivity.
  - exists w'. split; [exact Hrun | exact Hurls].
Defined.

(** ** The chunk buffers *)

Lemma deliver_video (datas : list Blob) (w : World) :
  deliver mediaRecorder_ondataavailable datas w
  = (Ok tt, with_videoChunksRef (videoChunksRef w ++ nonempty_chunks datas) w).
Proof.
  revert w. induction datas as [|data rest IH]; intros w.
  - cbn. unfold ret. destruct w. unfold with_videoChunksRef. cbn. now rewrite app_nil_r.
  - cbn [deliver]. unfold bind, mediaRecorder_ondataavailable, nonempty_chunks.
    rewrite filter_cons.
    destruct (Nat.ltb_spec 0 (Blob_size data)) as [Hpos|Hzero].
    + rewrite decide_True by assumption. unfold modify. rewrite IH.
      unfold with_videoChunksRef, nonempty_chunks. cbn. now rewrite <- app_assoc.
    + rewrite decide_False by lia. unfold ret. apply IH.
Qed.

Lemma deliver_audio (datas : list Blob) (w : World) :
  deliver audioRecorder_ondataavailable datas w
  = (Ok tt, with_audioChunksRef (audioChunksRef w ++ nonempty_chunks datas) w).
Proof.
  revert w. induction datas as [|data rest IH]; intros w.
  - cbn. unfold ret. destruct w. unfold with_audioChunksRef. cbn. now rewrite app_nil_r.
  - cbn [deliver]. unfold bind, audioRecorder_ondataavailable, nonempty_chunks.
    rewrite filter_cons.
    destruct (Nat.ltb_spec 0 (Blob_size data)) as [Hpos|Hzero].
    + rewrite decide_True by assumption. unfold modify. rewrite IH.
      unfold with_audioChunksRef, nonempty_chunks. cbn. now rewrite <- app_assoc.
    + rewrite decide_False by lia. unfold ret. apply IH.
Qed.

Lemma flat_map_nonempty_chunks (datas : list Blob) :
  flat_map blob_bytes (nonempty_chunks datas) = flat_map blob_bytes datas.
Proof.
  unfold nonempty_chunks. induction datas as [|data rest IH]; [reflexivity|].
  rewrite filter_cons. cbn [flat_map].
  destruct (decide (0 < Blob_size data)%nat) as [Hpos|Hzero].
  - cbn [flat_map]. now rewrite IH.
  - rewrite IH. unfold Blob_size in Hzero.
    destruct (blob_bytes data); [reflexivity | simpl in Hzero; lia].
Qed.

(** X16. A run of [dataavailable] events changes nothing but the buffer of
    its own recorder, to which it appends, in order, exactly the chunks of
    positive size: every chunk appended is non-empty, and the bytes appended
    are the bytes delivered. *)
Theorem ondataavailable_buffers (datas : list Blob) (w : World) :
  let nonempty := Forall (fun data => (0 < Blob_size data)%nat) in
  deliver mediaRecorder_ondataavailable datas w
  = (Ok tt, with_videoChunksRef (videoChunksRef w ++ nonempty_chunks datas) w) /\
  deliver audioRecorder_ondataavailable datas w
  = (Ok tt, with_audioChunksRef (audioChunksRef w ++ nonempty_chunks datas) w) /\
  flat_map blob_bytes (nonempty_chunks datas) = flat_map blob_bytes datas /\
  nonempty (nonempty_chunks datas).
Proof.
  intros nonempty.
  assert (Hne : nonempty (nonempty_chunks datas)).
  { unfold nonempty, nonempty_chunks. apply Forall_forall. intros data Hin.
    apply list_elem_of_filter in Hin. tauto. }
  split; [apply deliver_video|]. split; [apply deliver_audio|].
  split; [apply flat_map_nonempty_chunks | exact Hne].
Qed.

(** ** Starting *)

Lemma new_MediaRecorder_run (br : Browser) (s : MediaStream) (m : string) (w : World) :
  MediaRecorder_new br s m = None ->
  new_MediaRecorder br s m w
  = (Ok (length (recorders w)),
     with_recorders
       (recorders w ++ [{| state := inactive; stream := s; mimeType := m;
                           handlers := None |}]) w).
Proof. intros H. unfold new_MediaRecorder. now rewrite H. Qed.

Lemma new_MediaRecorder_throws (br : Browser) (s : MediaStream) (m : string) (w : World)
    (err : Error) :
  MediaRecorder_new br s m = Some err -> new_MediaRecorder br s m w = (Throw err, w).
Proof. intros H. unfold new_MediaRecorder. now rewrite H. Qed.

Lemma alter_last {A : Type} (f : A -> A) (l : list A) (x : A) :
  alter f (length l) (l ++ [x]) = l ++ [f x].
Proof.
  rewrite <- (Nat.add_0_r (length l)) at 1. now rewrite alter_app_r.
Qed.

Lemma alter_last_but_one {A : Type} (f : A -> A) (l : list A) (x y : A) :
  alter f (length l) (l ++ [x; y]) = l ++ [f x; y].
Proof.
  rewrite <- (Nat.add_0_r (length l)) at 1. now rewrite alter_app_r.
Qed.

Lemma alter_last_of_two {A : Type} (f : A -> A) (l : list A) (x y : A) :
  alter f (S (length l)) (l ++ [x; y]) = l ++ [x; f y].
Proof.
  rewrite <- (Nat.add_1_r (length l)). now rewrite alter_app_r.
Qed.

Lemma start_run (br : Browser) (r : nat) (t : Z) (w : World) :
  start br r t w
  = match MediaRecorder_start br r with
    | Some err => (Throw err, with_calls (calls w ++ [start_call r t]) w)
    | None =>
        (Ok tt,
         with_recorders (alter (set_state recording) r (recorders w))
           (with_calls (calls w ++ [start_call r t]) w))
    end.
Proof. unfold start. run. destruct (MediaRecorder_start br r); reflexivity. Qed.

Lemma assign_handlers_run (r : nat) (h : Handlers) (w : World) :
  assign_handlers r h w
  = (Ok tt, with_recorders (alter (set_handlers h) r (recorders w)) w).
Proof. reflexivity. Qed.

Lemma length_snoc {A : Type} (l : list A) (x : A) : length (l ++ [x]) = S (length l).
Proof. rewrite length_app. simpl. lia. Qed.

(** Simplify the projections of an updated world, leaving the calls into the
    browser and the list operations folded. *)
Ltac fields :=
  cbn -[new_MediaRecorder assign_handlers start stop alter length app String.append
        isActive].

(** The run of a [startRecording] in which nothing throws, step by step.
    The arguments are the hypotheses on the stream, its audio tracks, the two
    constructors and the two [start] calls. *)
Ltac start_run_ok Hstream Haudio Hnew1 Hnew2 Hstart1 Hstart2 :=
  unfold startRecording; cbv beta iota delta [bind gets modify try_catch];
  rewrite Hstream; fields;
  rewrite new_MediaRecorder_run by exact Hnew1; fields;
  rewrite assign_handlers_run; fields; rewrite alter_last;
  rewrite Haudio; unfold ret; fields;
  rewrite new_MediaRecorder_run by exact Hnew2; fields;
  rewrite assign_handlers_run; fields;
  rewrite length_snoc, <- app_assoc; cbn [app]; rewrite alter_last_of_two;
  rewrite start_run, Hstart1; fields; rewrite alter_last_but_one;
  rewrite start_run, Hstart2; fields.

(** X17. With a retained stream that has an audio track, and constructors
    and [start] calls that do not throw, [startRecording] empties both chunk
    buffers, constructs two recorders, the first on the whole stream with
    the selected video type and the second on a stream made of the first
    audio track alone with the selected audio type, installs the handlers
    closed over the current types and [flacLoaded], starts the first and
    then the second with a timeslice of 1000, and sets [isRecording] and an
    empty error message. *)
Theorem startRecording_starts_both (br : Browser) (w : World) (stream : MediaStream)
    (audioTrack : nat) (others : list nat) :
  streamRef w = Some stream ->
  audioTracks stream = audioTrack :: others ->
  MediaRecorder_new br stream (videoMimeType w) = None ->
  MediaRecorder_new br (new_MediaStream audioTrack) (audioMimeType w) = None ->
  MediaRecorder_start br (length (recorders w)) = None ->
  MediaRecorder_start br (S (length (recorders w))) = None ->
  let n := length (recorders w) in
  let cl := {| cl_videoMimeType := videoMimeType w; cl_audioMimeType := audioMimeType w;
               cl_flacLoaded := flacLoaded w |} in
  exists w' : World,
    startRecording br w = (Ok tt, w') /\
    isRecording w' = true /\
    errorMessage w' = EmptyString /\
    videoChunksRef w' = [] /\
    audioChunksRef w' = [] /\
    mediaRecorderRef w' = Some n /\
    audioRecorderRef w' = Some (S n) /\
    recorders w'
    = recorders w
      ++ [ {| state := recording; stream := stream; mimeType := videoMimeType w;
              handlers := Some (VideoHandlers cl) |};
           {| state := recording; stream := new_MediaStream audioTrack;
              mimeType := audioMimeType w; handlers := Some (AudioHandlers cl) |} ] /\
    calls w' = calls w ++ [start_call n 1000; start_call (S n) 1000].
Proof.
  intros Hstream Haudio Hnew1 Hnew2 Hstart1 Hstart2 n cl.
  start_run_ok Hstream Haudio Hnew1 Hnew2 Hstart1 Hstart2.
  rewrite alter_last_of_two.
  unfold setErrorMessage, modify. fields.
  eexists. split; [reflexivity|]. fields. rewrite <- app_assoc. repeat split.
Qed.

Lemma startRecording_starts_both_witness :
  exists w' : World,
    startRecording onlineBrowser (snd (setupCamera onlineBrowser initialWorld)) = (Ok tt, w') /\
    isRecording w' = true /\
    mediaRecorderRef w' = Some 0%nat /\
    audioRecorderRef w' = Some 1%nat.
Proof.
  destruct (startRecording_starts_both onlineBrowser
              (snd (setupCamera onlineBrowser initialWorld)) camera 0%nat [])
    as (w' & Hrun & Hrec & _ & _ & _ & Hv & Ha & _); try reflexivity.
  exists w'. repeat split; assumption.
Defined.

(** X18. When the retained stream has no audio track, [startRecording] has
    already emptied both buffers and constructed the video recorder, which
    stays referenced, inactive and never started; the error message reports
    the missing track and [isRecording] keeps its value. *)
Theorem startRecording_without_audio_track (br : Browser) (w : World) (stream : MediaStream) :
  streamRef w = Some stream ->
  audioTracks stream = [] ->
  MediaRecorder_new br stream (videoMimeType w) = None ->
  let cl := {| cl_videoMimeType := videoMimeType w; cl_audioMimeType := audioMimeType w;
               cl_flacLoaded := flacLoaded w |} in
  exists w' : World,
    startRecording br w = (Ok tt, w') /\
    errorMessage w' = "Recording error: No audio track found in the stream"%string /\
    isRecording w' = isRecording w /\
    videoChunksRef w' = [] /\
    audioChunksRef w' = [] /\
    mediaRecorderRef w' = Some (length (recorders w)) /\
    audioRecorderRef w' = audioRecorderRef w /\
    recorders w'
    = recorders w
      ++ [ {| state := inactive; stream := stream; mimeType := videoMimeType w;
              handlers := Some (VideoHandlers cl) |} ] /\
    calls w' = calls w.
Proof.
  intros Hstream Haudio Hnew1 cl.
  unfold startRecording. cbv beta iota delta [bind gets modify try_catch].
  rewrite Hstream. fields.
  rewrite new_MediaRecorder_run by exact Hnew1. fields.
  rewrite assign_handlers_run. fields. rewrite alter_last.
  rewrite Haudio. unfold throw, setErrorMessage, modify. fields.
  eexists. split; [reflexivity|]. fields. repeat split.
Qed.

Lemma startRecording_without_audio_track_witness :
  exists w' : World,
    startRecording offlineBrowser
      (with_streamRef (Some {| audioTracks := []; videoTracks := [1%nat] |}) initialWorld)
    = (Ok tt, w') /\
    errorMessage w' = "Recording error: No audio track found in the stream"%string /\
    mediaRecorderRef w' = Some 0%nat.
Proof.
  destruct (startRecording_without_audio_track offlineBrowser
              (with_streamRef (Some {| audioTracks := []; videoTracks := [1%nat] |})
                 initialWorld)
              {| audioTracks := []; videoTracks := [1%nat] |})
    as (w' & Hrun & Hmsg & _ & _ & _ & Href & _); try reflexivity.
  exists w'. repeat split; assumption.
Defined.

(** X20. When the second [start] throws, the first recorder has already been
    started and is left recording and referenced, while [isRecording] keeps
    its value and the error message reports the failure. *)
Theorem startRecording_second_start_throws (br : Browser) (w : World) (stream : MediaStream)
    (audioTrack : nat) (others : list nat) (err : Error) :
  streamRef w = Some stream ->
  audioTracks stream = audioTrack :: others ->
  MediaRecorder_new br stream (videoMimeType w) = None ->
  MediaRecorder_new br (new_MediaStream audioTrack) (audioMimeType w) = None ->
  MediaRecorder_start br (length (recorders w)) = None ->
  MediaRecorder_start br (S (length (recorders w))) = Some err ->
  let n := length (recorders w) in
  let cl := {| cl_videoMimeType := videoMimeType w; cl_audioMimeType := audioMimeType w;
               cl_flacLoaded := flacLoaded w |} in
  exists w' : World,
    startRecording br w = (Ok tt, w') /\
    isRecording w' = isRecording w /\
    errorMessage w' = String.append "Recording error: " (message err) /\
    mediaRecorderRef w' = Some n /\
    audioRecorderRef w' = Some (S n) /\
    recorders w'
    = recorders w
      ++ [ {| state := recording; stream := stream; mimeType := videoMimeType w;
              handlers := Some (VideoHandlers cl) |};
           {| state := inactive; stream := new_MediaStream audioTrack;
              mimeType := audioMimeType w; handlers := Some (AudioHandlers cl) |} ] /\
    calls w' = calls w ++ [start_call n 1000; start_call (S n) 1000].
Proof.
  intros Hstream Haudio Hnew1 Hnew2 Hstart1 Hstart2 n cl.
  start_run_ok Hstream Haudio Hnew1 Hnew2 Hstart1 Hstart2.
  unfold setErrorMessage, modify. fields.
  eexists. split; [reflexivity|]. fields. rewrite <- app_assoc. repeat split.
Qed.

Lemma startRecording_second_start_throws_witness :
  exists w' : World,
    startRecording halfStartBrowser (snd (setupCamera halfStartBrowser initialWorld))
    = (Ok tt, w') /\
    isRecording w' = false /\
    state <$> recorders w' !! 0%nat = Some recording.
Proof.
  destruct (startRecording_second_start_throws halfStartBrowser
              (snd (setupCamera halfStartBrowser initialWorld)) camera 0%nat []
              {| name := "NotSupportedError"; message := "cannot start" |})
    as (w' & Hrun & Hrec & _ & _ & _ & Hrs & _); try reflexivity.
  exists w'. split; [exact Hrun|]. split; [exact Hrec|]. now rewrite Hrs.
Defined.

(** X19. With a retained stream [startRecording] never throws and always
    empties both chunk buffers.  Either it ends with [isRecording] true and
    an empty error message, or [isRecording] keeps its value and the error
    message is "Recording error: " followed by the message of the error
    caught.  The artifacts of an earlier recording (object URLs, [videoURL],
    [audioURL] and the recorded flags) are never reset. *)
Theorem startRecording_outcomes (br : Browser) (w : World) (stream : MediaStream) :
  streamRef w = Some stream ->
  exists w' : World,
    startRecording br w = (Ok tt, w') /\
    videoChunksRef w' = [] /\
    audioChunksRef w' = [] /\
    streamRef w' = Some stream /\
    objectURLs w' = objectURLs w /\
    videoURL w' = videoURL w /\
    audioURL w' = audioURL w /\
    videoRecorded w' = videoRecorded w /\
    audioRecorded w' = audioRecorded w /\
    ((isRecording w' = true /\ errorMessage w' = EmptyString) \/
     (isRecording w' = isRecording w /\
      exists err : Error,
        errorMessage w' = String.append "Recording error: " (message err))).
Proof.
  intros Hstream.
  unfold startRecording. cbv beta iota delta [bind gets modify try_catch].
  rewrite Hstream. fields.
  destruct (MediaRecorder_new br stream (videoMimeType w)) as [e1|] eqn:Hnew1.
  { rewrite (new_MediaRecorder_throws _ _ _ _ e1) by exact Hnew1.
    unfold setErrorMessage, modify. fields.
    eexists. split; [reflexivity|]. fields. repeat split; auto.
    right. split; [reflexivity | eexists; reflexivity]. }
  rewrite new_MediaRecorder_run by exact Hnew1. fields.
  rewrite assign_handlers_run. fields.
  destruct (audioTracks stream) as [|audioTrack others].
  { unfold throw, setErrorMessage, modify. fields.
    eexists. split; [reflexivity|]. fields. repeat split; auto.
    right. split; [reflexivity|].
    exists (new_Error "No audio track found in the stream"). reflexivity. }
  unfold ret. fields.
  destruct (MediaRecorder_new br (new_MediaStream audioTrack) (audioMimeType w))
    as [e2|] eqn:Hnew2.
  { rewrite (new_MediaRecorder_throws _ _ _ _ e2) by exact Hnew2.
    unfold setErrorMessage, modify. fields.
    eexists. split; [reflexivity|]. fields. repeat split; auto.
    right. split; [reflexivity | eexists; reflexivity]. }
  rewrite new_MediaRecorder_run by exact Hnew2. fields.
  rewrite assign_handlers_run. fields.
  rewrite start_run.
  destruct (MediaRecorder_start br (length (recorders w))) as [e3|].
  { unfold setErrorMessage, modify. fields.
    eexists. split; [reflexivity|]. fields. repeat split; auto.
    right. split; [reflexivity | eexists; reflexivity]. }
  fields. rewrite start_run.
  destruct (MediaRecorder_start br _) as [e4|].
  { unfold setErrorMessage, modify. fields.
    eexists. split; [reflexivity|]. fields. repeat split; auto.
    right. split; [reflexivity | eexists; reflexivity]. }
  unfold setErrorMessage, setIsRecording, modify. fields.
  eexists. split; [reflexivity|]. fields. repeat split; auto.
Qed.

Lemma startRecording_outcomes_witness :
  exists w' : World,
    startRecording halfStartBrowser (snd (setupCamera halfStartBrowser initialWorld))
    = (Ok tt, w') /\
    videoChunksRef w' = [] /\
    audioChunksRef w' = [].
Proof.
  destruct (startRecording_outcomes halfStartBrowser
              (snd (setupCamera halfStartBrowser initialWorld)) camera)
    as (w' & Hrun & Hv & Ha & _); [reflexivity|].
  exists w'. repeat split; assumption.
Defined.

(** ** Starting, then stopping *)

(** X21. After a successful [startRecording], when neither [stop] throws,
    [stopRecording] stops the video recorder and then the audio recorder,
    each exactly once, leaves both inactive with their handlers in place,
    and sets [isRecording] to false; the trace of the cycle is the two
    starts followed by the two stops. *)
Theorem start_then_stop (br : Browser) (w : World) (stream : MediaStream)
    (audioTrack : nat) (others : list nat) :
  streamRef w = Some stream ->
  audioTracks stream = audioTrack :: others ->
  MediaRecorder_new br stream (videoMimeType w) = None ->
  MediaRecorder_new br (new_MediaStream audioTrack) (audioMimeType w) = None ->
  MediaRecorder_start br (length (recorders w)) = None ->
  MediaRecorder_start br (S (length (recorders w))) = None ->
  MediaRecorder_stop br (length (recorders w)) = None ->
  MediaRecorder_stop br (S (length (recorders w))) = None ->
  let n := length (recorders w) in
  let cl := {| cl_videoMimeType := videoMimeType w; cl_audioMimeType := audioMimeType w;
               cl_flacLoaded := flacLoaded w |} in
  exists w' : World,
    stopRecording br (snd (startRecording br w)) = (Ok tt, w') /\
    isRecording w' = false /\
    errorMessage w' = EmptyString /\
    recorders w'
    = recorders w
      ++ [ {| state := inactive; stream := stream; mimeType := videoMimeType w;
              handlers := Some (VideoHandlers cl) |};
           {| state := inactive; stream := new_MediaStream audioTrack;
              mimeType := audioMimeType w; handlers := Some (AudioHandlers cl) |} ] /\
    calls w'
    = calls w ++ [start_call n 1000; start_call (S n) 1000; stop_call n; stop_call (S n)].
Proof.
  intros Hstream Haudio Hnew1 Hnew2 Hstart1 Hstart2 Hstop1 Hstop2 n cl.
  start_run_ok Hstream Haudio Hnew1 Hnew2 Hstart1 Hstart2.
  rewrite alter_last_of_two.
  unfold setErrorMessage, modify. fields.
  match goal with |- exists w', stopRecording br ?W = _ /\ _ => set (w1 := W) end.
  assert (Hmsg : errorMessage w1 = EmptyString) by reflexivity.
  assert (Hvref : mediaRecorderRef w1 = Some (length (recorders w))) by reflexivity.
  assert (Haref : audioRecorderRef w1 = Some (S (length (recorders w)))) by reflexivity.
  assert (Hrecs : recorders w1
                  = recorders w
                    ++ [ {| state := recording; stream := stream;
                            mimeType := videoMimeType w;
                            handlers := Some (VideoHandlers cl) |};
                         {| state := recording; stream := new_MediaStream audioTrack;
                            mimeType := audioMimeType w;
                            handlers := Some (AudioHandlers cl) |} ]) by reflexivity.
  assert (Hcalls : calls w1
                   = calls w ++ [start_call n 1000; start_call (S n) 1000])
    by (subst w1; fields; now rewrite <- app_assoc).
  clearbody w1.
  unfold stopRecording. cbv beta iota delta [try_catch bind].
  rewrite (stopIfRecording_run br mediaRecorderRef w1), Hvref.
  assert (Hact1 : isActive (Some (length (recorders w))) w1 = true).
  { unfold isActive, recorder_state. rewrite Hrecs.
    rewrite (list_lookup_middle _ _ _ (length (recorders w))) by reflexivity. reflexivity. }
  rewrite Hact1, stop_run, Hstop1.
  rewrite (stopIfRecording_run br audioRecorderRef _). fields. rewrite Haref.
  assert (Hact2 : isActive (Some (S (length (recorders w))))
                    (with_recorders
                       (alter (set_state inactive) (length (recorders w)) (recorders w1))
                       (with_calls (calls w1 ++ [stop_call (length (recorders w))]) w1))
                  = true).
  { unfold isActive, recorder_state. fields. rewrite Hrecs, alter_last_but_one.
    change (?l ++ [?a; ?b]) with (l ++ [a] ++ [b]). rewrite app_assoc.
    rewrite (list_lookup_middle _ _ _ (S (length (recorders w))))
      by (now rewrite length_snoc).
    reflexivity. }
  rewrite Hact2, stop_run, Hstop2.
  unfold setIsRecording, modify. fields.
  eexists. split; [reflexivity|]. fields.
  rewrite Hmsg, Hrecs, Hcalls, alter_last_but_one, alter_last_of_two, <- !app_assoc.
  repeat split.
Qed.


Lemma start_then_stop_witness :
  exists w' : World,
    stopRecording onlineBrowser
      (snd (startRecording onlineBrowser (snd (setupCamera onlineBrowser initialWorld))))
    = (Ok tt, w') /\
    isRecording w' = false /\
    state <$> recorders w' = [inactive; inactive].
Proof.
  destruct (start_then_stop onlineBrowser (snd (setupCamera onlineBrowser initialWorld))
              camera 0%nat [])
    as (w' & Hrun & Hrec & _ & Hrs & _); try reflexivity.
  exists w'. split; [exact Hrun|]. split; [exact Hrec|]. now rewrite Hrs.
Defined.

(** ** Setting up the camera *)

Lemma setupCamera_run (br : Browser) (w : World) :
  exists w' : World,
    setupCamera br w = (Ok tt, w') /\
    videoMimeType w'
    = default (videoMimeType w) (find (MediaRecorder_isTypeSupported br) videoTypes) /\
    audioMimeType w'
    = default (audioMimeType w) (find (MediaRecorder_isTypeSupported br) audioTypes) /\
    flacLoaded w' = match loadFlacEncoder br with
                    | Ok _ => true
                    | Throw _ => flacLoaded w
                    end /\
    isUsingFallbackAudio w' = match loadFlacEncoder br with
                              | Ok _ => isUsingFallbackAudio w
                              | Throw _ => true
                              end /\
    match getUserMedia br with
    | Ok stream => streamRef w' = Some stream /\ errorMessage w' = errorMessage w
    | Throw err =>
        streamRef w' = streamRef w /\
        errorMessage w'
        = if String.eqb (name err) "NotAllowedError"
          then "Permission denied. Please allow camera and microphone access."%string
          else if String.eqb (name err) "NotFoundError"
               then "Camera or microphone not found. Please check your devices."%string
               else String.append "Error accessing media: " (message err)
    end.
Proof.
  unfold setupCamera, tryLoadFlacEncoder.
  cbv beta iota delta [try_catch bind lift setFlacLoaded setIsUsingFallbackAudio modify].
  destruct (loadFlacEncoder br) as [[]|e0].
  - destruct (negotiate_run br (with_flacLoaded true w))
      as (w1 & -> & Hv & Ha & _ & Hl & Hf & Hs & Hm).
    destruct (getUserMedia br) as [s|e].
    + eexists. split; [reflexivity|]. cbn. rewrite Hv, Ha, Hl, Hf, Hm. repeat split.
    + unfold setErrorMessage, modify.
      destruct (String.eqb (name e) "NotAllowedError");
        [|destruct (String.eqb (name e) "NotFoundError")];
        (eexists; split; [reflexivity|]); cbn; rewrite Hv, Ha, Hl, Hf, Hs; repeat split.
  - destruct (negotiate_run br (with_isUsingFallbackAudio true w))
      as (w1 & -> & Hv & Ha & _ & Hl & Hf & Hs & Hm).
    destruct (getUserMedia br) as [s|e].
    + eexists. split; [reflexivity|]. cbn. rewrite Hv, Ha, Hl, Hf, Hm. repeat split.
    + unfold setErrorMessage, modify.
      destruct (String.eqb (name e) "NotAllowedError");
        [|destruct (String.eqb (name e) "NotFoundError")];
        (eexists; split; [reflexivity|]); cbn; rewrite Hv, Ha, Hl, Hf, Hs; repeat split.
Qed.

(** X22. [setupCamera] never throws.  When the capture request succeeds the
    stream is retained and the error message is left alone, whether or not
    the encoder loaded; when it fails the retained stream is left alone and
    the message is chosen by the name of the error: permission denied for
    NotAllowedError, device not found for NotFoundError, and otherwise
    "Error accessing media: " followed by the message.  [flacLoaded] is set
    when the bootstrap resolves and keeps its value when it rejects, in which
    case the fallback flag is set. *)
Theorem setupCamera_outcome (br : Browser) (w : World) :
  exists w' : World,
    setupCamera br w = (Ok tt, w') /\
    flacLoaded w' = match loadFlacEncoder br with
                    | Ok _ => true
                    | Throw _ => flacLoaded w
                    end /\
    isUsingFallbackAudio w' = match loadFlacEncoder br with
                              | Ok _ => isUsingFallbackAudio w
                              | Throw _ => true
                              end /\
    match getUserMedia br with
    | Ok stream => streamRef w' = Some stream /\ errorMessage w' = errorMessage w
    | Throw err =>
        streamRef w' = streamRef w /\
        errorMessage w'
        = if String.eqb (name err) "NotAllowedError"
          then "Permission denied. Please allow camera and microphone access."%string
          else if String.eqb (name err) "NotFoundError"
               then "Camera or microphone not found. Please check your devices."%string
               else String.append "Error accessing media: " (message err)
    end.
Proof.
  destruct (setupCamera_run br w) as (w' & Hrun & _ & _ & Hl & Hf & Hs).
  exists w'. auto.
Qed.

(** X23. Running [setupCamera] again, as the effect does whenever a download
    URL changes, selects the same container types as the first run. *)
Theorem setupCamera_again_same_types (br : Browser) (w : World) :
  let w1 := snd (setupCamera br w) in
  let w2 := snd (setupCamera br w1) in
  videoMimeType w2 = videoMimeType w1 /\ audioMimeType w2 = audioMimeType w1.
Proof.
  intros w1 w2. subst w1 w2.
  destruct (setupCamera_run br w) as (w1 & Hrun1 & Hv1 & Ha1 & _).
  rewrite Hrun1. cbn [snd].
  destruct (setupCamera_run br w1) as (w2 & Hrun2 & Hv2 & Ha2 & _).
  rewrite Hrun2. cbn [snd]. rewrite Hv2, Ha2.
  destruct (find _ videoTypes), (find _ audioTypes); cbn in *; auto.
Qed.

(** * The encoder bootstrap *)

(** X24. The bootstrap promise resolves only if [window.Flac] was found:
    when the promise is created, or in the timeout that follows the load of
    the first script, or in the one that follows the load of the second
    script after the first failed to load. *)
Theorem loadFlacEncoder_resolves_only_with_global (d : Loader) :
  fst (loadFlacEncoder_promise d) = resolved ->
  Flac_at_call d = true \/
  (primary_event d = script_onload /\ exists Flac, Flac_after_primary d = Some Flac) \/
  (primary_event d = script_onerror /\ alternative_event d = script_onload /\
   Flac_after_alternative d = true).
Proof.
  unfold loadFlacEncoder_promise.
  destruct (Flac_at_call d); [auto|].
  destruct (primary_event d); cbn [fst].
  - destruct (Flac_after_primary d) as [Flac|]; [eauto | discriminate].
  - destruct (alternative_event d); [|discriminate].
    destruct (Flac_after_alternative d); [auto | discriminate].
Qed.

Lemma loadFlacEncoder_resolves_only_with_global_witness :
  Flac_at_call
    {| Flac_at_call := false; primary_event := script_onerror; Flac_after_primary := None;
       alternative_event := script_onload; Flac_after_alternative := true |} = true \/
  (script_onerror = script_onload /\ exists Flac : FlacGlobal, None = Some Flac) \/
  (script_onerror = script_onerror /\ script_onload = script_onload /\ true = true).
Proof.
  apply (loadFlacEncoder_resolves_only_with_global
           {| Flac_at_call := false; primary_event := script_onerror;
              Flac_after_primary := None;
              alternative_event := script_onload; Flac_after_alternative := true |}).
  reflexivity.
Defined.

Lemma sources_differ : primary_src <> alternative_src.
Proof. unfold primary_src, alternative_src. discriminate. Qed.

(** X25. The second source is requested exactly when [window.Flac] was
    absent at the call and the first script failed to load, and the first
    source exactly when [window.Flac] was absent at the call; no other script
    is appended.  In particular a first script that loads without defining
    [window.Flac] makes the promise reject without the second source being
    tried. *)
Theorem loadFlacEncoder_sources (d : Loader) :
  let scripts := snd (loadFlacEncoder_promise d) in
  (In alternative_src scripts
   <-> Flac_at_call d = false /\ primary_event d = script_onerror) /\
  (In primary_src scripts <-> Flac_at_call d = false) /\
  (forall src, In src scripts -> src = primary_src \/ src = alternative_src) /\
  (length scripts <= 2)%nat /\
  (Flac_at_call d = false -> primary_event d = script_onload ->
   Flac_after_primary d = None ->
   loadFlacEncoder_promise d
   = (rejected (new_Error "FLAC library loaded but Flac object not found"),
      [primary_src])).
Proof.
  pose proof sources_differ as Hdiff.
  unfold loadFlacEncoder_promise.
  destruct (Flac_at_call d).
  - cbn [snd In length]. repeat split; try tauto; try discriminate; lia.
  - destruct (primary_event d); cbn [snd In length].
    + split; [|split; [|split; [|split]]].
      * split; [intros [H|[]]; congruence | intros [_ H]; discriminate H].
      * split; auto.
      * intros src [<-|[]]. now left.
      * lia.
      * intros _ _ ->. reflexivity.
    + split; [|split; [|split; [|split]]].
      * split; auto.
      * split; auto.
      * intros src [<-|[<-|[]]]; auto.
      * lia.
      * discriminate.
Qed.

(** X26. The promise never settles exactly when [window.Flac] was absent at
    the call, the first script loaded and defined it with [Flac.onready]
    already a function, and the library calls neither of the handlers that
    lines 25-31 assign. *)
Theorem loadFlacEncoder_pending_iff (d : Loader) :
  fst (loadFlacEncoder_promise d) = pending
  <-> Flac_at_call d = false /\
      primary_event d = script_onload /\
      exists Flac : FlacGlobal,
        Flac_after_primary d = Some Flac /\
        onready_is_function Flac = true /\
        signals Flac = [].
Proof.
  unfold loadFlacEncoder_promise. split.
  - destruct (Flac_at_call d); [discriminate|].
    destruct (primary_event d); cbn [fst].
    + destruct (Flac_after_primary d) as [Flac|]; [|discriminate].
      destruct (onready_is_function Flac) eqn:Hfun; [|discriminate].
      destruct (signals Flac) as [|[|err] rest] eqn:Hsig; try discriminate.
      intros _. repeat split. exists Flac. auto.
    + destruct (alternative_event d); [|discriminate].
      destruct (Flac_after_alternative d); discriminate.
  - intros (-> & -> & Flac & -> & -> & ->). reflexivity.
Qed.

(** * The effect and its cleanup *)

(** [setupCamera] leaves the artifacts and the chunk buffers alone. *)
Lemma setupCamera_frame (br : Browser) (w : World) :
  let w' := snd (setupCamera br w) in
  videoURL w' = videoURL w /\
  audioURL w' = audioURL w /\
  objectURLs w' = objectURLs w /\
  videoRecorded w' = videoRecorded w /\
  audioRecorded w' = audioRecorded w /\
  videoChunksRef w' = videoChunksRef w /\
  audioChunksRef w' = audioChunksRef w.
Proof.
  unfold setupCamera, tryLoadFlacEncoder, negotiate.
  cbv beta iota delta [try_catch bind lift setFlacLoaded setIsUsingFallbackAudio modify
                       setErrorMessage].
  destruct (loadFlacEncoder br) as [[]|e0];
    rewrite probeTypes_video, probeTypes_audio;
    destruct (find _ videoTypes), (find _ audioTypes);
    (destruct (getUserMedia br) as [stream|e];
     [|destruct (String.eqb (name e) "NotAllowedError");
       [|destruct (String.eqb (name e) "NotFoundError")]]);
    cbn; repeat split.
Qed.

Lemma Deps_eqb_false (a b : Deps) :
  dep_videoURL a <> dep_videoURL b \/ dep_audioURL a <> dep_audioURL b ->
  Deps_eqb a b = false.
Proof.
  intros [H|H]; unfold Deps_eqb.
  - now rewrite (bool_decide_false _ H).
  - rewrite (bool_decide_false _ H). apply andb_false_r.
Qed.

Lemma In_revokeIfSet (u : nat) (url : option nat) (urls : list nat) :
  In u (revokeIfSet url urls) <-> In u urls \/ url = Some u.
Proof.
  destruct url as [v|]; cbn.
  - rewrite in_app_iff. cbn. split.
    + intros [H|[->|[]]]; auto.
    + intros [H|[= ->]]; auto.
  - split; [auto | intros [H|H]; [exact H | discriminate]].
Qed.

(** X27. When one of the two download URLs changes while the other still
    names the URL [u] it named when the effect last ran, the cleanup that
    precedes the next run of the effect revokes [u], although the component
    still names it; the effect then runs [setupCamera] again, after [stop]
    was called on every track of the retained stream. *)
Theorem commit_revokes_displayed_url (br : Browser) (p : Mounted) (old : Deps) (u : nat) :
  committed p = Some old ->
  (dep_videoURL old = Some u /\ videoURL (world p) = Some u
   /\ dep_audioURL old <> audioURL (world p)) \/
  (dep_audioURL old = Some u /\ audioURL (world p) = Some u
   /\ dep_videoURL old <> videoURL (world p)) ->
  let p' := commit br p in
  In u (revoked p') /\
  (videoURL (world p') = Some u \/ audioURL (world p') = Some u) /\
  world p' = snd (setupCamera br (world p)) /\
  stoppedTracks p'
  = stoppedTracks p ++ match streamRef (world p) with
                       | Some stream => getTracks stream
                       | None => []
                       end.
Proof.
  intros Hold Hcase p'. subst p'. unfold commit. rewrite Hold.
  destruct (setupCamera_frame br (world p)) as (Hv & Ha & _).
  rewrite Deps_eqb_false by (cbn; tauto).
  cbn [run_effect cleanup world revoked stoppedTracks].
  rewrite Hv, Ha. split; [|split; [|split]].
  - rewrite !In_revokeIfSet. tauto.
  - tauto.
  - reflexivity.
  - destruct (streamRef (world p)); [reflexivity | now rewrite app_nil_r].
Qed.

Lemma commit_revokes_displayed_url_witness :
  In 0%nat (revoked (commit onlineBrowser (bothPublished onlineBrowser))) /\
  videoURL (world (commit onlineBrowser (bothPublished onlineBrowser))) = Some 0%nat.
Proof.
  destruct (commit_revokes_displayed_url onlineBrowser (bothPublished onlineBrowser)
              {| dep_videoURL := Some 0%nat; dep_audioURL := None |} 0%nat)
    as (Hin & [Hv|Ha] & _).
  - reflexivity.
  - left. repeat split. discriminate.
  - split; [exact Hin | exact Hv].
  - split; [exact Hin | reflexivity].
Defined.

(** X28. Take a mounted component whose effect is up to date, whose two
    chunk buffers are non-empty and whose URLs, if any, are handles issued
    earlier.  When the video stop handler runs, a render follows, the audio
    stop handler runs and a render follows, both artifacts are published and
    named by [videoURL] and [audioURL], and the URL of the video, published
    first, has been revoked by the cleanup that preceded the last run of the
    effect, while the URL of the audio has not. *)
Theorem first_published_url_is_revoked (br : Browser) (cl cl' : Closure) (p : Mounted) :
  committed p = Some (current_deps (world p)) ->
  videoChunksRef (world p) <> [] ->
  audioChunksRef (world p) <> [] ->
  (forall u, videoURL (world p) = Some u -> (u < length (objectURLs (world p)))%nat) ->
  (forall u, audioURL (world p) = Some u -> (u < length (objectURLs (world p)))%nat) ->
  (forall u, In u (revoked p) -> (u < length (objectURLs (world p)))%nat) ->
  let n := length (objectURLs (world p)) in
  let p1 := commit br (between_renders (mediaRecorder_onstop br cl) p) in
  let p2 := commit br (between_renders (audioRecorder_onstop br cl') p1) in
  videoURL (world p2) = Some n /\
  videoRecorded (world p2) = true /\
  audioURL (world p2) = Some (S n) /\
  audioRecorded (world p2) = true /\
  length (objectURLs (world p2)) = S (S n) /\
  In n (revoked p2) /\
  ~ In (S n) (revoked p2).
Proof.
  intros Hsync Hvc Hac Hvalid_v Hvalid_a Hvalid_r n p1 p2.
  (* the video handler, then a render *)
  destruct (mediaRecorder_onstop_urls br cl (world p) Hvc)
    as (w1 & art1 & Hrun1 & Hurls1 & Hvurl1 & Hvrec1 & Haurl1 & Harec1 & Hac1).
  assert (Hp1 : world p1 = snd (setupCamera br w1) /\
                committed p1 = Some {| dep_videoURL := Some n;
                                       dep_audioURL := audioURL (world p) |} /\
                revoked p1 = revokeIfSet (audioURL (world p))
                               (revokeIfSet (videoURL (world p)) (revoked p))).
  { subst p1. unfold commit, between_renders. cbn [committed world]. rewrite Hsync, Hrun1.
    cbn [snd]. rewrite Deps_eqb_false.
    - unfold run_effect, current_deps. cbn [world revoked cleanup dep_videoURL dep_audioURL
                                            committed].
      rewrite Hvurl1, Haurl1. auto.
    - left. cbn. rewrite Hvurl1. intros E. specialize (Hvalid_v n E). fold n in Hvalid_v. lia. }
  destruct Hp1 as (Hw1 & Hc1 & Hr1).
  destruct (setupCamera_frame br w1) as (Hv1' & Ha1' & Hu1' & Hvr1' & Har1' & _ & Hac1').
  (* the audio handler, then a render *)
  assert (Hac2 : audioChunksRef (world p1) <> []).
  { rewrite Hw1. now rewrite Hac1', Hac1. }
  destruct (audioRecorder_onstop_urls br cl' (world p1) Hac2)
    as (w2 & art2 & Hrun2 & Hurls2 & Haurl2 & Harec2 & Hvurl2 & Hvrec2).
  assert (Hlen1 : length (objectURLs (world p1)) = S n).
  { rewrite Hw1, Hu1', Hurls1, length_snoc. reflexivity. }
  rewrite Hlen1 in Haurl2.
  assert (Hvp1 : videoURL (world p1) = Some n)
    by (rewrite Hw1; now rewrite Hv1', Hvurl1).
  assert (Hrp1 : videoRecorded (world p1) = true)
    by (rewrite Hw1; now rewrite Hvr1', Hvrec1).
  assert (Hp2 : world p2 = snd (setupCamera br w2) /\
                revoked p2 = revokeIfSet (audioURL (world p))
                               (revokeIfSet (Some n) (revoked p1))).
  { subst p2. unfold commit, between_renders. cbn [committed world]. rewrite Hrun2.
    cbn [snd]. rewrite Hc1. rewrite Deps_eqb_false.
    - unfold run_effect. cbn [world revoked cleanup dep_videoURL dep_audioURL]. auto.
    - right. cbn. rewrite Haurl2. intros E. specialize (Hvalid_a (S n) E).
      fold n in Hvalid_a. lia. }
  destruct Hp2 as [Hw2 Hrev2].
  destruct (setupCamera_frame br w2) as (Hv2' & Ha2' & Hu2' & Hvr2' & Har2' & _).
  rewrite Hw2, Hv2', Ha2', Hu2', Hvr2', Har2', Hvurl2, Hvrec2, Haurl2, Harec2, Hurls2,
    length_snoc, Hlen1, Hvp1, Hrp1, Hrev2.
  repeat split.
  - rewrite !In_revokeIfSet. auto.
  - rewrite Hr1, !In_revokeIfSet.
    intros [[[[H|H]|H]|H]|H].
    + specialize (Hvalid_r _ H). fold n in Hvalid_r. lia.
    + specialize (Hvalid_v _ H). fold n in Hvalid_v. lia.
    + specialize (Hvalid_a _ H). fold n in Hvalid_a. lia.
    + injection H as H. lia.
    + specialize (Hvalid_a _ H). fold n in Hvalid_a. lia.
Qed.

Lemma first_published_url_is_revoked_witness :
  let p1 := commit onlineBrowser
              (between_renders (mediaRecorder_onstop onlineBrowser loadedClosure)
                 (justStopped onlineBrowser)) in
  let p2 := commit onlineBrowser
              (between_renders (audioRecorder_onstop onlineBrowser loadedClosure) p1) in
  videoURL (world p2) = Some 0%nat /\ In 0%nat (revoked p2) /\ ~ In 1%nat (revoked p2).
Proof.
  destruct (first_published_url_is_revoked onlineBrowser loadedClosure loadedClosure
              (justStopped onlineBrowser))
    as (Hv & _ & _ & _ & _ & Hin & Hnot).
  - reflexivity.
  - discriminate.
  - discriminate.
  - intros u H. discriminate H.
  - intros u H. discriminate H.
  - intros u [].
  - split; [exact Hv|]. split; [exact Hin | exact Hnot].
Defined.
